(** * Multiplayer trivia game: a shallow embedding of the lobby and room logic

    The development follows [src/components/GameLobby.tsx] and
    [src/components/TriviaRoom.tsx].

    Modelling conventions.
    - A JS string is the list of its UTF-16 code units.
    - The hosted record store is a record of tables (lists of rows).  Every
      call to it takes a boolean telling whether the returned promise
      resolves ([true]) or rejects ([false]); every call is also appended
      to a log, so that "no write" and "no retry" can be stated.
    - Values produced by [Date.now()] and [Math.random()] (fresh row ids)
      are arguments of the handlers.
    - A handler runs to completion as one step: its awaited calls are
      settled inside the step.  The exceptions are the two handlers
      whose continuation writes cells of the component: the load started
      by the mount effect, and [startGame], whose button stays enabled
      while its call is awaited.  For these the call and its
      continuation are separate steps, and the call takes effect in the
      store when it settles.  The continuations of [submitAnswer] and
      [sendReaction] write no cell: they queue a timeout holding values
      captured at the click, or show a toast.
    - [setTimeout] callbacks are kept in a list of pending tasks together
      with the values their closure captured, and fire as steps of their
      own, in any order.
    - A run of the room view ends when the user leaves: [Leave] calls the
      parent's [onLeaveRoom], which unmounts the view.  It is among the
      actions a screen offers and is not a step of the view.
    - A click runs the handler of the render that made the button.  The
      click events of the view are clicks on the buttons of the current
      render.  [AnimatePresence] keeps a question card on screen, with
      the handlers of the render it was made in, while the card animates
      out: [submitAnswerOf] takes that render as a parameter, and what is
      stated of it holds for such a card too.  A click on a card that is
      animating out is not a step of the view.
    - State updates issued by one handler or one callback are committed
      together, and the timer effect is re-run after a commit exactly when
      one of its dependencies changed.
    - [toast], obtained from [useToast], is the same function in every
      render, so [loadGameData] is created once and the mount effect
      calls it once. *)

From Stdlib Require Import List ZArith NArith Bool Lia String Ascii.
From Stdlib Require Import Permutation Sorted.
Import ListNotations.

(* ------------------------------------------------------------------ *)
(** ** JS strings *)

Module Js.

Definition str := list N.

Definition lit (s : string) : str :=
  map N_of_ascii (list_ascii_of_string s).

Fixpoint eqb (a b : str) : bool :=
  match a, b with
  | [], [] => true
  | x :: a', y :: b' => N.eqb x y && eqb a' b'
  | _, _ => false
  end.

(** [ToBoolean] on a string: only the empty string is falsy. *)
Definition truthy (s : str) : bool :=
  match s with [] => false | _ :: _ => true end.

(** [a || b] on strings. *)
Definition or (a b : str) : str := if truthy a then a else b.

(** WhiteSpace and LineTerminator code points of ECMA-262, the characters
    removed by [String.prototype.trim]. *)
Definition isWhiteSpace (c : N) : bool :=
  existsb (N.eqb c)
    [0x0009; 0x000A; 0x000B; 0x000C; 0x000D; 0x0020; 0x00A0; 0x1680;
     0x2028; 0x2029; 0x202F; 0x205F; 0x3000; 0xFEFF]%N
  || (N.leb 0x2000 c && N.leb c 0x200A).

Fixpoint trimStart (s : str) : str :=
  match s with
  | c :: s' => if isWhiteSpace c then trimStart s' else s
  | [] => []
  end.

Definition trimEnd (s : str) : str := rev (trimStart (rev s)).

Definition trim (s : str) : str := trimEnd (trimStart s).

(** [s.split(sep)[0]] for a one-unit separator: the part of [s] before
    the first occurrence of [sep]. *)
Fixpoint splitHead (sep : N) (s : str) : str :=
  match s with
  | [] => []
  | c :: s' => if N.eqb c sep then [] else c :: splitHead sep s'
  end.

(** Comparison of two strings code unit by code unit: negative, zero or
    positive as [a] comes before, equals or comes after [b]. *)
Fixpoint compare (a b : str) : Z :=
  match a, b with
  | [], [] => 0%Z
  | [], _ :: _ => (-1)%Z
  | _ :: _, [] => 1%Z
  | x :: a', y :: b' =>
      if N.ltb x y then (-1)%Z
      else if N.ltb y x then 1%Z
      else compare a' b'
  end.

Definition quote : N := 34%N.
Definition at_sign : N := 64%N.

End Js.

Definition str : Type := Js.str.
Definition lit : string -> str := Js.lit.

(* ------------------------------------------------------------------ *)
(** ** Data model ([types]) *)

Inductive GameStatus := waiting | playing | finished.

Definition GameStatus_eqb (a b : GameStatus) : bool :=
  match a, b with
  | waiting, waiting | playing, playing | finished, finished => true
  | _, _ => false
  end.

Inductive Difficulty := easy | medium | hard.

Module User.
Record t := mk { id : str; email : str; displayName : option str }.
End User.

(** The timestamp columns ([createdAt], [answeredAt]) are assigned by the
    store; no handler reads them (the lobby only prints [createdAt]), and
    they are left out. *)
Module Room.
Record t := mk {
  id : str; name : str; hostUserId : str;
  status : GameStatus; currentQuestionIndex : nat }.
End Room.

Module Player.
Record t := mk {
  id : str; roomId : str; userId : str; displayName : str; score : Z }.
End Player.

Module Question.
Record t := mk {
  id : str; question : str;
  optionA : str; optionB : str; optionC : str; optionD : str;
  correctAnswer : str; category : str; difficulty : Difficulty }.
End Question.

Module GameAnswer.
Record t := mk {
  id : str; roomId : str; userId : str; questionId : str;
  selectedAnswer : str; isCorrect : bool }.
End GameAnswer.

(** [user.displayName || user.email.split('@')[0]] *)
Definition displayNameOf (u : User.t) : str :=
  match User.displayName u with
  | Some d => Js.or d (Js.splitHead Js.at_sign (User.email u))
  | None => Js.splitHead Js.at_sign (User.email u)
  end.

(* ------------------------------------------------------------------ *)
(** ** Toasts *)

Inductive Variant := default | destructive.

Record Toast := mkToast { title : str; description : str; variant : Variant }.

Definition errorToast (d : string) : Toast :=
  mkToast (lit "Error") (lit d) destructive.

(* ------------------------------------------------------------------ *)
(** ** The record store *)

Record Db := mkDb {
  tbl_rooms : list Room.t;
  tbl_players : list Player.t;
  tbl_questions : list Question.t;
  tbl_gameAnswers : list GameAnswer.t }.

(** One constructor per call the components make on the store. *)
Inductive Call :=
| RoomsCreate (r : Room.t)
| RoomsUpdate (id : str) (st : GameStatus) (idx : nat)
| PlayersList (roomId : str)
| PlayersFind (roomId userId : str)
| PlayersCreate (p : Player.t)
| PlayersUpdate (id : str) (score : Z)
| QuestionsList
| GameAnswersCreate (a : GameAnswer.t)
| Publish (channel emoji userId displayName : str).

Record Env := mkEnv { db : Db; calls : list Call; toasts : list Toast }.

Definition updRoom (id : str) (st : GameStatus) (idx : nat) (r : Room.t) : Room.t :=
  if Js.eqb (Room.id r) id
  then Room.mk (Room.id r) (Room.name r) (Room.hostUserId r) st idx
  else r.

Definition updScore (id : str) (sc : Z) (p : Player.t) : Player.t :=
  if Js.eqb (Player.id p) id
  then Player.mk (Player.id p) (Player.roomId p) (Player.userId p)
                 (Player.displayName p) sc
  else p.

Definition db_rooms_create (r : Room.t) (d : Db) : Db :=
  mkDb (tbl_rooms d ++ [r]) (tbl_players d) (tbl_questions d) (tbl_gameAnswers d).

Definition db_rooms_update (id : str) (st : GameStatus) (idx : nat) (d : Db) : Db :=
  mkDb (map (updRoom id st idx) (tbl_rooms d)) (tbl_players d) (tbl_questions d) (tbl_gameAnswers d).

Definition db_players_create (p : Player.t) (d : Db) : Db :=
  mkDb (tbl_rooms d) (tbl_players d ++ [p]) (tbl_questions d) (tbl_gameAnswers d).

Definition db_players_update (id : str) (sc : Z) (d : Db) : Db :=
  mkDb (tbl_rooms d) (map (updScore id sc) (tbl_players d)) (tbl_questions d) (tbl_gameAnswers d).

Definition db_gameAnswers_create (a : GameAnswer.t) (d : Db) : Db :=
  mkDb (tbl_rooms d) (tbl_players d) (tbl_questions d) (tbl_gameAnswers d ++ [a]).

(** [where: { AND: [{ roomId }, { userId }] }, limit: 1] *)
Definition db_players_find (roomId userId : str) (d : Db) : list Player.t :=
  firstn 1 (filter (fun p => Js.eqb (Player.roomId p) roomId
                             && Js.eqb (Player.userId p) userId) (tbl_players d)).

(* ------------------------------------------------------------------ *)
(** ** Handlers as computations: state passing with exceptions

    [Eff S A] threads a state of type [S]; the result [None] is a thrown
    exception (a rejected promise under [await]).  State written before
    the throw is kept, as in JS. *)

Definition Eff (S A : Type) : Type := S -> S * option A.

Definition ret {S A} (a : A) : Eff S A := fun s => (s, Some a).

Definition bind {S A B} (c : Eff S A) (k : A -> Eff S B) : Eff S B :=
  fun s => match c s with
           | (s', Some a) => k a s'
           | (s', None) => (s', None)
           end.

Definition throw {S A} : Eff S A := fun s => (s, None).

Definition modify {S} (f : S -> S) : Eff S unit := fun s => (f s, Some tt).

Definition gets {S A} (f : S -> A) : Eff S A := fun s => (s, Some (f s)).

(** [try { c } catch { h }] *)
Definition tryCatch {S A} (c : Eff S A) (h : Eff S A) : Eff S A :=
  fun s => match c s with
           | (s', Some a) => (s', Some a)
           | (s', None) => h s'
           end.

(** [try { c } finally { f }] *)
Definition tryFinally {S A} (c : Eff S A) (f : Eff S unit) : Eff S A :=
  fun s => match c s with
           | (s', r) => match f s' with
                        | (s'', Some _) => (s'', r)
                        | (s'', None) => (s'', None)
                        end
           end.

Definition exec {S A} (c : Eff S A) (s : S) : S := fst (c s).

Declare Scope eff_scope.
Delimit Scope eff_scope with eff.
Notation "x <- c ;; k" := (bind c (fun x => k))
  (at level 61, c at next level, right associativity) : eff_scope.
Notation "c ;; k" := (bind c (fun _ => k))
  (at level 61, right associativity) : eff_scope.
Open Scope eff_scope.

(** States that carry the store, the call log and the toast list. *)
Class HasEnv (S : Type) := {
  getEnv : S -> Env;
  setEnv : Env -> S -> S }.

Section EnvOps.
Context {S : Type} `{HasEnv S}.

Definition overEnv (f : Env -> Env) : Eff S unit :=
  modify (fun s => setEnv (f (getEnv s)) s).

Definition toast (t : Toast) : Eff S unit :=
  overEnv (fun e => mkEnv (db e) (calls e) (toasts e ++ [t])).

(** A call on the store: it is logged; it then either takes effect and
    yields its result, or rejects. *)
Definition request {A} (c : Call) (ok : bool) (apply : Db -> Db)
           (result : Db -> A) : Eff S A :=
  overEnv (fun e => mkEnv (db e) (calls e ++ [c]) (toasts e)) ;;
  if ok
  then (r <- gets (fun s => result (db (getEnv s))) ;;
        overEnv (fun e => mkEnv (apply (db e)) (calls e) (toasts e)) ;;
        ret r)
  else throw.

(** The two halves of [request], for a call whose answer comes in a later
    step: sending it, and its settling. *)
Definition issue (c : Call) : Eff S unit :=
  overEnv (fun e => mkEnv (db e) (calls e ++ [c]) (toasts e)).

Definition settle {A} (ok : bool) (apply : Db -> Db) (result : Db -> A)
  : Eff S A :=
  if ok
  then (r <- gets (fun s => result (db (getEnv s))) ;;
        overEnv (fun e => mkEnv (apply (db e)) (calls e) (toasts e)) ;;
        ret r)
  else throw.

End EnvOps.

(* ------------------------------------------------------------------ *)
(** ** The lobby ([GameLobby.tsx]) *)

Module GameLobby.

(** Component state, the surrounding [App]'s [currentRoom] (written by
    [onJoinRoom]) and the environment. *)
Record World := mk {
  env : Env;
  roomList : list Room.t;
  creating : bool;
  joining : option str;
  newRoomName : str;
  showCreateForm : bool;
  currentRoom : option Room.t }.

#[export] Instance World_HasEnv : HasEnv World := {
  getEnv := env;
  setEnv e w := mk e (roomList w) (creating w) (joining w) (newRoomName w)
                   (showCreateForm w) (currentRoom w) }.

Definition setCreating (b : bool) : Eff World unit :=
  modify (fun w => mk (env w) (roomList w) b (joining w) (newRoomName w)
                      (showCreateForm w) (currentRoom w)).

Definition setJoining (j : option str) : Eff World unit :=
  modify (fun w => mk (env w) (roomList w) (creating w) j (newRoomName w)
                      (showCreateForm w) (currentRoom w)).

Definition setNewRoomName (n : str) : Eff World unit :=
  modify (fun w => mk (env w) (roomList w) (creating w) (joining w) n
                      (showCreateForm w) (currentRoom w)).

Definition setShowCreateForm (b : bool) : Eff World unit :=
  modify (fun w => mk (env w) (roomList w) (creating w) (joining w)
                      (newRoomName w) b (currentRoom w)).

Definition onJoinRoom (r : Room.t) : Eff World unit :=
  modify (fun w => mk (env w) (roomList w) (creating w) (joining w)
                      (newRoomName w) (showCreateForm w) (Some r)).

Definition init (e : Env) : World := mk e [] false None [] false None.

Section Handlers.
Variable user : User.t.

Definition newRoom (roomId name : str) : Room.t :=
  Room.mk roomId name (User.id user) waiting 0.

Definition newPlayer (playerId roomId : str) : Player.t :=
  Player.mk playerId roomId (User.id user) (displayNameOf user) 0.

(** [createRoom]; [roomId] and [playerId] are the two generated ids,
    [okRoom] and [okPlayer] the outcomes of the two store calls. *)
Definition createRoom (roomId playerId : str) (okRoom okPlayer : bool)
  : Eff World unit :=
  nm <- gets newRoomName ;;
  if negb (Js.truthy (Js.trim nm))
  then toast (errorToast "Please enter a room name")
  else
    setCreating true ;;
    tryFinally
      (tryCatch
         (room <- request (RoomsCreate (newRoom roomId (Js.trim nm))) okRoom
                    (db_rooms_create (newRoom roomId (Js.trim nm)))
                    (fun _ => newRoom roomId (Js.trim nm)) ;;
          request (PlayersCreate (newPlayer playerId roomId)) okPlayer
                  (db_players_create (newPlayer playerId roomId))
                  (fun _ => tt) ;;
          toast (mkToast (lit "Success!")
                         (lit "Room " ++ [Js.quote] ++ nm ++ [Js.quote]
                          ++ lit " created successfully!") default) ;;
          onJoinRoom room)
         (toast (errorToast "Failed to create room")))
      (setCreating false ;; setNewRoomName [] ;; setShowCreateForm false).

(** [joinRoom]; [okFind] and [okCreate] are the outcomes of the lookup and
    of the insertion. *)
Definition joinRoom (room : Room.t) (playerId : str) (okFind okCreate : bool)
  : Eff World unit :=
  setJoining (Some (Room.id room)) ;;
  tryFinally
    (tryCatch
       (existingPlayer <-
          request (PlayersFind (Room.id room) (User.id user)) okFind
                  (fun d => d)
                  (db_players_find (Room.id room) (User.id user)) ;;
        (if Nat.eqb (List.length existingPlayer) 0
         then request (PlayersCreate (newPlayer playerId (Room.id room)))
                      okCreate
                      (db_players_create (newPlayer playerId (Room.id room)))
                      (fun _ => tt)
         else ret tt) ;;
        toast (mkToast (lit "Joined!")
                       (lit "Welcome to " ++ [Js.quote] ++ Room.name room
                        ++ [Js.quote]) default) ;;
        onJoinRoom room)
       (toast (errorToast "Failed to join room")))
    (setJoining None).

End Handlers.

(** The player rows of a room that belong to a user. *)
Definition memberRows (roomId userId : str) (d : Db) : list Player.t :=
  filter (fun p => Js.eqb (Player.roomId p) roomId
                   && Js.eqb (Player.userId p) userId) (tbl_players d).

End GameLobby.

(* ------------------------------------------------------------------ *)
(** ** Sorting with a comparator

    [Array.prototype.sort] with a consistent comparator returns the stable
    sorted arrangement of its input, which is unique; it is computed here
    by insertion, an element going in front of the first one it does not
    compare greater than. *)

Section SortBy.
Variable A : Type.
Variable cmp : A -> A -> Z.

Fixpoint insertBy (x : A) (l : list A) : list A :=
  match l with
  | [] => [x]
  | y :: l' => if (cmp x y <=? 0)%Z then x :: l else y :: insertBy x l'
  end.

Definition sortBy (l : list A) : list A := fold_right insertBy [] l.

End SortBy.

Arguments insertBy {A} cmp x l.
Arguments sortBy {A} cmp l.

(** [(a, b) => b.score - a.score] *)
Definition byScoreDesc (a b : Player.t) : Z :=
  (Player.score b - Player.score a)%Z.

Definition sortPlayers : list Player.t -> list Player.t := sortBy byScoreDesc.

(** [players.list({ where: { roomId }, orderBy: { score: 'desc' }, limit: 20 })] *)
Definition db_players_list (roomId : str) (d : Db) : list Player.t :=
  firstn 20 (sortPlayers
               (filter (fun p => Js.eqb (Player.roomId p) roomId) (tbl_players d))).

(** Ascending order of [id], the ids compared as strings. *)
Definition byIdAsc (a b : Question.t) : Z :=
  Js.compare (Question.id a) (Question.id b).

(** [questions.list({ orderBy: { id: 'asc' }, limit: 10 })] *)
Definition db_questions_list (d : Db) : list Question.t :=
  firstn 10 (sortBy byIdAsc (tbl_questions d)).

(* ------------------------------------------------------------------ *)
(** ** The room view ([TriviaRoom.tsx]) *)

Module TriviaRoom.

(** The [useState] cells of the component; the [answers] cell, which is
    never read or written, is left out. *)
Record State := mkState {
  players : list Player.t;
  questions : list Question.t;
  currentQuestion : option Question.t;
  gameStatus : GameStatus;
  timeLeft : Z;
  selectedAnswer : option str;
  hasAnswered : bool;
  showResults : bool;
  questionIndex : nat;
  loading : bool }.

(** A [setTimeout] callback waiting to run, with what its closure holds:
    [nextQuestion] is a [useCallback] over [questionIndex] and
    [questions], so a pending call carries the values of the render that
    created it. *)
Inductive Task :=
| ShowThenNext (qi : nat) (qs : list Question.t)
| Next (qi : nat) (qs : list Question.t).

(** The environment, the component's cells, the pending timeouts, whether
    the load of the mount effect is still awaited, and the number of
    [startGame] calls whose room update is still awaited. *)
Record World := mk {
  env : Env;
  ui : State;
  pending : list Task;
  loadInFlight : bool;
  starting : nat }.

#[export] Instance World_HasEnv : HasEnv World := {
  getEnv := env;
  setEnv e w := mk e (ui w) (pending w) (loadInFlight w) (starting w) }.

Definition overUi (f : State -> State) : Eff World unit :=
  modify (fun w => mk (env w) (f (ui w)) (pending w) (loadInFlight w)
                      (starting w)).

Definition schedule (t : Task) : Eff World unit :=
  modify (fun w => mk (env w) (ui w) (pending w ++ [t]) (loadInFlight w)
                      (starting w)).

Definition setPlayers (v : list Player.t) : Eff World unit :=
  overUi (fun s => mkState v (questions s) (currentQuestion s) (gameStatus s)
    (timeLeft s) (selectedAnswer s) (hasAnswered s) (showResults s)
    (questionIndex s) (loading s)).

Definition setQuestions (v : list Question.t) : Eff World unit :=
  overUi (fun s => mkState (players s) v (currentQuestion s) (gameStatus s)
    (timeLeft s) (selectedAnswer s) (hasAnswered s) (showResults s)
    (questionIndex s) (loading s)).

Definition setCurrentQuestion (v : option Question.t) : Eff World unit :=
  overUi (fun s => mkState (players s) (questions s) v (gameStatus s)
    (timeLeft s) (selectedAnswer s) (hasAnswered s) (showResults s)
    (questionIndex s) (loading s)).

Definition setGameStatus (v : GameStatus) : Eff World unit :=
  overUi (fun s => mkState (players s) (questions s) (currentQuestion s) v
    (timeLeft s) (selectedAnswer s) (hasAnswered s) (showResults s)
    (questionIndex s) (loading s)).

Definition setTimeLeft (f : Z -> Z) : Eff World unit :=
  overUi (fun s => mkState (players s) (questions s) (currentQuestion s)
    (gameStatus s) (f (timeLeft s)) (selectedAnswer s) (hasAnswered s)
    (showResults s) (questionIndex s) (loading s)).

Definition setSelectedAnswer (v : option str) : Eff World unit :=
  overUi (fun s => mkState (players s) (questions s) (currentQuestion s)
    (gameStatus s) (timeLeft s) v (hasAnswered s) (showResults s)
    (questionIndex s) (loading s)).

Definition setHasAnswered (v : bool) : Eff World unit :=
  overUi (fun s => mkState (players s) (questions s) (currentQuestion s)
    (gameStatus s) (timeLeft s) (selectedAnswer s) v (showResults s)
    (questionIndex s) (loading s)).

Definition setShowResults (v : bool) : Eff World unit :=
  overUi (fun s => mkState (players s) (questions s) (currentQuestion s)
    (gameStatus s) (timeLeft s) (selectedAnswer s) (hasAnswered s) v
    (questionIndex s) (loading s)).

Definition setQuestionIndex (v : nat) : Eff World unit :=
  overUi (fun s => mkState (players s) (questions s) (currentQuestion s)
    (gameStatus s) (timeLeft s) (selectedAnswer s) (hasAnswered s)
    (showResults s) v (loading s)).

Definition setLoading (v : bool) : Eff World unit :=
  overUi (fun s => mkState (players s) (questions s) (currentQuestion s)
    (gameStatus s) (timeLeft s) (selectedAnswer s) (hasAnswered s)
    (showResults s) (questionIndex s) v).

Definition loadSettled : Eff World unit :=
  modify (fun w => mk (env w) (ui w) (pending w) false (starting w)).

Definition startCalled : Eff World unit :=
  modify (fun w => mk (env w) (ui w) (pending w) (loadInFlight w)
                      (S (starting w))).

Definition startSettled : Eff World unit :=
  modify (fun w => mk (env w) (ui w) (pending w) (loadInFlight w)
                      (Nat.pred (starting w))).

(** The initial values of the [useState] cells. *)
Definition initState : State :=
  mkState [] [] None waiting 15 None false false 0 true.

(** The component right after mounting: [loadGameData] has been called
    by the mount effect and is awaiting the store. *)
Definition init (e : Env) : World := mk e initState [] true 0.

(** [nextQuestion], a closure over [questionIndex] and [questions]. *)
Definition nextQuestion (questionIndex : nat) (questions : list Question.t)
  : Eff World unit :=
  let nextIndex := questionIndex + 1 in
  if List.length questions <=? nextIndex
  then setGameStatus finished
  else
    setQuestionIndex nextIndex ;;
    setCurrentQuestion (nth_error questions nextIndex) ;;
    setSelectedAnswer None ;;
    setHasAnswered false ;;
    setShowResults false ;;
    setTimeLeft (fun _ => 15%Z).

(** The guard of the first branch of the timer effect: the one-second
    timer is armed exactly while it holds (the effect's cleanup clears
    the timer whenever a dependency changes). *)
Definition ticking (s : State) : bool :=
  GameStatus_eqb (gameStatus s) playing && (0 <? timeLeft s)%Z
  && negb (hasAnswered s).

(** The body of the timer effect, run with the state of the render that
    triggered it. *)
Definition timerEffect : Eff World unit :=
  s <- gets ui ;;
  if ticking s then ret tt
  else if (timeLeft s =? 0)%Z && negb (hasAnswered s)
  then setShowResults true ;;
       schedule (Next (questionIndex s) (questions s))
  else ret tt.

(** The callback of the one-second timer: [setTimeLeft(prev => prev - 1)]. *)
Definition tick : Eff World unit := setTimeLeft (fun prev => (prev - 1)%Z).

(** Dependencies [gameStatus, timeLeft, hasAnswered, nextQuestion] of the
    timer effect; [nextQuestion] changes with [questionIndex], and with
    [questions], which is only replaced by [loadGameData]. *)
Definition depsChanged (a b : State) : bool :=
  negb (GameStatus_eqb (gameStatus a) (gameStatus b)
        && (timeLeft a =? timeLeft b)%Z
        && Bool.eqb (hasAnswered a) (hasAnswered b)
        && Nat.eqb (questionIndex a) (questionIndex b)).

(** *** What the component renders *)

Inductive Action :=
| Leave
| StartGame
| SubmitAnswer (key : str)
| SendReaction (emoji : str).

Definition Action_eqb (a b : Action) : bool :=
  match a, b with
  | Leave, Leave | StartGame, StartGame => true
  | SubmitAnswer k, SubmitAnswer k' => Js.eqb k k'
  | SendReaction e, SendReaction e' => Js.eqb e e'
  | _, _ => false
  end.

Record OptionButton := mkOption { key : str; text : str; disabled : bool }.

Inductive Screen :=
| LoadingScreen
| FinishedScreen (winner : option Player.t) (winnerName : str)
                 (winnerPoints : Z) (leaderboard : list Player.t)
| WaitingScreen (startButton : bool) (sidebar : list Player.t)
| QuestionScreen (options : list OptionButton) (sidebar : list Player.t).

(** The four string literals of the reaction buttons, as the source file
    has them, in UTF-16 code units. *)
Definition reactions : list str :=
  [[0xF8FF; 0xFC; 0xF2; 0xC4];
   [0x201A; 0xF9; 0xA7; 0xD4; 0x220F; 0xE8];
   [0xF8FF; 0xFC; 0xEB; 0xE7];
   [0x201A; 0xF6; 0xB0]]%N.

(** The four answer buttons; none is rendered without a current question. *)
Definition optionButtons (s : State) : list OptionButton :=
  match currentQuestion s with
  | Some q =>
      [ mkOption (lit "A") (Question.optionA q) (hasAnswered s);
        mkOption (lit "B") (Question.optionB q) (hasAnswered s);
        mkOption (lit "C") (Question.optionC q) (hasAnswered s);
        mkOption (lit "D") (Question.optionD q) (hasAnswered s) ]
  | None => []
  end.

Section Component.
Variable user : User.t.
Variable room : Room.t.

Definition isHost : bool := Js.eqb (Room.hostUserId room) (User.id user).

Definition render (s : State) : Screen :=
  if loading s then LoadingScreen
  else if GameStatus_eqb (gameStatus s) finished then
    let sortedPlayers := sortPlayers (players s) in
    let winner := nth_error sortedPlayers 0 in
    FinishedScreen winner
      (match winner with
       | Some p => Js.or (Player.displayName p) (lit "Champion")
       | None => lit "Champion"
       end)
      (match winner with Some p => Player.score p | None => 0%Z end)
      sortedPlayers
  else if GameStatus_eqb (gameStatus s) waiting then
    WaitingScreen isHost (sortPlayers (players s))
  else QuestionScreen (optionButtons s) (sortPlayers (players s)).

(** The handlers a screen lets the user invoke. *)
Definition offered (sc : Screen) : list Action :=
  match sc with
  | LoadingScreen => []
  | FinishedScreen _ _ _ _ => [Leave]
  | WaitingScreen startButton _ =>
      Leave :: (if startButton then [StartGame] else [])
  | QuestionScreen options _ =>
      Leave
      :: map (fun o => SubmitAnswer (key o))
             (filter (fun o => negb (disabled o)) options)
      ++ map SendReaction reactions
  end.

Definition offers (s : State) (a : Action) : bool :=
  existsb (Action_eqb a) (offered (render s)).

(** The sidebar sorts the [players] array in place while rendering. *)
Definition renderMutation : Eff World unit :=
  s <- gets ui ;;
  if loading s || GameStatus_eqb (gameStatus s) finished then ret tt
  else setPlayers (sortPlayers (players s)).

(** *** Handlers *)

Definition loadGameData (okPlayers okQuestions : bool) : Eff World unit :=
  tryCatch
    (playersData <- request (PlayersList (Room.id room)) okPlayers
                      (fun d => d) (db_players_list (Room.id room)) ;;
     setPlayers playersData ;;
     questionsData <- request QuestionsList okQuestions
                        (fun d => d) db_questions_list ;;
     setQuestions questionsData ;;
     (if 0 <? List.length questionsData
      then setCurrentQuestion (nth_error questionsData 0)
      else ret tt) ;;
     setLoading false)
    (toast (errorToast "Failed to load game data")).

Definition startGame (ok : bool) : Eff World unit :=
  tryCatch
    (request (RoomsUpdate (Room.id room) playing 0) ok
             (db_rooms_update (Room.id room) playing 0) (fun _ => tt) ;;
     setGameStatus playing ;;
     setTimeLeft (fun _ => 15%Z) ;;
     setQuestionIndex 0 ;;
     toast (mkToast (lit "Game Started!") (lit "Good luck everyone!") default))
    (toast (errorToast "Failed to start game")).

(** [startGame] in two parts.  Up to its [await]: the room update is
    sent, and the call is counted as awaited. *)
Definition startGameCall : Eff World unit :=
  issue (RoomsUpdate (Room.id room) playing 0) ;;
  startCalled.

(** From its [await] on, once the update has settled with outcome [ok]:
    the rest of the [try] block, or the [catch] block.  Nothing here
    looks at the state the continuation finds. *)
Definition startGameResume (ok : bool) : Eff World unit :=
  startSettled ;;
  tryCatch
    (settle ok (db_rooms_update (Room.id room) playing 0) (fun _ => tt) ;;
     setGameStatus playing ;;
     setTimeLeft (fun _ => 15%Z) ;;
     setQuestionIndex 0 ;;
     toast (mkToast (lit "Game Started!") (lit "Good luck everyone!") default))
    (toast (errorToast "Failed to start game")).

Definition newAnswer (answerId : str) (q : Question.t) (answer : str)
  : GameAnswer.t :=
  GameAnswer.mk answerId (Room.id room) (User.id user) (Question.id q)
                answer (Js.eqb answer (Question.correctAnswer q)).

(** [submitAnswer] as created in a render with cells [s]: the handler
    reads [hasAnswered], [currentQuestion], [players] and [nextQuestion]
    from that render, and writes to the component as it is when the
    click arrives. *)
Definition submitAnswerOf (s : State) (answer answerId : str)
           (okAnswer okScore : bool) : Eff World unit :=
  match currentQuestion s with
  | None => ret tt
  | Some q =>
    if hasAnswered s then ret tt
    else
      setSelectedAnswer (Some answer) ;;
      setHasAnswered true ;;
      tryCatch
        (let isCorrect := Js.eqb answer (Question.correctAnswer q) in
         request (GameAnswersCreate (newAnswer answerId q answer)) okAnswer
                 (db_gameAnswers_create (newAnswer answerId q answer))
                 (fun _ => tt) ;;
         (if isCorrect
          then match find (fun p => Js.eqb (Player.userId p) (User.id user))
                          (players s) with
               | Some currentPlayer =>
                   request (PlayersUpdate (Player.id currentPlayer)
                                          (Player.score currentPlayer + 100))
                           okScore
                           (db_players_update (Player.id currentPlayer)
                                              (Player.score currentPlayer + 100))
                           (fun _ => tt)
               | None => ret tt
               end
          else ret tt) ;;
         schedule (ShowThenNext (questionIndex s) (questions s)))
        (toast (errorToast "Failed to submit answer"))
  end.

(** [submitAnswer] of the current render. *)
Definition submitAnswer (answer answerId : str) (okAnswer okScore : bool)
  : Eff World unit :=
  s <- gets ui ;;
  submitAnswerOf s answer answerId okAnswer okScore.

Definition sendReaction (emoji : str) (ok : bool) : Eff World unit :=
  s <- gets ui ;;
  tryCatch
    (request (Publish (lit "trivia-" ++ Room.id room) emoji (User.id user)
                (match find (fun p => Js.eqb (Player.userId p) (User.id user))
                            (players s) with
                 | Some p => Js.or (Player.displayName p) (lit "Player")
                 | None => lit "Player"
                 end))
             ok (fun d => d) (fun _ => tt))
    (ret tt).

(** A pending [setTimeout] callback runs. *)
Definition runTask (t : Task) : Eff World unit :=
  match t with
  | ShowThenNext qi qs => setShowResults true ;; schedule (Next qi qs)
  | Next qi qs => nextQuestion qi qs
  end.

(** *** The event loop *)

Inductive Event :=
| Loaded (okPlayers okQuestions : bool)
| ClickStart (ok : bool)
| ClickAnswer (key answerId : str) (okAnswer okScore : bool)
| ClickReaction (emoji : str) (ok : bool)
| Tick
| Timeout (n : nat)
| External (d : Db)
| PressStart
| StartSettled (ok : bool).

(** After a handler: the updates are committed, the timer effect runs if
    a dependency changed ([reloaded] stands for a new [questions] array),
    and the new screen is rendered. *)
Definition commit (reloaded : bool) (h : Eff World unit) : Eff World unit :=
  before <- gets ui ;;
  h ;;
  after <- gets ui ;;
  (if reloaded || depsChanged before after then timerEffect else ret tt) ;;
  renderMutation.

Definition dropNth {A} (n : nat) (l : list A) : list A :=
  firstn n l ++ skipn (S n) l.

Definition takeTask (n : nat) : Eff World unit :=
  modify (fun w => mk (env w) (ui w) (dropNth n (pending w)) (loadInFlight w)
                      (starting w)).

Definition setDb (d : Db) : Eff World unit :=
  overEnv (fun e => mkEnv d (calls e) (toasts e)).

(** One event, when the current state enables it.

    - [Loaded]: the load of the mount effect settles.
    - [ClickStart ok]: a click on Start whose room update settles, with
      outcome [ok], before anything else happens.
    - [PressStart]: a click on Start whose room update is left awaited;
      [StartSettled ok]: one awaited room update settles and the rest of
      its [startGame] runs, whatever the state has become.
    - [ClickAnswer], [ClickReaction]: a click on a button of the screen.
    - [Tick]: the one-second timer of the timer effect fires.
    - [Timeout n]: the pending timeout at position [n] fires.
    - [External d]: other clients leave the store as [d]. *)
Definition step (ev : Event) (w : World) : option World :=
  match ev with
  | Loaded okP okQ =>
      if loadInFlight w
      then Some (exec (loadSettled ;; commit true (loadGameData okP okQ)) w)
      else None
  | ClickStart ok =>
      if offers (ui w) StartGame
      then Some (exec (commit false (startGame ok)) w)
      else None
  | ClickAnswer k aid okA okS =>
      if offers (ui w) (SubmitAnswer k)
      then Some (exec (commit false (submitAnswer k aid okA okS)) w)
      else None
  | ClickReaction e ok =>
      if offers (ui w) (SendReaction e)
      then Some (exec (commit false (sendReaction e ok)) w)
      else None
  | Tick =>
      if ticking (ui w)
      then Some (exec (commit false tick) w)
      else None
  | Timeout n =>
      match nth_error (pending w) n with
      | Some t => Some (exec (takeTask n ;; commit false (runTask t)) w)
      | None => None
      end
  | External d => Some (exec (setDb d) w)
  | PressStart =>
      if offers (ui w) StartGame
      then Some (exec startGameCall w)
      else None
  | StartSettled ok =>
      if 0 <? starting w
      then Some (exec (commit false (startGameResume ok)) w)
      else None
  end.

Fixpoint run (evs : list Event) (w : World) : option World :=
  match evs with
  | [] => Some w
  | ev :: evs' =>
      match step ev w with
      | Some w' => run evs' w'
      | None => None
      end
  end.

Definition reachable (w : World) : Prop :=
  exists e evs, run evs (init e) = Some w.

End Component.

End TriviaRoom.

(** Descending order of scores. *)
Definition descending : list Player.t -> Prop :=
  StronglySorted (fun a b => (Player.score b <= Player.score a)%Z).

(* ------------------------------------------------------------------ *)
(** ** Vocabulary for the statements about the room view *)

(** Two component states that agree on everything but [players] and
    [showResults], the two cells that rendering and the timer effect
    write. *)
Definition sameGame (a b : TriviaRoom.State) : Prop :=
  TriviaRoom.questions a = TriviaRoom.questions b
  /\ TriviaRoom.currentQuestion a = TriviaRoom.currentQuestion b
  /\ TriviaRoom.gameStatus a = TriviaRoom.gameStatus b
  /\ TriviaRoom.timeLeft a = TriviaRoom.timeLeft b
  /\ TriviaRoom.selectedAnswer a = TriviaRoom.selectedAnswer b
  /\ TriviaRoom.hasAnswered a = TriviaRoom.hasAnswered b
  /\ TriviaRoom.questionIndex a = TriviaRoom.questionIndex b
  /\ TriviaRoom.loading a = TriviaRoom.loading b.

(** The timeout the timer effect adds when it runs on state [after]. *)
Definition expiryTasks (ran : bool) (after : TriviaRoom.State)
  : list TriviaRoom.Task :=
  if ran && negb (TriviaRoom.ticking after)
     && (TriviaRoom.timeLeft after =? 0)%Z
     && negb (TriviaRoom.hasAnswered after)
  then [TriviaRoom.Next (TriviaRoom.questionIndex after)
                        (TriviaRoom.questions after)]
  else [].

Definition taskQuestions (t : TriviaRoom.Task) : list Question.t :=
  match t with
  | TriviaRoom.ShowThenNext _ qs | TriviaRoom.Next _ qs => qs
  end.

(** The score stored for a player row. *)
Definition storedScore (id : str) (d : Db) : option Z :=
  option_map Player.score
    (find (fun p => Js.eqb (Player.id p) id) (tbl_players d)).

(** The answers stored for a user and a question. *)
Definition storedAnswers (userId questionId : str) (d : Db)
  : list GameAnswer.t :=
  filter (fun a => Js.eqb (GameAnswer.userId a) userId
                   && Js.eqb (GameAnswer.questionId a) questionId)
         (tbl_gameAnswers d).

(** What holds of the room view in every state it can reach: until the
    load settles nothing has happened; while waiting no timeout is
    pending and the countdown is untouched; the countdown stays within
    0..15; pending calls of [nextQuestion] hold the loaded questions; no
    [startGame] is awaited behind the loading screen. *)
Definition Inv (w : TriviaRoom.World) : Prop :=
  (TriviaRoom.loadInFlight w = true ->
     TriviaRoom.ui w = TriviaRoom.initState /\ TriviaRoom.pending w = [])
  /\ (TriviaRoom.gameStatus (TriviaRoom.ui w) = waiting ->
        TriviaRoom.pending w = []
        /\ TriviaRoom.timeLeft (TriviaRoom.ui w) = 15%Z)
  /\ (0 <= TriviaRoom.timeLeft (TriviaRoom.ui w) <= 15)%Z
  /\ Forall (fun t => taskQuestions t
                      = TriviaRoom.questions (TriviaRoom.ui w))
            (TriviaRoom.pending w)
  /\ (TriviaRoom.loading (TriviaRoom.ui w) = true ->
      TriviaRoom.starting w = 0).

(** How one event may move the game status: not at all, from [waiting]
    to [playing] by a successful [startGame], from [playing] to
    [finished] by a pending [nextQuestion] whose advanced index reaches
    the number of loaded questions, or from any status to [playing] by
    the continuation of a [startGame] whose call was left awaited. *)
Definition statusMove (ev : TriviaRoom.Event) (w w' : TriviaRoom.World)
  : Prop :=
  let s := TriviaRoom.ui w in
  let s' := TriviaRoom.ui w' in
  TriviaRoom.gameStatus s' = TriviaRoom.gameStatus s
  \/ (TriviaRoom.gameStatus s = waiting
      /\ TriviaRoom.gameStatus s' = playing
      /\ ev = TriviaRoom.ClickStart true)
  \/ (TriviaRoom.gameStatus s = playing
      /\ TriviaRoom.gameStatus s' = finished
      /\ exists n qi,
           ev = TriviaRoom.Timeout n
           /\ nth_error (TriviaRoom.pending w) n
              = Some (TriviaRoom.Next qi (TriviaRoom.questions s))
           /\ List.length (TriviaRoom.questions s) <= qi + 1)
  \/ (TriviaRoom.gameStatus s' = playing
      /\ 0 < TriviaRoom.starting w
      /\ ev = TriviaRoom.StartSettled true).

(* ------------------------------------------------------------------ *)
(** ** A small instance: one room, two players, three questions *)

Module Demo.

Definition alice : User.t :=
  User.mk (lit "u1") (lit "alice@example.com") None.

Definition bob : User.t :=
  User.mk (lit "u2") (lit "bob@example.com") (Some (lit "Bob")).

Definition quiz : Room.t := Room.mk (lit "r1") (lit "Quiz") (lit "u1") waiting 0.

Definition row1 : Player.t :=
  Player.mk (lit "p1") (lit "r1") (lit "u1") (lit "alice") 0.

Definition row2 : Player.t :=
  Player.mk (lit "p2") (lit "r1") (lit "u2") (lit "Bob") 0.

Definition ask (i a : string) : Question.t :=
  Question.mk (lit i) (lit "?") (lit "a") (lit "b") (lit "c") (lit "d")
              (lit a) (lit "misc") easy.

Definition q1 : Question.t := ask "q1" "A".
Definition q2 : Question.t := ask "q2" "B".
Definition q3 : Question.t := ask "q3" "C".

Definition store : Db := mkDb [quiz] [row1; row2] [q1; q2; q3] [].

Definition env0 : Env := mkEnv store [] [].

(** The lobby with a typed room name. *)
Definition lobby (name : str) : GameLobby.World :=
  GameLobby.mk env0 [quiz] false None name true None.

(** Alice's room view once the data is loaded, and once she has started
    the game. *)
Definition loaded : TriviaRoom.World :=
  exec (bind TriviaRoom.loadSettled
          (fun _ => TriviaRoom.commit true
                      (TriviaRoom.loadGameData quiz true true)))
       (TriviaRoom.init env0).

Definition started : TriviaRoom.World :=
  exec (TriviaRoom.commit false (TriviaRoom.startGame quiz true)) loaded.

Definition opening : list TriviaRoom.Event :=
  [TriviaRoom.Loaded true true; TriviaRoom.ClickStart true].

(** The countdown of the first question runs out. *)
Definition timeUp : list TriviaRoom.Event :=
  opening ++ repeat TriviaRoom.Tick 15.

Definition click (k a : string) : TriviaRoom.Event :=
  TriviaRoom.ClickAnswer (lit k) (lit a) true true.

(** Two questions answered correctly, one after the other. *)
Definition twoCorrect : list TriviaRoom.Event :=
  opening ++ [click "A" "a1"; TriviaRoom.Timeout 0; TriviaRoom.Timeout 0].

(** An answer given after the time ran out but before the next question
    came up, then an answer to the next question: the expiry timeout
    moves to the second question; the first answer's timeout fires and
    queues its own call of [nextQuestion], captured at the first
    question; the second question is answered. *)
Definition lateAnswer : list TriviaRoom.Event :=
  timeUp ++ [click "A" "a1"; TriviaRoom.Timeout 0; TriviaRoom.Timeout 0;
             click "B" "a2"].

(** Two clicks on Start, the room update of the first one left awaited
    while the second one settles; then the three questions are answered,
    one after the other, and the game is over. *)
Definition lateStart : list TriviaRoom.Event :=
  [TriviaRoom.Loaded true true; TriviaRoom.PressStart;
   TriviaRoom.ClickStart true;
   click "A" "a1"; TriviaRoom.Timeout 0; TriviaRoom.Timeout 0;
   click "B" "a2"; TriviaRoom.Timeout 0; TriviaRoom.Timeout 0;
   click "C" "a3"; TriviaRoom.Timeout 0; TriviaRoom.Timeout 0].

Definition after (evs : list TriviaRoom.Event) : TriviaRoom.World :=
  match TriviaRoom.run alice quiz evs (TriviaRoom.init env0) with
  | Some w => w
  | None => TriviaRoom.init env0
  end.

End Demo.

(** The row [submitAnswer] takes for the current player: the first row
    of the [players] cell with the user's id. *)
Definition currentPlayerOf (user : User.t) (s : TriviaRoom.State)
  : option Player.t :=
  find (fun p => Js.eqb (Player.userId p) (User.id user))
       (TriviaRoom.players s).

(** Whether [submitAnswer] ends in its [catch] branch: the answer row is
    rejected, or the score update it goes on to make is. *)
Definition submitFails (okAnswer okScore correct : bool)
           (cp : option Player.t) : bool :=
  negb okAnswer
  || (correct && match cp with Some _ => true | None => false end
      && negb okScore).

(** The score update of a correct answer, when it is made and goes
    through. *)
Definition scoreUpdate (okAnswer okScore correct : bool)
           (cp : option Player.t) (d : Db) : Db :=
  match cp with
  | Some c =>
      if okAnswer && correct && okScore
      then db_players_update (Player.id c) (Player.score c + 100) d
      else d
  | None => d
  end.

(* ------------------------------------------------------------------ *)
(** ** More vocabulary: the question on screen, rounds of a game *)

(** The question on screen is the one at [questionIndex], or, the index
    being 0, some other loaded question. *)
Definition onScreen (s : TriviaRoom.State) : Prop :=
  TriviaRoom.currentQuestion s
  = nth_error (TriviaRoom.questions s) (TriviaRoom.questionIndex s)
  \/ (TriviaRoom.questionIndex s = 0
      /\ exists k, k < List.length (TriviaRoom.questions s)
                   /\ TriviaRoom.currentQuestion s
                      = nth_error (TriviaRoom.questions s) k).

(** The player list is in descending order, the question on screen is a
    loaded one as [onScreen] says, the index is 0 or within the questions,
    and it is 0 while waiting. *)
Definition Shown (w : TriviaRoom.World) : Prop :=
  let s := TriviaRoom.ui w in
  descending (TriviaRoom.players s)
  /\ onScreen s
  /\ (TriviaRoom.questionIndex s = 0
      \/ TriviaRoom.questionIndex s < List.length (TriviaRoom.questions s))
  /\ (TriviaRoom.gameStatus s = waiting -> TriviaRoom.questionIndex s = 0).

(** No [startGame] is awaited and the question on screen is the one at
    [questionIndex]. *)
Definition InStep (w : TriviaRoom.World) : Prop :=
  TriviaRoom.starting w = 0
  /\ TriviaRoom.currentQuestion (TriviaRoom.ui w)
     = nth_error (TriviaRoom.questions (TriviaRoom.ui w))
                 (TriviaRoom.questionIndex (TriviaRoom.ui w)).


(** What the mount effect loads from store [d], by outcome of the two
    list calls. *)
Definition loadedPlayers (room : Room.t) (okPlayers : bool) (d : Db)
  : list Player.t :=
  if okPlayers then db_players_list (Room.id room) d else [].

Definition loadedQuestions (okPlayers okQuestions : bool) (d : Db)
  : list Question.t :=
  if okPlayers && okQuestions then db_questions_list d else [].

(** The view while question [i] of [qs] is on screen and unanswered, with
    countdown [t], loaded players [ps], environment [e] and pending
    timeouts [p]. *)
Definition Counting (t : Z) (i : nat) (qs : list Question.t)
           (ps : list Player.t) (e : Env) (p : list TriviaRoom.Task)
           (w : TriviaRoom.World) : Prop :=
  let s := TriviaRoom.ui w in
  TriviaRoom.loading s = false
  /\ TriviaRoom.loadInFlight w = false
  /\ TriviaRoom.gameStatus s = playing
  /\ TriviaRoom.timeLeft s = t
  /\ TriviaRoom.hasAnswered s = false
  /\ TriviaRoom.questionIndex s = i
  /\ TriviaRoom.questions s = qs
  /\ TriviaRoom.currentQuestion s = nth_error qs i
  /\ TriviaRoom.players s = ps
  /\ descending ps
  /\ TriviaRoom.env w = e
  /\ TriviaRoom.pending w = p.

(** The start of question [i]: full countdown, no timeout pending. *)
Definition AtQuestion (i : nat) (qs : list Question.t) (ps : list Player.t)
           (e : Env) (w : TriviaRoom.World) : Prop :=
  Counting 15 i qs ps e [] w.

(** Question [i] is over: the one pending timeout is the call of
    [nextQuestion] captured at [i]. *)
Definition Closing (i : nat) (qs : list Question.t) (ps : list Player.t)
           (e : Env) (w : TriviaRoom.World) : Prop :=
  let s := TriviaRoom.ui w in
  TriviaRoom.loading s = false
  /\ TriviaRoom.loadInFlight w = false
  /\ TriviaRoom.gameStatus s = playing
  /\ TriviaRoom.questions s = qs
  /\ TriviaRoom.players s = ps
  /\ descending ps
  /\ TriviaRoom.env w = e
  /\ TriviaRoom.pending w = [TriviaRoom.Next i qs].

(** The game is over, with the loaded players [ps] and environment [e]. *)
Definition Over (ps : list Player.t) (e : Env) (w : TriviaRoom.World) : Prop :=
  TriviaRoom.loading (TriviaRoom.ui w) = false
  /\ TriviaRoom.gameStatus (TriviaRoom.ui w) = finished
  /\ TriviaRoom.players (TriviaRoom.ui w) = ps
  /\ TriviaRoom.env w = e.

(** The environment after [startGame] went through, the two list calls
    of the load having gone through before. *)
Definition startedEnv (room : Room.t) (e : Env) : Env :=
  mkEnv (db_rooms_update (Room.id room) playing 0 (db e))
        (calls e ++ [PlayersList (Room.id room); QuestionsList;
                     RoomsUpdate (Room.id room) playing 0])
        (toasts e ++ [mkToast (lit "Game Started!")
                              (lit "Good luck everyone!") default]).

(** The environment after an answer [k] to question [q], the store calls
    going through; [cp] is the current player's loaded row. *)
Definition answeredEnv (user : User.t) (room : Room.t)
           (cp : option Player.t) (e : Env) (q : Question.t)
           (k answerId : str) : Env :=
  let correct := Js.eqb k (Question.correctAnswer q) in
  let a := TriviaRoom.newAnswer user room answerId q k in
  mkEnv (scoreUpdate true true correct cp (db_gameAnswers_create a (db e)))
        (calls e
         ++ GameAnswersCreate a
            :: (if correct
                then match cp with
                     | Some c => [PlayersUpdate (Player.id c)
                                                (Player.score c + 100)]
                     | None => []
                     end
                else []))
        (toasts e).

(** A question nobody answers: fifteen ticks, then the expiry timeout. *)
Definition idleRound : list TriviaRoom.Event :=
  repeat TriviaRoom.Tick 15 ++ [TriviaRoom.Timeout 0].

(** A question answered at once: the click, then its two timeouts. *)
Definition answerRound (key answerId : str) : list TriviaRoom.Event :=
  [TriviaRoom.ClickAnswer key answerId true true;
   TriviaRoom.Timeout 0; TriviaRoom.Timeout 0].

(** Loading and starting, all calls going through. *)
Definition startUp : list TriviaRoom.Event :=
  [TriviaRoom.Loaded true true; TriviaRoom.ClickStart true].

(** The environment after the questions [qs] were answered in turn with
    the keys and row ids [kas]. *)
Fixpoint playedEnv (user : User.t) (room : Room.t) (cp : option Player.t)
         (e : Env) (qs : list Question.t) (kas : list (str * str)) : Env :=
  match qs, kas with
  | q :: qs', (k, a) :: kas' =>
      playedEnv user room cp (answeredEnv user room cp e q k a) qs' kas'
  | _, _ => e
  end.

(** Every question answered at once, with the given keys and row ids. *)
Definition promptGame (kas : list (str * str)) : list TriviaRoom.Event :=
  List.concat (map (fun ka => answerRound (fst ka) (snd ka)) kas).

Definition answerKeys : list str := [lit "A"; lit "B"; lit "C"; lit "D"].

(** The answer rows for questions [qs] answered with [kas]. *)
Definition recordedAnswers (user : User.t) (room : Room.t)
           (qs : list Question.t) (kas : list (str * str))
  : list GameAnswer.t :=
  map (fun qka => TriviaRoom.newAnswer user room (snd (snd qka)) (fst qka)
                    (fst (snd qka)))
      (combine qs kas).

(** Whether one of the answers [kas] to [qs] is the correct one. *)
Definition anyCorrect (qs : list Question.t) (kas : list (str * str)) : bool :=
  existsb (fun qka => Js.eqb (fst (snd qka))
                             (Question.correctAnswer (fst qka)))
          (combine qs kas).

(** The players table once the row of [cp] has been given its loaded
    score plus 100. *)
Definition scoredOnce (cp : option Player.t) (l : list Player.t)
  : list Player.t :=
  match cp with
  | Some c => map (updScore (Player.id c) (Player.score c + 100)) l
  | None => l
  end.

(* ================================================================== *)
(** * Properties *)

(* ------------------------------------------------------------------ *)
(** ** Strings *)

Lemma Js_eqb_refl (a : str) : Js.eqb a a = true.
Proof.
  induction a as [|x a IH]; simpl; [reflexivity|].
  now rewrite N.eqb_refl, IH.
Qed.

Lemma Js_eqb_eq (a b : str) : Js.eqb a b = true <-> a = b.
Proof.
  split; [|intros ->; apply Js_eqb_refl].
  revert b; induction a as [|x a IH]; intros [|y b]; simpl; try discriminate.
  - reflexivity.
  - intros H. apply andb_true_iff in H as [Hx Hab].
    apply N.eqb_eq in Hx. apply IH in Hab. now subst.
Qed.

Lemma trimStart_nil_iff (s : str) :
  Js.trimStart s = [] <-> forallb Js.isWhiteSpace s = true.
Proof.
  induction s as [|c s IH]; simpl; [tauto|].
  destruct (Js.isWhiteSpace c); simpl; [exact IH|].
  split; discriminate.
Qed.

Lemma trimStart_head (s : str) :
  match Js.trimStart s with
  | [] => True
  | c :: _ => Js.isWhiteSpace c = false
  end.
Proof.
  induction s as [|c s IH]; simpl; [exact I|].
  destruct (Js.isWhiteSpace c) eqn:E; [exact IH|exact E].
Qed.

Lemma forallb_rev {A} (f : A -> bool) (l : list A) :
  forallb f (rev l) = forallb f l.
Proof.
  induction l as [|x l IH]; simpl; [reflexivity|].
  rewrite forallb_app, IH. simpl. rewrite andb_true_r. apply andb_comm.
Qed.

(** [trim] leaves nothing exactly when every code unit is white space. *)
Lemma trim_blank (s : str) :
  Js.truthy (Js.trim s) = negb (forallb Js.isWhiteSpace s).
Proof.
  unfold Js.trim, Js.trimEnd.
  destruct (forallb Js.isWhiteSpace s) eqn:E.
  - apply trimStart_nil_iff in E. rewrite E. reflexivity.
  - simpl. pose proof (trimStart_head s) as Hh.
    destruct (Js.trimStart s) as [|c t] eqn:Et.
    + apply trimStart_nil_iff in Et. congruence.
    + destruct (Js.trimStart (rev (c :: t))) as [|d u] eqn:Er.
      * apply trimStart_nil_iff in Er. rewrite forallb_rev in Er.
        simpl in Er. rewrite Hh in Er. discriminate.
      * destruct (rev (d :: u)) eqn:Ev; [|reflexivity].
        apply (f_equal (@rev N)) in Ev. rewrite rev_involutive in Ev.
        discriminate.
Qed.

(* ------------------------------------------------------------------ *)
(** ** Sorting by score *)

Lemma insertBy_perm {A} (cmp : A -> A -> Z) (x : A) (l : list A) :
  Permutation (insertBy cmp x l) (x :: l).
Proof.
  induction l as [|y l IH]; simpl; [reflexivity|].
  destruct (cmp x y <=? 0)%Z; [reflexivity|].
  rewrite IH. apply perm_swap.
Qed.

Lemma sortBy_perm {A} (cmp : A -> A -> Z) (l : list A) :
  Permutation (sortBy cmp l) l.
Proof.
  induction l as [|x l IH]; simpl; [reflexivity|].
  rewrite insertBy_perm. now constructor.
Qed.

Lemma insertBy_descending (x : Player.t) (l : list Player.t) :
  descending l -> descending (insertBy byScoreDesc x l).
Proof.
  unfold descending.
  induction l as [|y l IH]; intros Hs; simpl.
  - constructor; constructor.
  - inversion Hs as [|? ? Hl Hy]; subst.
    unfold byScoreDesc at 1.
    destruct (Z.leb_spec (Player.score y - Player.score x) 0) as [Hle|Hgt].
    + constructor; [exact Hs|].
      constructor; [lia|].
      eapply Forall_impl; [|exact Hy]. simpl. intros; lia.
    + constructor; [apply IH; exact Hl|].
      eapply Permutation_Forall;
        [symmetry; apply insertBy_perm|].
      constructor; [lia|exact Hy].
Qed.

Lemma sortPlayers_descending (l : list Player.t) : descending (sortPlayers l).
Proof.
  unfold sortPlayers, sortBy.
  induction l as [|x l IH]; simpl; [constructor|].
  now apply insertBy_descending.
Qed.

Lemma sortPlayers_perm (l : list Player.t) : Permutation (sortPlayers l) l.
Proof. apply sortBy_perm. Qed.

(** A list already in descending order is left as it is: the in-place
    sort of the sidebar does not move the rows loaded with
    [orderBy: { score: 'desc' }]. *)
Lemma sortPlayers_fixed (l : list Player.t) : descending l -> sortPlayers l = l.
Proof.
  unfold sortPlayers, sortBy, descending.
  induction 1 as [|x l Hl IH Hx]; simpl; [reflexivity|].
  rewrite IH. destruct l as [|y l']; [reflexivity|]. simpl.
  inversion Hx; subst. unfold byScoreDesc.
  destruct (Z.leb_spec (Player.score y - Player.score x) 0); [reflexivity|lia].
Qed.

(* ------------------------------------------------------------------ *)
(** ** The lobby *)

Ltac eff_unfold :=
  cbv [exec bind ret throw modify gets tryCatch tryFinally overEnv toast
       request issue settle getEnv setEnv].

Ltac lobby_unfold :=
  cbv [GameLobby.createRoom GameLobby.joinRoom GameLobby.setCreating
       GameLobby.setJoining GameLobby.setNewRoomName
       GameLobby.setShowCreateForm GameLobby.onJoinRoom
       GameLobby.World_HasEnv];
  eff_unfold.

Ltac lobby_run := lobby_unfold; cbn.

Section LobbyFacts.
Import GameLobby.
Variable user : User.t.

Lemma memberRows_In (roomId userId : str) (d : Db) (p : Player.t) :
  In p (tbl_players d) -> Player.roomId p = roomId -> Player.userId p = userId ->
  memberRows roomId userId d <> [].
Proof.
  intros Hin Hr Hu Hnil.
  assert (Hp : In p (memberRows roomId userId d)).
  { unfold memberRows. apply filter_In. split; [exact Hin|].
    subst. now rewrite !Js_eqb_refl. }
  rewrite Hnil in Hp. exact Hp.
Qed.

(** A join that finds a row of the user in the room inserts nothing. *)
Lemma joinRoom_member (room : Room.t) (playerId : str) (okFind okCreate : bool)
      (w : World) :
  memberRows (Room.id room) (User.id user) (db (env w)) <> [] ->
  let w' := exec (joinRoom user room playerId okFind okCreate) w in
  db (env w') = db (env w)
  /\ calls (env w') = calls (env w) ++ [PlayersFind (Room.id room) (User.id user)].
Proof.
  intros Hm. destruct w as [[d c t] rl cr jn nm sf cur].
  unfold memberRows in Hm. simpl in Hm.
  unfold db_players_find.
  destruct okFind; lobby_run.
  - unfold db_players_find. cbn.
    destruct (filter _ (tbl_players d)) as [|p l]; [congruence|].
    cbn. split; reflexivity.
  - split; reflexivity.
Qed.

(** After a join whose two calls went through, the user has a row. *)
Lemma joinRoom_joins (room : Room.t) (playerId : str) (w : World) :
  memberRows (Room.id room) (User.id user)
    (db (env (exec (joinRoom user room playerId true true) w))) <> [].
Proof.
  destruct w as [[d c t] rl cr jn nm sf cur].
  lobby_run. unfold db_players_find, memberRows. cbn.
  destruct (filter _ (tbl_players d)) as [|p l] eqn:E; cbn.
  - rewrite filter_app. cbn. rewrite !Js_eqb_refl. cbn.
    intros H. apply app_eq_nil in H as [_ H]. discriminate.
  - rewrite E. discriminate.
Qed.

End LobbyFacts.

(** C8.  Joining is idempotent on membership: when the store already holds
    a player row for the room and the user, [joinRoom] only looks it up and
    writes nothing, whatever the outcome of its calls; hence a second join
    after a completed one leaves the player rows as the first left them. *)
Theorem C8_joinRoom_idempotent
  (user : User.t) (room : Room.t) (w : GameLobby.World) (p : Player.t)
  (playerId : str) (okFind okCreate : bool) :
  In p (tbl_players (db (GameLobby.env w))) ->
  Player.roomId p = Room.id room ->
  Player.userId p = User.id user ->
  let w' := exec (GameLobby.joinRoom user room playerId okFind okCreate) w in
  db (GameLobby.env w') = db (GameLobby.env w)
  /\ calls (GameLobby.env w')
     = calls (GameLobby.env w) ++ [PlayersFind (Room.id room) (User.id user)]
  /\ forall (v : GameLobby.World) (id1 id2 : str),
       let once := exec (GameLobby.joinRoom user room id1 true true) v in
       let twice :=
         exec (GameLobby.joinRoom user room id2 okFind okCreate) once in
       tbl_players (db (GameLobby.env twice))
       = tbl_players (db (GameLobby.env once)).
Proof.
  intros Hin Hr Hu w'.
  pose proof (memberRows_In _ _ _ _ Hin Hr Hu) as Hm.
  destruct (joinRoom_member user room playerId okFind okCreate w Hm) as [Hd Hc].
  repeat split; [exact Hd|exact Hc|].
  intros v id1 id2 once twice.
  pose proof (joinRoom_joins user room id1 v) as Hm'.
  destruct (joinRoom_member user room id2 okFind okCreate _ Hm') as [Hd' _].
  unfold twice, once. now rewrite Hd'.
Qed.

Lemma C8_joinRoom_idempotent_witness :
  let w := Demo.lobby [] in
  let w' := exec (GameLobby.joinRoom Demo.bob Demo.quiz (lit "p9") true true) w in
  db (GameLobby.env w') = Demo.store
  /\ calls (GameLobby.env w') = [PlayersFind (lit "r1") (lit "u2")].
Proof.
  destruct (C8_joinRoom_idempotent Demo.bob Demo.quiz (Demo.lobby [])
              Demo.row2 (lit "p9") true true) as [Hd [Hc _]].
  - simpl. right. left. reflexivity.
  - reflexivity.
  - reflexivity.
  - split; [exact Hd|exact Hc].
Defined.

(** C9.  With a room name that is empty or made of white space only,
    [createRoom] issues no call on the store: it adds the error toast and
    returns.  Otherwise it asks for a room with status [waiting] and
    question index 0; when that call goes through the room is stored and a
    player row of the creator with score 0 is requested, and stored when
    that second call goes through. *)
Theorem C9_createRoom
  (user : User.t) (roomId playerId : str) (okRoom okPlayer : bool)
  (w : GameLobby.World) :
  let w' := exec (GameLobby.createRoom user roomId playerId okRoom okPlayer) w in
  let r := GameLobby.newRoom user roomId (Js.trim (GameLobby.newRoomName w)) in
  let p := GameLobby.newPlayer user playerId roomId in
  (forallb Js.isWhiteSpace (GameLobby.newRoomName w) = true ->
     db (GameLobby.env w') = db (GameLobby.env w)
     /\ calls (GameLobby.env w') = calls (GameLobby.env w)
     /\ toasts (GameLobby.env w')
        = toasts (GameLobby.env w) ++ [errorToast "Please enter a room name"]
     /\ GameLobby.currentRoom w' = GameLobby.currentRoom w)
  /\ (forallb Js.isWhiteSpace (GameLobby.newRoomName w) = false ->
        Room.status r = waiting /\ Room.currentQuestionIndex r = 0
        /\ Room.hostUserId r = User.id user
        /\ Player.userId p = User.id user /\ Player.roomId p = Room.id r
        /\ Player.score p = 0%Z
        /\ calls (GameLobby.env w')
           = calls (GameLobby.env w)
             ++ RoomsCreate r :: (if okRoom then [PlayersCreate p] else [])
        /\ tbl_rooms (db (GameLobby.env w'))
           = tbl_rooms (db (GameLobby.env w)) ++ (if okRoom then [r] else [])
        /\ tbl_players (db (GameLobby.env w'))
           = tbl_players (db (GameLobby.env w))
             ++ (if okRoom && okPlayer then [p] else [])).
Proof.
  destruct w as [[d c t] rl cr jn nm sf cur]. cbn zeta.
  split; intros Hb; cbn [GameLobby.newRoomName] in Hb.
  - lobby_unfold. cbn [GameLobby.newRoomName]. rewrite trim_blank, Hb.
    cbn. repeat split.
  - lobby_unfold. cbn [GameLobby.newRoomName]. rewrite trim_blank, Hb. cbn.
    destruct okRoom, okPlayer; cbn;
      rewrite <- ?app_assoc, ?app_nil_r; repeat split.
Qed.

Lemma C9_createRoom_witness :
  calls (GameLobby.env
           (exec (GameLobby.createRoom Demo.alice (lit "r2") (lit "p3") true true)
                 (Demo.lobby (lit "  ")))) = []
  /\ tbl_players (db (GameLobby.env
           (exec (GameLobby.createRoom Demo.alice (lit "r2") (lit "p3") true true)
                 (Demo.lobby (lit " Fun ")))))
     = [Demo.row1; Demo.row2;
        Player.mk (lit "p3") (lit "r2") (lit "u1") (lit "alice") 0].
Proof.
  split.
  - destruct (C9_createRoom Demo.alice (lit "r2") (lit "p3") true true
                (Demo.lobby (lit "  "))) as [Hblank _].
    destruct Hblank as [_ [Hc _]]; [reflexivity|exact Hc].
  - destruct (C9_createRoom Demo.alice (lit "r2") (lit "p3") true true
                (Demo.lobby (lit " Fun "))) as [_ Hname].
    destruct Hname as [_ [_ [_ [_ [_ [_ [_ [_ Hp]]]]]]]]; [reflexivity|exact Hp].
Defined.

(* ------------------------------------------------------------------ *)
(** ** The room view: what is rendered *)

Section RenderFacts.
Import TriviaRoom.
Variable user : User.t.
Variable room : Room.t.

Lemma isHost_iff : isHost user room = true <-> User.id user = Room.hostUserId room.
Proof.
  unfold isHost. rewrite Js_eqb_eq. split; intros H; now rewrite H.
Qed.

Lemma offers_In (s : State) (a : Action) :
  offers user room s a = true -> In a (offered (render user room s)).
Proof.
  unfold offers. intros H. apply existsb_exists in H as [b [Hb Hab]].
  replace a with b; [exact Hb|].
  destruct a, b; simpl in Hab; try discriminate; try reflexivity;
    apply Js_eqb_eq in Hab; now subst.
Qed.

(** [Start Game] is on the screen only in the waiting view of the host. *)
Lemma StartGame_offered (s : State) :
  In StartGame (offered (render user room s)) <->
  loading s = false /\ gameStatus s = waiting /\ isHost user room = true.
Proof.
  unfold render.
  destruct (loading s); [simpl; intuition discriminate|].
  destruct (gameStatus s); simpl.
  - destruct (isHost user room); simpl; intuition discriminate.
  - split; [|intuition discriminate].
    intros [H|H]; [discriminate|].
    apply in_app_iff in H as [H|H].
    + apply in_map_iff in H as [x [Hx _]]. discriminate.
    + simpl in H. intuition discriminate.
  - intuition discriminate.
Qed.

Lemma offers_StartGame (s : State) :
  offers user room s StartGame = true ->
  loading s = false /\ gameStatus s = waiting /\ isHost user room = true.
Proof. intros H. now apply StartGame_offered, offers_In. Qed.

(** Answer buttons are enabled only while playing, with a question on
    screen and no answer given. *)
Lemma offers_SubmitAnswer (s : State) (k : str) :
  offers user room s (SubmitAnswer k) = true ->
  loading s = false /\ gameStatus s = playing /\ hasAnswered s = false
  /\ exists q, currentQuestion s = Some q.
Proof.
  intros H. apply offers_In in H. revert H. unfold render.
  destruct (loading s); [simpl; tauto|].
  destruct (gameStatus s); simpl.
  - destruct (isHost user room); simpl; intuition discriminate.
  - intros [H|H]; [discriminate|].
    apply in_app_iff in H as [H|H]; [|simpl in H; intuition discriminate].
    apply in_map_iff in H as [x [Hx Hin]].
    apply filter_In in Hin as [Hin Hd]. unfold optionButtons in Hin.
    destruct (currentQuestion s) as [q|]; [|destruct Hin].
    repeat split; [|now exists q].
    simpl in Hin.
    destruct Hin as [<-|[<-|[<-|[<-|[]]]]]; simpl in Hd;
      now destruct (hasAnswered s).
  - intuition discriminate.
Qed.

Lemma offers_SendReaction (s : State) (e : str) :
  offers user room s (SendReaction e) = true ->
  loading s = false /\ gameStatus s = playing.
Proof.
  intros H. apply offers_In in H. revert H. unfold render.
  destruct (loading s); [simpl; tauto|].
  destruct (gameStatus s); simpl.
  - destruct (isHost user room); simpl; intuition discriminate.
  - tauto.
  - intuition discriminate.
Qed.

End RenderFacts.

(** C5.  In the waiting view the Start Game button is rendered exactly
    when the user's id is the room's [hostUserId]; for any other user no
    screen offers it, and a click on it is not an event of the component,
    whether its call would settle at once or be left awaited. *)
Theorem C5_only_host_starts
  (user : User.t) (room : Room.t) (s : TriviaRoom.State) :
  (TriviaRoom.loading s = false -> TriviaRoom.gameStatus s = waiting ->
     (In TriviaRoom.StartGame
         (TriviaRoom.offered (TriviaRoom.render user room s))
      <-> User.id user = Room.hostUserId room))
  /\ (User.id user <> Room.hostUserId room ->
        ~ In TriviaRoom.StartGame
             (TriviaRoom.offered (TriviaRoom.render user room s))
        /\ (forall (w : TriviaRoom.World) (ok : bool),
              TriviaRoom.step user room (TriviaRoom.ClickStart ok) w = None)
        /\ (forall w : TriviaRoom.World,
              TriviaRoom.step user room TriviaRoom.PressStart w = None)).
Proof.
  split.
  - intros Hl Hw. rewrite StartGame_offered, isHost_iff. tauto.
  - intros Hn.
    assert (Hoff : forall w : TriviaRoom.World,
               TriviaRoom.offers user room (TriviaRoom.ui w)
                 TriviaRoom.StartGame = false).
    { intros w.
      destruct (TriviaRoom.offers user room (TriviaRoom.ui w)
                  TriviaRoom.StartGame) eqn:E; [|reflexivity].
      apply offers_StartGame in E as [_ [_ E]].
      apply isHost_iff in E. contradiction. }
    split; [|split].
    + rewrite StartGame_offered, isHost_iff. tauto.
    + intros w ok. unfold TriviaRoom.step. now rewrite Hoff.
    + intros w. unfold TriviaRoom.step. now rewrite Hoff.
Qed.

Lemma C5_only_host_starts_witness :
  In TriviaRoom.StartGame
     (TriviaRoom.offered
        (TriviaRoom.render Demo.alice Demo.quiz
           (TriviaRoom.mkState [] [] None waiting 15 None false false 0 false)))
  /\ ~ In TriviaRoom.StartGame
         (TriviaRoom.offered
            (TriviaRoom.render Demo.bob Demo.quiz
               (TriviaRoom.mkState [] [] None waiting 15 None false false 0 false))).
Proof.
  split.
  - apply (C5_only_host_starts Demo.alice Demo.quiz
             (TriviaRoom.mkState [] [] None waiting 15 None false false 0 false));
      reflexivity.
  - apply (C5_only_host_starts Demo.bob Demo.quiz
             (TriviaRoom.mkState [] [] None waiting 15 None false false 0 false)).
    discriminate.
Defined.

(** C7.  The finished screen shows every loaded player once, in
    descending order of score; the winner on the podium is the first row
    of that list, so no loaded player has a higher score, and the name
    and points shown are the winner's ([Champion] stands in for an empty
    name). *)
Theorem C7_leaderboard
  (user : User.t) (room : Room.t) (s : TriviaRoom.State) :
  TriviaRoom.loading s = false -> TriviaRoom.gameStatus s = finished ->
  exists winner name points board,
    TriviaRoom.render user room s
    = TriviaRoom.FinishedScreen winner name points board
    /\ Permutation board (TriviaRoom.players s)
    /\ descending board
    /\ winner = hd_error board
    /\ (TriviaRoom.players s <> [] -> winner <> None)
    /\ forall p, winner = Some p ->
         In p (TriviaRoom.players s)
         /\ name = Js.or (Player.displayName p) (lit "Champion")
         /\ points = Player.score p
         /\ forall p', In p' (TriviaRoom.players s) ->
              (Player.score p' <= Player.score p)%Z.
Proof.
  intros Hl Hf. unfold TriviaRoom.render. rewrite Hl, Hf. cbn.
  pose proof (sortPlayers_perm (TriviaRoom.players s)) as Hp.
  pose proof (sortPlayers_descending (TriviaRoom.players s)) as Hd.
  do 4 eexists. split; [reflexivity|].
  split; [exact Hp|]. split; [exact Hd|].
  destruct (sortPlayers (TriviaRoom.players s)) as [|x l] eqn:E; cbn.
  - split; [reflexivity|]. split; [|discriminate].
    intros Hne. apply Permutation_nil in Hp. contradiction.
  - split; [reflexivity|]. split; [discriminate|].
    intros p [= <-]. split; [|split; [reflexivity|split; [reflexivity|]]].
    + eapply Permutation_in; [exact Hp|now left].
    + intros p' Hin. apply Permutation_sym in Hp.
      eapply Permutation_in in Hin; [|exact Hp].
      destruct Hin as [<-|Hin]; [lia|].
      inversion Hd as [|? ? _ Hall]; subst.
      rewrite Forall_forall in Hall. now apply Hall.
Qed.

Lemma C7_leaderboard_witness :
  exists name board,
    TriviaRoom.render Demo.alice Demo.quiz
      (TriviaRoom.mkState
         [Demo.row1; Player.mk (lit "p2") (lit "r1") (lit "u2") (lit "Bob") 300]
         [] None finished 0 None false false 0 false)
    = TriviaRoom.FinishedScreen
        (Some (Player.mk (lit "p2") (lit "r1") (lit "u2") (lit "Bob") 300))
        name 300 board.
Proof.
  destruct (C7_leaderboard Demo.alice Demo.quiz
              (TriviaRoom.mkState
                 [Demo.row1;
                  Player.mk (lit "p2") (lit "r1") (lit "u2") (lit "Bob") 300]
                 [] None finished 0 None false false 0 false)
              eq_refl eq_refl)
    as [winner [name [points [board [Hr _]]]]].
  exists name, board. rewrite Hr. vm_compute in Hr.
  now inversion Hr.
Defined.

(* ------------------------------------------------------------------ *)
(** ** The room view: handlers *)

Ltac room_unfold :=
  cbv [TriviaRoom.commit TriviaRoom.timerEffect TriviaRoom.renderMutation
       TriviaRoom.nextQuestion TriviaRoom.tick TriviaRoom.startGame
       TriviaRoom.submitAnswer TriviaRoom.sendReaction TriviaRoom.runTask
       TriviaRoom.loadGameData TriviaRoom.takeTask TriviaRoom.setDb
       TriviaRoom.loadSettled TriviaRoom.schedule TriviaRoom.overUi
       TriviaRoom.submitAnswerOf TriviaRoom.startGameCall
       TriviaRoom.startGameResume TriviaRoom.startCalled
       TriviaRoom.startSettled
       TriviaRoom.setPlayers TriviaRoom.setQuestions
       TriviaRoom.setCurrentQuestion TriviaRoom.setGameStatus
       TriviaRoom.setTimeLeft TriviaRoom.setSelectedAnswer
       TriviaRoom.setHasAnswered TriviaRoom.setShowResults
       TriviaRoom.setQuestionIndex TriviaRoom.setLoading
       TriviaRoom.World_HasEnv];
  eff_unfold.

Ltac room_proj :=
  cbn [fst snd TriviaRoom.env TriviaRoom.ui TriviaRoom.pending
       TriviaRoom.loadInFlight TriviaRoom.starting TriviaRoom.players TriviaRoom.questions
       TriviaRoom.currentQuestion TriviaRoom.gameStatus TriviaRoom.timeLeft
       TriviaRoom.selectedAnswer TriviaRoom.hasAnswered
       TriviaRoom.showResults TriviaRoom.questionIndex TriviaRoom.loading
       db calls toasts].

Ltac room_run := room_unfold; room_proj.

(** Case analysis on the tests met while running a handler. *)
Ltac room_cases :=
  repeat (room_proj;
          match goal with
          | |- context [if ?c then _ else _] => destruct c eqn:?
          end);
  room_proj.

Section HandlerFacts.
Import TriviaRoom.
Variable user : User.t.
Variable room : Room.t.

Lemma sameGame_refl (s : State) : sameGame s s.
Proof. repeat split. Qed.

(** What a commit adds to the handler it wraps: the timer effect may set
    [showResults] and queue one [Next]; rendering may reorder [players]. *)
Lemma commit_run (reloaded : bool) (h : Eff World unit) (w w1 : World) :
  h w = (w1, Some tt) ->
  let w' := exec (commit reloaded h) w in
  env w' = env w1
  /\ loadInFlight w' = loadInFlight w1
  /\ sameGame (ui w1) (ui w')
  /\ pending w'
     = pending w1
       ++ expiryTasks (reloaded || depsChanged (ui w) (ui w1)) (ui w1).
Proof.
  intros Hh. room_unfold. rewrite Hh.
  destruct w1 as [e1 s1 p1 l1 sg1]. unfold expiryTasks.
  room_cases; try discriminate; rewrite ?app_nil_r; repeat split;
    cbn in *; congruence.
Qed.

Lemma commit_starting (reloaded : bool) (h : Eff World unit) (w w1 : World) :
  h w = (w1, Some tt) ->
  starting (exec (commit reloaded h) w) = starting w1.
Proof.
  intros Hh. room_unfold. rewrite Hh.
  destruct w1 as [e1 s1 p1 l1 sg1].
  room_cases; reflexivity.
Qed.

Lemma depsChanged_same (a b : State) :
  sameGame a b -> depsChanged a b = false.
Proof.
  intros (_ & _ & Hs & Ht & _ & Hh & Hi & _). unfold depsChanged.
  rewrite Hs, Ht, Hh, Hi, Z.eqb_refl, Nat.eqb_refl.
  now destruct (gameStatus b), (hasAnswered b).
Qed.

Lemma expiryTasks_none (s : State) : expiryTasks false s = [].
Proof. reflexivity. Qed.

Lemma expiryTasks_cases (ran : bool) (s : State) :
  expiryTasks ran s = []
  \/ (expiryTasks ran s = [Next (questionIndex s) (questions s)]
      /\ timeLeft s = 0%Z /\ hasAnswered s = false).
Proof.
  unfold expiryTasks.
  destruct ran, (ticking s), (timeLeft s =? 0)%Z eqn:Et, (hasAnswered s);
    cbn; auto.
  right. apply Z.eqb_eq in Et. auto.
Qed.

(** *** [startGame] *)

Lemma startGame_fail (w : World) :
  startGame room false w
  = (mk (mkEnv (db (env w))
               (calls (env w) ++ [RoomsUpdate (Room.id room) playing 0])
               (toasts (env w) ++ [errorToast "Failed to start game"]))
        (ui w) (pending w) (loadInFlight w) (starting w), Some tt).
Proof. destruct w as [[d c t] s p l sg]. reflexivity. Qed.

Lemma startGame_ok (w : World) :
  startGame room true w
  = (mk (mkEnv (db_rooms_update (Room.id room) playing 0 (db (env w)))
               (calls (env w) ++ [RoomsUpdate (Room.id room) playing 0])
               (toasts (env w)
                ++ [mkToast (lit "Game Started!") (lit "Good luck everyone!")
                            default]))
        (mkState (players (ui w)) (questions (ui w)) (currentQuestion (ui w))
                 playing 15 (selectedAnswer (ui w)) (hasAnswered (ui w))
                 (showResults (ui w)) 0 (loading (ui w)))
        (pending w) (loadInFlight w) (starting w), Some tt).
Proof. destruct w as [[d c t] s p l sg]. reflexivity. Qed.

(** [startGame] in two steps: the call, then its continuation. *)
Lemma startGameCall_run (w : World) :
  startGameCall room w
  = (mk (mkEnv (db (env w))
               (calls (env w) ++ [RoomsUpdate (Room.id room) playing 0])
               (toasts (env w)))
        (ui w) (pending w) (loadInFlight w) (S (starting w)), Some tt).
Proof. destruct w as [[d c t] s p l sg]. reflexivity. Qed.

Lemma startGameResume_fail (w : World) :
  startGameResume room false w
  = (mk (mkEnv (db (env w)) (calls (env w))
               (toasts (env w) ++ [errorToast "Failed to start game"]))
        (ui w) (pending w) (loadInFlight w) (Nat.pred (starting w)), Some tt).
Proof. destruct w as [[d c t] s p l sg]. reflexivity. Qed.

Lemma startGameResume_ok (w : World) :
  startGameResume room true w
  = (mk (mkEnv (db_rooms_update (Room.id room) playing 0 (db (env w)))
               (calls (env w))
               (toasts (env w)
                ++ [mkToast (lit "Game Started!") (lit "Good luck everyone!")
                            default]))
        (mkState (players (ui w)) (questions (ui w)) (currentQuestion (ui w))
                 playing 15 (selectedAnswer (ui w)) (hasAnswered (ui w))
                 (showResults (ui w)) 0 (loading (ui w)))
        (pending w) (loadInFlight w) (Nat.pred (starting w)), Some tt).
Proof. destruct w as [[d c t] s p l sg]. reflexivity. Qed.

(** A click on Start whose call settles at once is the call followed by
    its continuation. *)
Lemma startGame_split (ok : bool) (w : World) :
  startGame room ok w
  = (startGameCall room ;; startGameResume room ok) w.
Proof. destruct w as [[d c t] s p l sg]. destruct ok; reflexivity. Qed.

(** *** [submitAnswer] *)

Lemma submitAnswer_refused (answer answerId : str) (okAnswer okScore : bool)
      (w : World) :
  hasAnswered (ui w) = true \/ currentQuestion (ui w) = None ->
  submitAnswer user room answer answerId okAnswer okScore w = (w, Some tt).
Proof.
  destruct w as [e s p l sg]. cbn [ui]. intros H. room_run.
  destruct (currentQuestion s); [|reflexivity].
  destruct (hasAnswered s); [reflexivity|].
  destruct H; discriminate.
Qed.

Lemma submitAnswer_accepted (answer answerId : str) (okAnswer okScore : bool)
      (w : World) (q : Question.t) :
  hasAnswered (ui w) = false -> currentQuestion (ui w) = Some q ->
  exists w1,
    submitAnswer user room answer answerId okAnswer okScore w = (w1, Some tt)
    /\ ui w1 = mkState (players (ui w)) (questions (ui w))
                       (currentQuestion (ui w)) (gameStatus (ui w))
                       (timeLeft (ui w)) (Some answer) true
                       (showResults (ui w)) (questionIndex (ui w))
                       (loading (ui w))
    /\ loadInFlight w1 = loadInFlight w
    /\ (pending w1 = pending w
        \/ pending w1
           = pending w ++ [ShowThenNext (questionIndex (ui w))
                                        (questions (ui w))])
    /\ (exists rest,
          calls (env w1)
          = calls (env w)
            ++ GameAnswersCreate (newAnswer user room answerId q answer)
               :: rest)
    /\ tbl_gameAnswers (db (env w1))
       = tbl_gameAnswers (db (env w))
         ++ (if okAnswer then [newAnswer user room answerId q answer] else []).
Proof.
  destruct w as [[d c t] s p l sg]. cbn [ui]. intros Hh Hq. room_run.
  rewrite Hq, Hh. unfold newAnswer.
  destruct okAnswer; room_proj;
    [destruct (Js.eqb answer (Question.correctAnswer q)); room_proj;
     [destruct (find _ (players s)) as [cp|]; room_proj;
      [destruct okScore; room_proj|]|]|];
    (eexists; split; [reflexivity|]; room_proj;
     repeat match goal with |- _ /\ _ => split end;
     rewrite ?app_nil_r;
     first [ reflexivity
           | rewrite Hq; reflexivity
           | right; reflexivity
           | left; reflexivity
           | eexists; rewrite <- ?app_assoc; reflexivity ]).
Qed.

Lemma submitAnswer_starting (answer answerId : str) (okAnswer okScore : bool)
      (w w1 : World) :
  submitAnswer user room answer answerId okAnswer okScore w = (w1, Some tt) ->
  starting w1 = starting w.
Proof.
  intros H.
  assert (Hs : starting
                 (fst (submitAnswer user room answer answerId
                         okAnswer okScore w)) = starting w).
  { destruct w as [[d c t] s p l sg]. room_run.
    destruct (currentQuestion s) as [q|]; [|reflexivity].
    destruct (hasAnswered s); [reflexivity|].
    destruct okAnswer; room_proj; [|reflexivity].
    destruct (Js.eqb answer (Question.correctAnswer q)); room_proj;
      [|reflexivity].
    destruct (find _ (players s)) as [cp|]; room_proj; [|reflexivity].
    destruct okScore; reflexivity. }
  rewrite H in Hs. exact Hs.
Qed.

(** *** Timer and timeouts *)

Lemma tick_run (w : World) :
  tick w
  = (mk (env w)
        (mkState (players (ui w)) (questions (ui w)) (currentQuestion (ui w))
                 (gameStatus (ui w)) (timeLeft (ui w) - 1)
                 (selectedAnswer (ui w)) (hasAnswered (ui w))
                 (showResults (ui w)) (questionIndex (ui w)) (loading (ui w)))
        (pending w) (loadInFlight w) (starting w), Some tt).
Proof. reflexivity. Qed.

Lemma nextQuestion_finish (qi : nat) (qs : list Question.t) (w : World) :
  List.length qs <= qi + 1 ->
  nextQuestion qi qs w
  = (mk (env w)
        (mkState (players (ui w)) (questions (ui w)) (currentQuestion (ui w))
                 finished (timeLeft (ui w)) (selectedAnswer (ui w))
                 (hasAnswered (ui w)) (showResults (ui w))
                 (questionIndex (ui w)) (loading (ui w)))
        (pending w) (loadInFlight w) (starting w), Some tt).
Proof.
  intros H. unfold nextQuestion.
  apply Nat.leb_le in H. rewrite H. reflexivity.
Qed.

Lemma nextQuestion_advance (qi : nat) (qs : list Question.t) (w : World) :
  qi + 1 < List.length qs ->
  nextQuestion qi qs w
  = (mk (env w)
        (mkState (players (ui w)) (questions (ui w)) (nth_error qs (qi + 1))
                 (gameStatus (ui w)) 15 None false false (qi + 1)
                 (loading (ui w)))
        (pending w) (loadInFlight w) (starting w), Some tt).
Proof.
  intros H. unfold nextQuestion.
  apply Nat.leb_gt in H. rewrite H. reflexivity.
Qed.

Lemma sendReaction_run (emoji : str) (ok : bool) (w : World) :
  exists e, sendReaction user room emoji ok w
            = (mk e (ui w) (pending w) (loadInFlight w) (starting w), Some tt)
            /\ db e = db (env w).
Proof.
  destruct w as [[d c t] s p l sg]. destruct ok; eexists; split; reflexivity.
Qed.

(** *** [loadGameData], from the initial state *)

Lemma loadGameData_run (okP okQ : bool) (e : Env) :
  exists w1,
    loadGameData room okP okQ (mk e initState [] false 0) = (w1, Some tt)
    /\ pending w1 = [] /\ loadInFlight w1 = false
    /\ gameStatus (ui w1) = waiting /\ timeLeft (ui w1) = 15%Z
    /\ db (env w1) = db e /\ starting w1 = 0.
Proof.
  destruct e as [d c t].
  destruct okP, okQ; room_run; try (eexists; repeat split; fail).
  destruct (0 <? List.length (db_questions_list d)); room_proj;
    eexists; repeat split.
Qed.

(** *** The invariant *)

Lemma Inv_init (e : Env) : Inv (init e).
Proof.
  repeat split; cbn; try lia; try constructor.
Qed.

Lemma Inv_loaded (w : World) :
  Inv w -> loading (ui w) = false -> loadInFlight w = false.
Proof.
  intros [H1 _] Hl. destruct (loadInFlight w); [|reflexivity].
  destruct (H1 eq_refl) as [Hs _]. rewrite Hs in Hl. discriminate.
Qed.

Lemma Inv_not_waiting (w : World) (n : nat) (t : Task) :
  Inv w -> nth_error (pending w) n = Some t ->
  gameStatus (ui w) <> waiting /\ loadInFlight w = false.
Proof.
  intros (H1 & H2 & _) Hn. split.
  - intros Hw. destruct (H2 Hw) as [Hp _]. rewrite Hp in Hn.
    now destruct n.
  - destruct (loadInFlight w); [|reflexivity].
    destruct (H1 eq_refl) as [_ Hp]. rewrite Hp in Hn. now destruct n.
Qed.

Lemma In_dropNth {A} (n : nat) (l : list A) (x : A) :
  In x (dropNth n l) -> In x l.
Proof.
  unfold dropNth. intros H. apply in_app_iff in H as [H|H].
  - rewrite <- (firstn_skipn n l). apply in_app_iff. now left.
  - rewrite <- (firstn_skipn (S n) l). apply in_app_iff. now right.
Qed.

(** A commit keeps the invariant of the state its handler produced. *)
Lemma commit_Inv (reloaded : bool) (h : Eff World unit) (w w1 : World) :
  h w = (w1, Some tt) -> loadInFlight w1 = false -> Inv w1 ->
  Inv (exec (commit reloaded h) w).
Proof.
  intros Hh Hl (_ & H2 & H3 & H4 & H5).
  destruct (commit_run reloaded h w w1 Hh) as (_ & Hl' & Hg & Hp).
  pose proof (commit_starting reloaded h w w1 Hh) as Hsg.
  destruct Hg as (Hq & _ & Hs & Ht & _ & Hha & Hi & Hld).
  split; [intros Hc; rewrite Hl', Hl in Hc; discriminate|].
  split; [|split; [|split]];
    [| | |intros Hc; rewrite Hsg; apply H5; congruence].
  - intros Hw. rewrite <- Hs in Hw. destruct (H2 Hw) as [Hp0 Ht15].
    rewrite Hp, Hp0, <- Ht. split; [|exact Ht15].
    destruct (expiryTasks_cases (reloaded || depsChanged (ui w) (ui w1))
                (ui w1)) as [->|(_ & Hz & _)]; [reflexivity|].
    rewrite Ht15 in Hz. discriminate.
  - rewrite <- Ht. exact H3.
  - rewrite Hp, <- Hq. apply Forall_app. split; [exact H4|].
    destruct (expiryTasks_cases (reloaded || depsChanged (ui w) (ui w1))
                (ui w1)) as [->|(-> & _)]; [constructor|].
    constructor; [reflexivity|constructor].
Qed.

Lemma commit_status (reloaded : bool) (h : Eff World unit) (w w1 : World) :
  h w = (w1, Some tt) ->
  gameStatus (ui (exec (commit reloaded h) w)) = gameStatus (ui w1).
Proof.
  intros Hh. destruct (commit_run reloaded h w w1 Hh) as (_ & _ & Hg & _).
  symmetry. apply Hg.
Qed.

Lemma Inv_intro (w : World) :
  loadInFlight w = false ->
  (gameStatus (ui w) = waiting -> pending w = [] /\ timeLeft (ui w) = 15%Z) ->
  (0 <= timeLeft (ui w) <= 15)%Z ->
  Forall (fun t => taskQuestions t = questions (ui w)) (pending w) ->
  (loading (ui w) = true -> starting w = 0) ->
  Inv w.
Proof.
  intros Hl H2 H3 H4 H5. split; [|auto].
  intros Hc. rewrite Hl in Hc. discriminate.
Qed.

Ltac inv_fields :=
  cbn [ui pending loadInFlight starting gameStatus timeLeft questions env
       loading].

(** Every event keeps the invariant and moves the status along
    [statusMove]. *)
Lemma step_Inv (ev : Event) (w w' : World) :
  Inv w -> step user room ev w = Some w' -> Inv w' /\ statusMove ev w w'.
Proof.
  intros HI Hstep. pose proof HI as (H1 & H2 & H3 & H4 & H5).
  destruct ev as [okP okQ|ok|k aid okA okS|e ok| |n|d| |ok'];
    cbn [step] in Hstep.
  - (* Loaded *)
    destruct (loadInFlight w) eqn:El; [|discriminate].
    injection Hstep as <-.
    destruct (H1 eq_refl) as [Hs Hp].
    assert (Hsg : starting w = 0) by (apply H5; rewrite Hs; reflexivity).
    destruct w as [e s p l sg]. cbn in Hs, Hp, El, Hsg. subst s p l sg.
    change (exec (loadSettled ;; commit true (loadGameData room okP okQ))
                 (mk e initState [] true 0))
      with (exec (commit true (loadGameData room okP okQ))
                 (mk e initState [] false 0)).
    destruct (loadGameData_run okP okQ e)
      as (w1 & Hrun & Hp1 & Hl1 & Hs1 & Ht1 & _ & Hsg1).
    split.
    + eapply commit_Inv; [exact Hrun|exact Hl1|].
      apply Inv_intro;
        [exact Hl1|intros _; split; assumption|rewrite Ht1; lia|
         |intros _; exact Hsg1].
      rewrite Hp1. constructor.
    + left. rewrite (commit_status _ _ _ _ Hrun). exact Hs1.
  - (* ClickStart *)
    destruct (offers user room (ui w) StartGame) eqn:Eo; [|discriminate].
    injection Hstep as <-.
    apply offers_StartGame in Eo as (Hl & Hw & _).
    pose proof (Inv_loaded w HI Hl) as Hlf.
    destruct ok.
    + split.
      * eapply commit_Inv; [apply startGame_ok|exact Hlf|].
        apply Inv_intro; inv_fields;
          [exact Hlf|discriminate|lia|exact H4|exact H5].
      * right. left. rewrite (commit_status _ _ _ _ (startGame_ok w)).
        cbn. auto.
    + split.
      * eapply commit_Inv; [apply startGame_fail|exact Hlf|].
        apply Inv_intro; inv_fields; assumption.
      * left. now rewrite (commit_status _ _ _ _ (startGame_fail w)).
  - (* ClickAnswer *)
    destruct (offers user room (ui w) (SubmitAnswer k)) eqn:Eo;
      [|discriminate].
    injection Hstep as <-.
    apply offers_SubmitAnswer in Eo as (Hl & Hpl & Hh & q & Hq).
    pose proof (Inv_loaded w HI Hl) as Hlf.
    destruct (submitAnswer_accepted k aid okA okS w q Hh Hq)
      as (w1 & Hrun & Hui & Hl1 & Hp1 & _).
    split.
    + eapply commit_Inv; [exact Hrun|congruence|].
      apply Inv_intro; rewrite ?Hui; inv_fields;
        [congruence|intros Hw; congruence|exact H3|
         |intros Hc; congruence].
      destruct Hp1 as [->| ->]; [exact H4|].
      apply Forall_app. split; [exact H4|].
      constructor; [reflexivity|constructor].
    + left. rewrite (commit_status _ _ _ _ Hrun), Hui. reflexivity.
  - (* ClickReaction *)
    destruct (offers user room (ui w) (SendReaction e)) eqn:Eo;
      [|discriminate].
    injection Hstep as <-.
    apply offers_SendReaction in Eo as (Hl & Hpl).
    pose proof (Inv_loaded w HI Hl) as Hlf.
    destruct (sendReaction_run e ok w) as (e1 & Hrun & _).
    split.
    + eapply commit_Inv; [exact Hrun|exact Hlf|].
      apply Inv_intro; inv_fields; assumption.
    + left. now rewrite (commit_status _ _ _ _ Hrun).
  - (* Tick *)
    destruct (ticking (ui w)) eqn:Et; [|discriminate].
    injection Hstep as <-.
    unfold ticking in Et.
    apply andb_true_iff in Et as [Et Hh].
    apply andb_true_iff in Et as [Hs Ht].
    apply Z.ltb_lt in Ht.
    assert (Hpl : gameStatus (ui w) = playing)
      by (destruct (gameStatus (ui w)); try discriminate; reflexivity).
    assert (Hlf : loadInFlight w = false).
    { destruct (loadInFlight w); [|reflexivity].
      destruct (H1 eq_refl) as [Hi _]. rewrite Hi in Hpl. discriminate. }
    split.
    + eapply commit_Inv; [apply tick_run|exact Hlf|].
      apply Inv_intro; inv_fields;
        [exact Hlf|intros Hw; congruence|lia|exact H4|exact H5].
    + left. now rewrite (commit_status _ _ _ _ (tick_run w)).
  - (* Timeout *)
    destruct (nth_error (pending w) n) as [t|] eqn:En; [|discriminate].
    injection Hstep as <-.
    destruct (Inv_not_waiting w n t HI En) as [Hnw Hlf].
    assert (Hqs : taskQuestions t = questions (ui w)).
    { rewrite Forall_forall in H4. apply H4. eapply nth_error_In; eauto. }
    assert (H4' : Forall (fun t => taskQuestions t = questions (ui w))
                         (dropNth n (pending w))).
    { rewrite Forall_forall in *. intros x Hx. apply H4.
      eapply In_dropNth; eauto. }
    change (exec (takeTask n ;; commit false (runTask t)) w)
      with (exec (commit false (runTask t))
                 (mk (env w) (ui w) (dropNth n (pending w)) (loadInFlight w)
                     (starting w))).
    set (w0 := mk (env w) (ui w) (dropNth n (pending w)) (loadInFlight w)
                  (starting w)).
    destruct t as [qi qs|qi qs]; cbn in Hqs; subst qs.
    + (* ShowThenNext *)
      assert (Hrun : runTask (ShowThenNext qi (questions (ui w))) w0
                     = (mk (env w)
                           (mkState (players (ui w)) (questions (ui w))
                              (currentQuestion (ui w)) (gameStatus (ui w))
                              (timeLeft (ui w)) (selectedAnswer (ui w))
                              (hasAnswered (ui w)) true
                              (questionIndex (ui w)) (loading (ui w)))
                           (dropNth n (pending w)
                            ++ [Next qi (questions (ui w))])
                           (loadInFlight w) (starting w), Some tt))
        by reflexivity.
      split.
      * eapply commit_Inv; [exact Hrun|exact Hlf|].
        apply Inv_intro; inv_fields;
          [exact Hlf|intros Hw; contradiction|exact H3| |exact H5].
        apply Forall_app. split; [exact H4'|].
        constructor; [reflexivity|constructor].
      * left. now rewrite (commit_status _ _ _ _ Hrun).
    + (* Next *)
      cbn [runTask].
      destruct (Nat.le_gt_cases (List.length (questions (ui w))) (qi + 1))
        as [Hfin|Hadv].
      * pose proof (nextQuestion_finish qi (questions (ui w)) w0 Hfin) as Hrun.
        split.
        -- eapply commit_Inv; [exact Hrun|exact Hlf|].
           apply Inv_intro; inv_fields;
             [exact Hlf|discriminate|exact H3|exact H4'|exact H5].
        -- unfold statusMove. cbv zeta.
           rewrite (commit_status _ _ _ _ Hrun). cbn [ui gameStatus].
           destruct (gameStatus (ui w)) eqn:Es; [congruence| |now left].
           right. right. left. repeat split. exists n, qi. auto.
      * pose proof (nextQuestion_advance qi (questions (ui w)) w0 Hadv) as Hrun.
        split.
        -- eapply commit_Inv; [exact Hrun|exact Hlf|].
           apply Inv_intro; inv_fields;
             [exact Hlf|intros Hw; contradiction|lia|exact H4'|exact H5].
        -- left. now rewrite (commit_status _ _ _ _ Hrun).
  - (* External *)
    injection Hstep as <-.
    destruct w as [[d0 c t] s p l sg]. split; [exact HI|now left].
  - (* PressStart *)
    destruct (offers user room (ui w) StartGame) eqn:Eo; [|discriminate].
    injection Hstep as <-.
    apply offers_StartGame in Eo as (Hl & Hw & _).
    pose proof (Inv_loaded w HI Hl) as Hlf.
    unfold exec. rewrite startGameCall_run. cbn [fst].
    split; [|now left].
    apply Inv_intro; inv_fields;
      [exact Hlf|exact H2|exact H3|exact H4|intros Hc; congruence].
  - (* StartSettled *)
    destruct (0 <? starting w) eqn:Esg; [|discriminate].
    injection Hstep as <-. apply Nat.ltb_lt in Esg.
    assert (Hl : loading (ui w) = false).
    { destruct (loading (ui w)); [|reflexivity].
      rewrite (H5 eq_refl) in Esg. lia. }
    pose proof (Inv_loaded w HI Hl) as Hlf.
    destruct ok'.
    + split.
      * eapply commit_Inv; [apply startGameResume_ok|exact Hlf|].
        apply Inv_intro; inv_fields;
          [exact Hlf|discriminate|lia|exact H4|intros Hc; congruence].
      * right. right. right.
        rewrite (commit_status _ _ _ _ (startGameResume_ok w)).
        cbn. auto.
    + split.
      * eapply commit_Inv; [apply startGameResume_fail|exact Hlf|].
        apply Inv_intro; inv_fields;
          [exact Hlf|exact H2|exact H3|exact H4|intros Hc; congruence].
      * left. now rewrite (commit_status _ _ _ _ (startGameResume_fail w)).
Qed.

(** A click on Start whose call settles at once is a click whose call is
    left awaited, followed at once by the settling of that call. *)
Lemma ClickStart_in_two_steps (ok : bool) (w : World) :
  step user room (ClickStart ok) w
  = match step user room PressStart w with
    | Some w1 => step user room (StartSettled ok) w1
    | None => None
    end.
Proof.
  cbn [step]. destruct (offers user room (ui w) StartGame); [|reflexivity].
  destruct w as [[d c t] s p l sg]. destruct ok; reflexivity.
Qed.

Lemma run_Inv (evs : list Event) (w w' : World) :
  Inv w -> run user room evs w = Some w' -> Inv w'.
Proof.
  revert w. induction evs as [|ev evs IH]; intros w HI Hrun; simpl in Hrun.
  - now injection Hrun as <-.
  - destruct (step user room ev w) as [w1|] eqn:Es; [|discriminate].
    apply (IH w1); [|exact Hrun]. now apply (step_Inv ev w).
Qed.

Lemma reachable_Inv (w : World) : reachable user room w -> Inv w.
Proof.
  intros (e & evs & Hrun). eapply run_Inv; [apply Inv_init|exact Hrun].
Qed.

Lemma commit_sameGame (reloaded : bool) (h : Eff World unit) (w w1 : World) :
  h w = (w1, Some tt) -> sameGame (ui w1) (ui (exec (commit reloaded h) w)).
Proof.
  intros Hh. now destruct (commit_run reloaded h w w1 Hh) as (_ & _ & Hg & _).
Qed.

(** The timer effect writes [showResults] and the pending list only. *)
Lemma timerEffect_keeps_guard (w : World) :
  hasAnswered (ui (exec timerEffect w)) = hasAnswered (ui w)
  /\ currentQuestion (ui (exec timerEffect w)) = currentQuestion (ui w).
Proof.
  destruct w as [e s p l sg]. room_unfold. room_cases; split; reflexivity.
Qed.

(** The score [submitAnswer] writes for a correct answer is computed from
    the row held in the [players] cell, not from the store. *)
Lemma submitAnswer_score_written (answer answerId : str) (okScore : bool)
      (w : World) (q : Question.t) (currentPlayer : Player.t) :
  hasAnswered (ui w) = false -> currentQuestion (ui w) = Some q ->
  Js.eqb answer (Question.correctAnswer q) = true ->
  find (fun p => Js.eqb (Player.userId p) (User.id user)) (players (ui w))
  = Some currentPlayer ->
  calls (env (exec (submitAnswer user room answer answerId true okScore) w))
  = calls (env w)
    ++ [GameAnswersCreate (newAnswer user room answerId q answer);
        PlayersUpdate (Player.id currentPlayer)
                      (Player.score currentPlayer + 100)].
Proof.
  destruct w as [[d c t] s p l sg]. cbn [ui env calls].
  intros Hh Hq Hc Hf. room_run. rewrite Hq, Hh. room_proj.
  rewrite Hc. room_proj. rewrite Hf. room_proj.
  destruct okScore; room_proj; now rewrite <- app_assoc.
Qed.

End HandlerFacts.

(* ------------------------------------------------------------------ *)
(** ** The room view: the game as a sequence of events *)

(** C2.  A run in which the status moves back.  Alice clicks Start
    twice while the view is waiting.  The room update of one click is
    still awaited when the update of the other settles and the game
    starts; she answers the three questions and the status becomes
    [finished].  Then the awaited update settles: the rest of that
    [startGame] sets the status to [playing] again, with question index
    0 and a full countdown, while the last question is still the current
    one and still counts as answered. *)
Theorem C2_late_start_reopens_game :
  let w := Demo.after Demo.lateStart in
  exists w',
    TriviaRoom.run Demo.alice Demo.quiz Demo.lateStart
      (TriviaRoom.init Demo.env0) = Some w
    /\ TriviaRoom.gameStatus (TriviaRoom.ui w) = finished
    /\ TriviaRoom.starting w = 1
    /\ TriviaRoom.step Demo.alice Demo.quiz (TriviaRoom.StartSettled true) w
       = Some w'
    /\ TriviaRoom.gameStatus (TriviaRoom.ui w') = playing
    /\ TriviaRoom.questionIndex (TriviaRoom.ui w') = 0
    /\ TriviaRoom.currentQuestion (TriviaRoom.ui w') = Some Demo.q3
    /\ TriviaRoom.timeLeft (TriviaRoom.ui w') = 15%Z
    /\ TriviaRoom.hasAnswered (TriviaRoom.ui w') = true.
Proof.
  vm_compute. eexists. repeat split.
Qed.

(** C3.  The countdown is a cell of the component.  A successful
    [startGame] sets it to 15, whether its call settled at once or was
    left awaited, and so does a [nextQuestion] that advances (its index
    plus one is below the number of questions).  A tick takes place
    exactly while the status is [playing], nothing was answered and the
    countdown is positive, and lowers it by one; at 0 no tick occurs, and
    in no reachable state is the countdown negative. *)
Theorem C3_countdown
  (user : User.t) (room : Room.t) (w : TriviaRoom.World) :
  TriviaRoom.reachable user room w ->
  (0 <= TriviaRoom.timeLeft (TriviaRoom.ui w))%Z
  /\ (forall w',
        TriviaRoom.step user room (TriviaRoom.ClickStart true) w = Some w' ->
        TriviaRoom.timeLeft (TriviaRoom.ui w') = 15%Z)
  /\ (forall n qi qs w',
        nth_error (TriviaRoom.pending w) n = Some (TriviaRoom.Next qi qs) ->
        qi + 1 < List.length qs ->
        TriviaRoom.step user room (TriviaRoom.Timeout n) w = Some w' ->
        TriviaRoom.questionIndex (TriviaRoom.ui w') = qi + 1
        /\ TriviaRoom.timeLeft (TriviaRoom.ui w') = 15%Z)
  /\ (forall w',
        TriviaRoom.step user room TriviaRoom.Tick w = Some w' ->
        TriviaRoom.gameStatus (TriviaRoom.ui w) = playing
        /\ TriviaRoom.hasAnswered (TriviaRoom.ui w) = false
        /\ TriviaRoom.timeLeft (TriviaRoom.ui w')
           = (TriviaRoom.timeLeft (TriviaRoom.ui w) - 1)%Z)
  /\ (TriviaRoom.gameStatus (TriviaRoom.ui w) = playing ->
      TriviaRoom.hasAnswered (TriviaRoom.ui w) = false ->
      (0 < TriviaRoom.timeLeft (TriviaRoom.ui w))%Z ->
      TriviaRoom.step user room TriviaRoom.Tick w <> None)
  /\ (TriviaRoom.timeLeft (TriviaRoom.ui w) = 0%Z ->
      TriviaRoom.step user room TriviaRoom.Tick w = None)
  /\ (forall w',
        TriviaRoom.step user room (TriviaRoom.StartSettled true) w = Some w' ->
        TriviaRoom.timeLeft (TriviaRoom.ui w') = 15%Z).
Proof.
  intros Hr. apply reachable_Inv in Hr. destruct Hr as (_ & _ & H3 & _).
  split; [lia|]. split; [|split; [|split; [|split; [|split]]]].
  - intros w' Hs. cbn [TriviaRoom.step] in Hs.
    destruct (TriviaRoom.offers user room (TriviaRoom.ui w) TriviaRoom.StartGame);
      [|discriminate].
    injection Hs as <-.
    destruct (commit_sameGame false _ w _ (startGame_ok room w))
      as (_ & _ & _ & Ht & _).
    rewrite <- Ht. reflexivity.
  - intros n qi qs w' Hn Hlt Hs. cbn [TriviaRoom.step] in Hs.
    rewrite Hn in Hs. injection Hs as <-.
    change (exec (TriviaRoom.takeTask n ;;
                  TriviaRoom.commit false
                    (TriviaRoom.runTask (TriviaRoom.Next qi qs))) w)
      with (exec (TriviaRoom.commit false (TriviaRoom.nextQuestion qi qs))
                 (TriviaRoom.mk (TriviaRoom.env w) (TriviaRoom.ui w)
                    (TriviaRoom.dropNth n (TriviaRoom.pending w))
                    (TriviaRoom.loadInFlight w) (TriviaRoom.starting w))).
    destruct (commit_sameGame false _ _ _
                (nextQuestion_advance qi qs
                   (TriviaRoom.mk (TriviaRoom.env w) (TriviaRoom.ui w)
                      (TriviaRoom.dropNth n (TriviaRoom.pending w))
                      (TriviaRoom.loadInFlight w) (TriviaRoom.starting w)) Hlt))
      as (_ & _ & _ & Ht & _ & _ & Hi & _).
    split; symmetry; [exact Hi|exact Ht].
  - intros w' Hs. cbn [TriviaRoom.step] in Hs.
    destruct (TriviaRoom.ticking (TriviaRoom.ui w)) eqn:Et; [|discriminate].
    injection Hs as <-.
    unfold TriviaRoom.ticking in Et.
    apply andb_true_iff in Et as [Et Hh].
    apply andb_true_iff in Et as [Hst _].
    destruct (commit_sameGame false _ w _ (tick_run w))
      as (_ & _ & _ & Ht & _).
    rewrite <- Ht. repeat split.
    + now destruct (TriviaRoom.gameStatus (TriviaRoom.ui w)).
    + now destruct (TriviaRoom.hasAnswered (TriviaRoom.ui w)).
  - intros Hp Hh Hpos. cbn [TriviaRoom.step]. unfold TriviaRoom.ticking.
    rewrite Hp, Hh. apply Z.ltb_lt in Hpos. rewrite Hpos. discriminate.
  - intros Hz. cbn [TriviaRoom.step]. unfold TriviaRoom.ticking.
    rewrite Hz, andb_false_r. reflexivity.
  - intros w' Hs. cbn [TriviaRoom.step] in Hs.
    destruct (0 <? TriviaRoom.starting w); [|discriminate].
    injection Hs as <-.
    destruct (commit_sameGame false _ w _ (startGameResume_ok room w))
      as (_ & _ & _ & Ht & _).
    rewrite <- Ht. reflexivity.
Qed.

Lemma C3_countdown_witness :
  (0 <= TriviaRoom.timeLeft (TriviaRoom.ui Demo.started))%Z
  /\ TriviaRoom.step Demo.alice Demo.quiz TriviaRoom.Tick Demo.started <> None.
Proof.
  destruct (C3_countdown Demo.alice Demo.quiz Demo.started)
    as (Hpos & _ & _ & _ & Htick & _).
  - exists Demo.env0, Demo.opening. vm_compute. reflexivity.
  - split; [exact Hpos|].
    apply Htick; vm_compute; reflexivity.
Defined.

(* ------------------------------------------------------------------ *)
(** ** The room view: [submitAnswer] and [startGame] *)

(** C4.  [submitAnswer] returns without doing anything exactly when
    [hasAnswered] is set or there is no current question, and the timer
    effect, also when the time is up, writes neither of the two.  In
    every other state, whatever the countdown (0 included) and the
    status, [submitAnswer] marks the question answered and asks the store
    to create the answer row, which is stored when that call goes
    through. *)
Theorem C4_submit_ignores_timer
  (user : User.t) (room : Room.t) (answer answerId : str)
  (okAnswer okScore : bool) (w : TriviaRoom.World) :
  let w' :=
    exec (TriviaRoom.submitAnswer user room answer answerId okAnswer okScore) w
  in
  (w' = w <-> TriviaRoom.hasAnswered (TriviaRoom.ui w) = true
              \/ TriviaRoom.currentQuestion (TriviaRoom.ui w) = None)
  /\ (TriviaRoom.hasAnswered (TriviaRoom.ui (exec TriviaRoom.timerEffect w))
      = TriviaRoom.hasAnswered (TriviaRoom.ui w)
      /\ TriviaRoom.currentQuestion
           (TriviaRoom.ui (exec TriviaRoom.timerEffect w))
         = TriviaRoom.currentQuestion (TriviaRoom.ui w))
  /\ forall q,
       TriviaRoom.hasAnswered (TriviaRoom.ui w) = false ->
       TriviaRoom.currentQuestion (TriviaRoom.ui w) = Some q ->
       TriviaRoom.hasAnswered (TriviaRoom.ui w') = true
       /\ TriviaRoom.selectedAnswer (TriviaRoom.ui w') = Some answer
       /\ (exists rest,
             calls (TriviaRoom.env w')
             = calls (TriviaRoom.env w)
               ++ GameAnswersCreate
                    (TriviaRoom.newAnswer user room answerId q answer)
                  :: rest)
       /\ tbl_gameAnswers (db (TriviaRoom.env w'))
          = tbl_gameAnswers (db (TriviaRoom.env w))
            ++ (if okAnswer
                then [TriviaRoom.newAnswer user room answerId q answer]
                else []).
Proof.
  intros w'.
  assert (Hacc : forall q,
    TriviaRoom.hasAnswered (TriviaRoom.ui w) = false ->
    TriviaRoom.currentQuestion (TriviaRoom.ui w) = Some q ->
    TriviaRoom.hasAnswered (TriviaRoom.ui w') = true
    /\ TriviaRoom.selectedAnswer (TriviaRoom.ui w') = Some answer
    /\ (exists rest,
          calls (TriviaRoom.env w')
          = calls (TriviaRoom.env w)
            ++ GameAnswersCreate
                 (TriviaRoom.newAnswer user room answerId q answer)
               :: rest)
    /\ tbl_gameAnswers (db (TriviaRoom.env w'))
       = tbl_gameAnswers (db (TriviaRoom.env w))
         ++ (if okAnswer
             then [TriviaRoom.newAnswer user room answerId q answer]
             else [])).
  { intros q Hh Hq.
    destruct (submitAnswer_accepted user room answer answerId okAnswer okScore
                w q Hh Hq) as (w1 & Hrun & Hui & _ & _ & Hc & Hdb).
    unfold w', exec. rewrite Hrun. cbn [fst]. rewrite Hui.
    repeat split; assumption. }
  split; [|split; [apply timerEffect_keeps_guard|exact Hacc]]. split.
  - intros He.
    destruct (TriviaRoom.hasAnswered (TriviaRoom.ui w)) eqn:Hh; [now left|].
    destruct (TriviaRoom.currentQuestion (TriviaRoom.ui w)) as [q|] eqn:Hq;
      [|now right].
    destruct (Hacc q eq_refl eq_refl) as [Ht _].
    rewrite He in Ht. congruence.
  - intros Hg. unfold w', exec.
    now rewrite (submitAnswer_refused user room answer answerId
                   okAnswer okScore w Hg).
Qed.

Lemma C4_submit_ignores_timer_witness :
  TriviaRoom.timeLeft (TriviaRoom.ui (Demo.after Demo.timeUp)) = 0%Z
  /\ tbl_gameAnswers
       (db (TriviaRoom.env
              (exec (TriviaRoom.submitAnswer Demo.alice Demo.quiz
                       (lit "A") (lit "a1") true true)
                    (Demo.after Demo.timeUp))))
     = [GameAnswer.mk (lit "a1") (lit "r1") (lit "u1") (lit "q1") (lit "A") true].
Proof.
  destruct (C4_submit_ignores_timer Demo.alice Demo.quiz (lit "A") (lit "a1")
              true true (Demo.after Demo.timeUp)) as (_ & _ & Hacc).
  destruct (Hacc Demo.q1) as (_ & _ & _ & Hdb);
    [vm_compute; reflexivity|vm_compute; reflexivity|].
  split; [vm_compute; reflexivity|].
  rewrite Hdb. vm_compute. reflexivity.
Defined.

(** C6.  When the room update of [startGame] is rejected, the handler
    issues that one call and nothing more, leaves the store as it was and
    adds one destructive toast; no cell of the component changes, and
    after the click the status, the countdown, the question index and the
    pending timeouts are what they were. *)
Theorem C6_startGame_failure
  (user : User.t) (room : Room.t) (w w' : TriviaRoom.World) :
  TriviaRoom.step user room (TriviaRoom.ClickStart false) w = Some w' ->
  exec (TriviaRoom.startGame room false) w
  = TriviaRoom.mk
      (mkEnv (db (TriviaRoom.env w))
             (calls (TriviaRoom.env w)
              ++ [RoomsUpdate (Room.id room) playing 0])
             (toasts (TriviaRoom.env w)
              ++ [mkToast (lit "Error") (lit "Failed to start game")
                          destructive]))
      (TriviaRoom.ui w) (TriviaRoom.pending w) (TriviaRoom.loadInFlight w) (TriviaRoom.starting w)
  /\ TriviaRoom.env w' = TriviaRoom.env (exec (TriviaRoom.startGame room false) w)
  /\ TriviaRoom.gameStatus (TriviaRoom.ui w') = waiting
  /\ TriviaRoom.timeLeft (TriviaRoom.ui w')
     = TriviaRoom.timeLeft (TriviaRoom.ui w)
  /\ TriviaRoom.questionIndex (TriviaRoom.ui w')
     = TriviaRoom.questionIndex (TriviaRoom.ui w)
  /\ sameGame (TriviaRoom.ui w) (TriviaRoom.ui w')
  /\ TriviaRoom.pending w' = TriviaRoom.pending w.
Proof.
  intros Hs. cbn [TriviaRoom.step] in Hs.
  destruct (TriviaRoom.offers user room (TriviaRoom.ui w) TriviaRoom.StartGame)
    eqn:Eo; [|discriminate].
  injection Hs as <-.
  apply offers_StartGame in Eo as (_ & Hw & _).
  pose proof (startGame_fail room w) as Hrun.
  destruct (commit_run false _ w _ Hrun) as (He & _ & Hg & Hp).
  cbn [TriviaRoom.ui TriviaRoom.pending] in Hg, Hp.
  rewrite (depsChanged_same _ _ (sameGame_refl _)) in Hp.
  cbn [orb] in Hp. rewrite expiryTasks_none, app_nil_r in Hp.
  unfold exec at 1 3. rewrite Hrun. cbn [fst].
  split; [reflexivity|]. split; [exact He|].
  pose proof Hg as (_ & _ & Hst & Ht & _ & _ & Hi & _).
  repeat split; try congruence; apply Hg.
Qed.

Lemma C6_startGame_failure_witness :
  TriviaRoom.gameStatus
    (TriviaRoom.ui
       (exec (TriviaRoom.commit false (TriviaRoom.startGame Demo.quiz false))
             Demo.loaded)) = waiting
  /\ calls (TriviaRoom.env
              (exec (TriviaRoom.startGame Demo.quiz false) Demo.loaded))
     = [PlayersList (lit "r1"); QuestionsList;
        RoomsUpdate (lit "r1") playing 0].
Proof.
  destruct (C6_startGame_failure Demo.alice Demo.quiz Demo.loaded
              (exec (TriviaRoom.commit false
                       (TriviaRoom.startGame Demo.quiz false)) Demo.loaded))
    as (Hrun & _ & Hst & _).
  - vm_compute. reflexivity.
  - split; [exact Hst|]. rewrite Hrun. vm_compute. reflexivity.
Defined.

(* ------------------------------------------------------------------ *)
(** ** Two runs of the room view *)

(** C1.  A run in which the score is not raised by a correct answer.
    Alice's row is loaded with score 0.  She answers the first question
    correctly and her stored score becomes 100.  On the second question
    she has not answered yet; her correct answer is recorded with
    [isCorrect = true], and the score written is again the loaded score
    plus 100: the stored score stays 100. *)
Theorem C1_second_correct_answer_keeps_score :
  let w := Demo.after Demo.twoCorrect in
  exists w',
    TriviaRoom.run Demo.alice Demo.quiz Demo.twoCorrect
      (TriviaRoom.init Demo.env0) = Some w
    /\ TriviaRoom.step Demo.alice Demo.quiz (Demo.click "B" "a2") w = Some w'
    /\ TriviaRoom.hasAnswered (TriviaRoom.ui w) = false
    /\ TriviaRoom.currentQuestion (TriviaRoom.ui w) = Some Demo.q2
    /\ Question.correctAnswer Demo.q2 = lit "B"
    /\ storedScore (lit "p1") (db (TriviaRoom.env w)) = Some 100%Z
    /\ tbl_gameAnswers (db (TriviaRoom.env w'))
       = tbl_gameAnswers (db (TriviaRoom.env w))
         ++ [GameAnswer.mk (lit "a2") (lit "r1") (lit "u1") (lit "q2")
                           (lit "B") true]
    /\ storedScore (lit "p1") (db (TriviaRoom.env w')) = Some 100%Z.
Proof.
  vm_compute. eexists. repeat split.
Qed.

(** C10.  A run in which one question is answered twice.  The countdown
    of the first question runs out and the expiry timeout is queued;
    Alice answers the first question before it fires, which queues a
    second call of [nextQuestion] captured at index 0.  The expiry moves
    on to the second question, which she answers ([hasAnswered] is set).
    Then the call captured at index 0 runs: the question index stays 1
    and [hasAnswered] is cleared, and a further [submitAnswer] stores a
    second answer of hers to the same question. *)
Theorem C10_same_question_answered_twice :
  let x := Demo.after Demo.lateAnswer in
  exists y z,
    TriviaRoom.run Demo.alice Demo.quiz Demo.lateAnswer
      (TriviaRoom.init Demo.env0) = Some x
    /\ TriviaRoom.hasAnswered (TriviaRoom.ui x) = true
    /\ TriviaRoom.questionIndex (TriviaRoom.ui x) = 1
    /\ nth_error (TriviaRoom.pending x) 0
       = Some (TriviaRoom.Next 0 [Demo.q1; Demo.q2; Demo.q3])
    /\ TriviaRoom.step Demo.alice Demo.quiz (TriviaRoom.Timeout 0) x = Some y
    /\ TriviaRoom.questionIndex (TriviaRoom.ui y) = 1
    /\ TriviaRoom.currentQuestion (TriviaRoom.ui y) = Some Demo.q2
    /\ TriviaRoom.hasAnswered (TriviaRoom.ui y) = false
    /\ TriviaRoom.step Demo.alice Demo.quiz (Demo.click "B" "a3") y = Some z
    /\ storedAnswers (lit "u1") (lit "q2") (db (TriviaRoom.env z))
       = [GameAnswer.mk (lit "a2") (lit "r1") (lit "u1") (lit "q2")
                        (lit "B") true;
          GameAnswer.mk (lit "a3") (lit "r1") (lit "u1") (lit "q2")
                        (lit "B") true].
Proof.
  vm_compute. do 2 eexists. repeat split.
Qed.

(* ================================================================== *)
(** * Further properties *)

(* ------------------------------------------------------------------ *)
(** ** Strings: [trim] and [split] *)

Lemma trimStart_split (s : str) :
  exists p, s = p ++ Js.trimStart s /\ forallb Js.isWhiteSpace p = true.
Proof.
  induction s as [|c s (p & Hs & Hp)]; simpl.
  - exists []. split; reflexivity.
  - destruct (Js.isWhiteSpace c) eqn:E.
    + exists (c :: p). simpl. rewrite E, Hp. split; [now f_equal|reflexivity].
    + exists []. split; reflexivity.
Qed.

Lemma trimEnd_split (s : str) :
  exists p, s = Js.trimEnd s ++ p /\ forallb Js.isWhiteSpace p = true.
Proof.
  unfold Js.trimEnd. destruct (trimStart_split (rev s)) as (p & Hs & Hp).
  exists (rev p). split; [|now rewrite forallb_rev].
  rewrite <- rev_app_distr, <- Hs. now rewrite rev_involutive.
Qed.

Lemma trimStart_fixed (s : str) :
  (forall c, hd_error s = Some c -> Js.isWhiteSpace c = false) ->
  Js.trimStart s = s.
Proof.
  destruct s as [|c s]; [reflexivity|]. simpl. intros H.
  now rewrite (H c eq_refl).
Qed.

Lemma trim_ends (s : str) :
  (forall c, hd_error (Js.trim s) = Some c -> Js.isWhiteSpace c = false)
  /\ (forall c, hd_error (rev (Js.trim s)) = Some c ->
                Js.isWhiteSpace c = false).
Proof.
  unfold Js.trim. split; intros c Hc.
  - destruct (trimEnd_split (Js.trimStart s)) as (p & Hs & _).
    pose proof (trimStart_head s) as Hh.
    destruct (Js.trimEnd (Js.trimStart s)) as [|d t]; [discriminate|].
    injection Hc as ->. rewrite Hs in Hh. exact Hh.
  - unfold Js.trimEnd in Hc. rewrite rev_involutive in Hc.
    pose proof (trimStart_head (rev (Js.trimStart s))) as Hh.
    destruct (Js.trimStart (rev (Js.trimStart s))); [discriminate|].
    now injection Hc as ->.
Qed.

Lemma trim_idempotent (s : str) : Js.trim (Js.trim s) = Js.trim s.
Proof.
  destruct (trim_ends s) as [Hhd Hlast].
  unfold Js.trim at 1. rewrite (trimStart_fixed _ Hhd).
  unfold Js.trimEnd. rewrite (trimStart_fixed _ Hlast).
  apply rev_involutive.
Qed.

Lemma splitHead_split (sep : N) (s : str) :
  ~ In sep (Js.splitHead sep s)
  /\ exists rest, s = Js.splitHead sep s ++ rest
                  /\ (rest = [] \/ hd_error rest = Some sep).
Proof.
  induction s as [|c s (Hn & rest & Hs & Hr)]; simpl.
  - split; [tauto|]. exists []. auto.
  - destruct (N.eqb_spec c sep) as [->|Hne].
    + split; [tauto|]. exists (sep :: s). auto.
    + split.
      * simpl. intros [H|H]; [congruence|contradiction].
      * exists rest. simpl. split; [now f_equal|exact Hr].
Qed.

(* ------------------------------------------------------------------ *)
(** ** The lobby: what [createRoom] and [joinRoom] leave behind *)

(** With a name that is not blank, [createRoom] always ends with the form
    reset ([creating] off, the name cleared, the form hidden) and with
    exactly one more toast.  It enters the room when both store calls
    went through; otherwise it stays in the lobby with the error toast,
    also when the room row was stored and only the player row failed. *)
Theorem createRoom_outcome
  (user : User.t) (roomId playerId : str) (okRoom okPlayer : bool)
  (w : GameLobby.World) :
  forallb Js.isWhiteSpace (GameLobby.newRoomName w) = false ->
  let w' := exec (GameLobby.createRoom user roomId playerId okRoom okPlayer) w in
  let r := GameLobby.newRoom user roomId (Js.trim (GameLobby.newRoomName w)) in
  GameLobby.creating w' = false
  /\ GameLobby.newRoomName w' = []
  /\ GameLobby.showCreateForm w' = false
  /\ GameLobby.currentRoom w'
     = (if okRoom && okPlayer then Some r else GameLobby.currentRoom w)
  /\ (exists t, toasts (GameLobby.env w') = toasts (GameLobby.env w) ++ [t]
                /\ variant t
                   = (if okRoom && okPlayer then default else destructive))
  /\ (okRoom = true -> okPlayer = false ->
      In r (tbl_rooms (db (GameLobby.env w')))
      /\ tbl_players (db (GameLobby.env w'))
         = tbl_players (db (GameLobby.env w))).
Proof.
  destruct w as [[d c t] rl cr jn nm sf cur]. cbn zeta.
  intros Hb. cbn [GameLobby.newRoomName] in Hb.
  lobby_unfold. cbn [GameLobby.newRoomName]. rewrite trim_blank, Hb. cbn.
  destruct okRoom, okPlayer; cbn; repeat split;
    try (eexists; split; reflexivity); try discriminate.
  apply in_app_iff. right. now left.
Qed.

Lemma createRoom_outcome_witness :
  let w' := exec (GameLobby.createRoom Demo.alice (lit "r2") (lit "p3")
                    true false) (Demo.lobby (lit " Fun ")) in
  GameLobby.currentRoom w' = None
  /\ GameLobby.newRoomName w' = []
  /\ tbl_players (db (GameLobby.env w')) = [Demo.row1; Demo.row2].
Proof.
  destruct (createRoom_outcome Demo.alice (lit "r2") (lit "p3") true false
              (Demo.lobby (lit " Fun ")))
    as (_ & Hn & _ & Hc & _ & Ho).
  - reflexivity.
  - destruct (Ho eq_refl eq_refl) as [_ Hp].
    split; [exact Hc|]. split; [exact Hn|exact Hp].
Defined.

(** Every room [createRoom] asks the store to create has a name that is
    not empty, starts and ends with a character that is not white space,
    and is left unchanged by a further [trim]. *)
Theorem createRoom_name_trimmed
  (user : User.t) (roomId playerId : str) (okRoom okPlayer : bool)
  (w : GameLobby.World) (r : Room.t) :
  In (RoomsCreate r)
     (calls (GameLobby.env
        (exec (GameLobby.createRoom user roomId playerId okRoom okPlayer) w))) ->
  ~ In (RoomsCreate r) (calls (GameLobby.env w)) ->
  Room.name r <> []
  /\ Js.trim (Room.name r) = Room.name r
  /\ (forall c, hd_error (Room.name r) = Some c -> Js.isWhiteSpace c = false)
  /\ (forall c, hd_error (rev (Room.name r)) = Some c ->
                Js.isWhiteSpace c = false).
Proof.
  destruct w as [[d c t] rl cr jn nm sf cur].
  lobby_unfold. cbn [GameLobby.newRoomName]. rewrite trim_blank.
  destruct (forallb Js.isWhiteSpace nm) eqn:Hb; cbn; [tauto|].
  intros Hin Hnot.
  assert (Hr : r = GameLobby.newRoom user roomId (Js.trim nm)).
  { destruct okRoom, okPlayer; cbn in Hin;
      repeat (apply in_app_iff in Hin as [Hin|Hin]; [|simpl in Hin]);
      try contradiction;
      repeat match goal with
             | H : _ \/ _ |- _ => destruct H
             end; try contradiction; try discriminate; congruence. }
  subst r. cbn [GameLobby.newRoom Room.name].
  split; [|split; [apply trim_idempotent|apply trim_ends]].
  intros He. pose proof (trim_blank nm) as Ht.
  rewrite He, Hb in Ht. discriminate.
Qed.

Lemma createRoom_name_trimmed_witness :
  Room.name (GameLobby.newRoom Demo.alice (lit "r2") (lit "Fun")) <> [].
Proof.
  apply (createRoom_name_trimmed Demo.alice (lit "r2") (lit "p3") true true
           (Demo.lobby (lit " Fun "))
           (GameLobby.newRoom Demo.alice (lit "r2") (lit "Fun"))).
  - vm_compute. left. reflexivity.
  - vm_compute. tauto.
Defined.

(** [joinRoom] enters the room exactly when the lookup went through and
    the user either had a row already or the insertion went through; it
    inserts at most the one new row (then and only then), never looks at
    the room's status, and always clears [joining].  When it does not
    enter the room it leaves the store as it was and shows the error
    toast. *)
Theorem joinRoom_outcome
  (user : User.t) (room : Room.t) (playerId : str) (okFind okCreate : bool)
  (w : GameLobby.World) :
  let w' := exec (GameLobby.joinRoom user room playerId okFind okCreate) w in
  let member :=
    negb (Nat.eqb (List.length
            (GameLobby.memberRows (Room.id room) (User.id user)
               (db (GameLobby.env w)))) 0) in
  let entered := okFind && (member || okCreate) in
  GameLobby.joining w' = None
  /\ GameLobby.currentRoom w'
     = (if entered then Some room else GameLobby.currentRoom w)
  /\ tbl_players (db (GameLobby.env w'))
     = tbl_players (db (GameLobby.env w))
       ++ (if okFind && negb member && okCreate
           then [GameLobby.newPlayer user playerId (Room.id room)] else [])
  /\ tbl_rooms (db (GameLobby.env w')) = tbl_rooms (db (GameLobby.env w))
  /\ (entered = true ->
      GameLobby.memberRows (Room.id room) (User.id user)
        (db (GameLobby.env w')) <> [])
  /\ (entered = false ->
      toasts (GameLobby.env w')
      = toasts (GameLobby.env w) ++ [errorToast "Failed to join room"]).
Proof.
  destruct w as [[d c t] rl cr jn nm sf cur]. cbn zeta.
  unfold GameLobby.memberRows. cbn [GameLobby.env db].
  lobby_unfold. unfold db_players_find. cbn.
  destruct okFind; cbn; [|repeat split; rewrite ?app_nil_r; auto; discriminate].
  destruct (filter _ (tbl_players d)) as [|p l] eqn:E; cbn.
  - destruct okCreate; cbn; rewrite ?app_nil_r; repeat split;
      try discriminate.
    intros _. rewrite filter_app. cbn. rewrite !Js_eqb_refl. cbn.
    intros H. apply app_eq_nil in H as [_ H]. discriminate.
  - rewrite app_nil_r, E. repeat split; discriminate.
Qed.

Lemma joinRoom_outcome_witness :
  let w' := exec (GameLobby.joinRoom Demo.bob Demo.quiz (lit "p9") true false)
                 (Demo.lobby []) in
  GameLobby.memberRows (lit "r1") (lit "u2") (db (GameLobby.env w')) <> [].
Proof.
  destruct (joinRoom_outcome Demo.bob Demo.quiz (lit "p9") true false
              (Demo.lobby [])) as (_ & _ & _ & _ & Hm & _).
  apply Hm. reflexivity.
Defined.

Lemma createRoom_result
  (user : User.t) (roomId playerId : str) (okRoom okPlayer : bool)
  (w : GameLobby.World) :
  forallb Js.isWhiteSpace (GameLobby.newRoomName w) = false ->
  GameLobby.currentRoom
    (exec (GameLobby.createRoom user roomId playerId okRoom okPlayer) w)
  = (if okRoom && okPlayer
     then Some (GameLobby.newRoom user roomId
                  (Js.trim (GameLobby.newRoomName w)))
     else GameLobby.currentRoom w)
  /\ tbl_players
       (db (GameLobby.env
              (exec (GameLobby.createRoom user roomId playerId okRoom okPlayer)
                    w)))
     = tbl_players (db (GameLobby.env w))
       ++ (if okRoom && okPlayer
           then [GameLobby.newPlayer user playerId roomId] else []).
Proof.
  destruct w as [[d c t] rl cr jn nm sf cur].
  cbn [GameLobby.newRoomName GameLobby.env db]. intros Hb.
  lobby_unfold. cbn [GameLobby.newRoomName]. rewrite trim_blank, Hb. cbn.
  destruct okRoom, okPlayer; cbn; rewrite ?app_nil_r; split; reflexivity.
Qed.

Lemma createRoom_created
  (user : User.t) (roomId playerId : str) (w : GameLobby.World) :
  forallb Js.isWhiteSpace (GameLobby.newRoomName w) = false ->
  GameLobby.currentRoom
    (exec (GameLobby.createRoom user roomId playerId true true) w)
  = Some (GameLobby.newRoom user roomId (Js.trim (GameLobby.newRoomName w)))
  /\ tbl_players
       (db (GameLobby.env
              (exec (GameLobby.createRoom user roomId playerId true true) w)))
     = tbl_players (db (GameLobby.env w))
       ++ [GameLobby.newPlayer user playerId roomId].
Proof.
  intros Hb. exact (createRoom_result user roomId playerId true true w Hb).
Qed.

(** The creator of a room is a member of it: after a [createRoom] whose
    two calls went through, a [joinRoom] of the same user into the
    created room inserts no second row, whatever its outcomes. *)
Theorem createRoom_then_joinRoom
  (user : User.t) (roomId playerId playerId' : str) (okFind okCreate : bool)
  (w : GameLobby.World) (r : Room.t) :
  forallb Js.isWhiteSpace (GameLobby.newRoomName w) = false ->
  GameLobby.currentRoom
    (exec (GameLobby.createRoom user roomId playerId true true) w) = Some r ->
  db (GameLobby.env
        (exec (GameLobby.joinRoom user r playerId' okFind okCreate)
              (exec (GameLobby.createRoom user roomId playerId true true) w)))
  = db (GameLobby.env
          (exec (GameLobby.createRoom user roomId playerId true true) w))
  /\ tbl_players
       (db (GameLobby.env
              (exec (GameLobby.joinRoom user r playerId' okFind okCreate)
                    (exec (GameLobby.createRoom user roomId playerId true true)
                          w))))
     = tbl_players (db (GameLobby.env w))
       ++ [GameLobby.newPlayer user playerId roomId].
Proof.
  intros Hb Hr.
  destruct (createRoom_created user roomId playerId w Hb) as [Hcur Hp].
  rewrite Hcur in Hr. injection Hr as <-.
  set (created := exec (GameLobby.createRoom user roomId playerId true true) w)
    in *.
  assert (Hm : GameLobby.memberRows roomId (User.id user)
                 (db (GameLobby.env created)) <> []).
  { apply (memberRows_In roomId (User.id user) _
             (GameLobby.newPlayer user playerId roomId));
      [|reflexivity|reflexivity].
    rewrite Hp. apply in_app_iff. right. now left. }
  destruct (joinRoom_member user
              (GameLobby.newRoom user roomId (Js.trim (GameLobby.newRoomName w)))
              playerId' okFind okCreate created Hm) as [Hd _].
  split; [exact Hd|]. rewrite Hd. exact Hp.
Qed.

Lemma createRoom_then_joinRoom_witness :
  tbl_players
    (db (GameLobby.env
           (exec (GameLobby.joinRoom Demo.alice
                    (GameLobby.newRoom Demo.alice (lit "r2") (lit "Fun"))
                    (lit "p4") true true)
                 (exec (GameLobby.createRoom Demo.alice (lit "r2") (lit "p3")
                          true true) (Demo.lobby (lit "Fun"))))))
  = [Demo.row1; Demo.row2] ++ [GameLobby.newPlayer Demo.alice (lit "p3") (lit "r2")].
Proof.
  apply (createRoom_then_joinRoom Demo.alice (lit "r2") (lit "p3") (lit "p4")
           true true (Demo.lobby (lit "Fun"))
           (GameLobby.newRoom Demo.alice (lit "r2") (lit "Fun"))).
  - vm_compute. reflexivity.
  - vm_compute. reflexivity.
Defined.

(** The name on a player row made by the lobby is the user's display
    name when there is a non-empty one; otherwise it is the part of the
    e-mail address before its first [@], which contains no [@] and is
    followed in the address by nothing or by [@]. *)
Theorem displayNameOf_cases (u : User.t) :
  (forall d, User.displayName u = Some d -> d <> [] -> displayNameOf u = d)
  /\ (User.displayName u = None \/ User.displayName u = Some [] ->
      ~ In Js.at_sign (displayNameOf u)
      /\ exists rest, User.email u = displayNameOf u ++ rest
                      /\ (rest = [] \/ hd_error rest = Some Js.at_sign)).
Proof.
  unfold displayNameOf. split.
  - intros d -> Hd. destruct d; [contradiction|reflexivity].
  - intros [-> | ->]; cbn; apply splitHead_split.
Qed.

Lemma displayNameOf_cases_witness :
  displayNameOf Demo.bob = lit "Bob"
  /\ ~ In Js.at_sign (displayNameOf Demo.alice).
Proof.
  destruct (displayNameOf_cases Demo.bob) as [Hb _].
  destruct (displayNameOf_cases Demo.alice) as [_ Ha].
  split.
  - apply Hb; [reflexivity|discriminate].
  - apply Ha. left. reflexivity.
Defined.

(* ------------------------------------------------------------------ *)
(** ** The room view: what is loaded and what stays *)

Lemma descending_firstn (n : nat) (l : list Player.t) :
  descending l -> descending (firstn n l).
Proof.
  unfold descending. intros H. revert n.
  induction H as [|x l Hl IH Hx]; intros [|n]; simpl; try constructor.
  - apply IH.
  - rewrite Forall_forall in *. intros y Hy. apply Hx.
    rewrite <- (firstn_skipn n l). apply in_app_iff. now left.
Qed.

Lemma db_players_list_descending (roomId : str) (d : Db) :
  descending (db_players_list roomId d).
Proof. apply descending_firstn, sortPlayers_descending. Qed.

Section ShownFacts.
Import TriviaRoom.
Variable user : User.t.
Variable room : Room.t.

(** Rendering leaves a descending player list as it is. *)
Lemma commit_players (reloaded : bool) (h : Eff World unit) (w w1 : World) :
  h w = (w1, Some tt) -> descending (players (ui w1)) ->
  players (ui (exec (commit reloaded h) w)) = players (ui w1).
Proof.
  intros Hh Hd. room_unfold. rewrite Hh.
  destruct w1 as [e1 s1 p1 l1 sg1]. cbn [ui] in Hd.
  room_cases; try discriminate; try reflexivity;
    now apply sortPlayers_fixed.
Qed.

Lemma loadGameData_ui (okP okQ : bool) (e : Env) :
  exists w1,
    loadGameData room okP okQ (mk e initState [] false 0) = (w1, Some tt)
    /\ players (ui w1) = loadedPlayers room okP (db e)
    /\ questions (ui w1) = loadedQuestions okP okQ (db e)
    /\ currentQuestion (ui w1) = nth_error (loadedQuestions okP okQ (db e)) 0
    /\ questionIndex (ui w1) = 0
    /\ loading (ui w1) = negb (okP && okQ)
    /\ hasAnswered (ui w1) = false
    /\ starting w1 = 0
    /\ toasts (env w1)
       = toasts e ++ (if okP && okQ then []
                      else [errorToast "Failed to load game data"]).
Proof.
  destruct e as [d c t]. unfold loadedPlayers, loadedQuestions.
  destruct okP, okQ; room_run; cbn [andb negb];
    try (eexists; repeat split; rewrite ?app_nil_r; reflexivity).
  destruct (db_questions_list d) as [|q qs] eqn:E; room_proj; cbn;
    eexists; repeat split; rewrite ?app_nil_r; reflexivity.
Qed.

End ShownFacts.

Section ShownSteps.
Import TriviaRoom.
Variable user : User.t.
Variable room : Room.t.

Lemma commit_Shown (reloaded : bool) (h : Eff World unit) (w w1 : World) :
  h w = (w1, Some tt) -> Shown w1 ->
  Shown (exec (commit reloaded h) w)
  /\ players (ui (exec (commit reloaded h) w)) = players (ui w1)
  /\ questions (ui (exec (commit reloaded h) w)) = questions (ui w1).
Proof.
  intros Hh (Hd & Hc & Hi & Hw).
  pose proof (commit_players reloaded h w w1 Hh Hd) as Hp.
  destruct (commit_sameGame reloaded h w w1 Hh)
    as (Hq & Hcq & Hst & _ & _ & _ & Hqi & _).
  split; [|split; [exact Hp|now symmetry]].
  unfold Shown, onScreen in *. cbv zeta.
  rewrite Hp, <- Hq, <- Hcq, <- Hqi, <- Hst. auto.
Qed.

Lemma commit_InStep (reloaded : bool) (h : Eff World unit) (w w1 : World) :
  h w = (w1, Some tt) -> InStep w1 -> InStep (exec (commit reloaded h) w).
Proof.
  intros Hh (Hsg & Hc).
  destruct (commit_sameGame reloaded h w w1 Hh)
    as (Hq & Hcq & _ & _ & _ & _ & Hqi & _).
  unfold InStep. rewrite (commit_starting reloaded h w w1 Hh).
  rewrite <- Hq, <- Hcq, <- Hqi. auto.
Qed.

Lemma onScreen_exact (s : State) :
  currentQuestion s = nth_error (questions s) (questionIndex s) ->
  onScreen s.
Proof. intros H. now left. Qed.

(** A [startGame] that goes through sets the index to 0 and leaves the
    current question as it is. *)
Lemma onScreen_restart (s : State) (st : GameStatus) (t : Z) :
  onScreen s ->
  questionIndex s = 0 \/ questionIndex s < List.length (questions s) ->
  onScreen (mkState (players s) (questions s) (currentQuestion s) st t
                    (selectedAnswer s) (hasAnswered s) (showResults s) 0
                    (loading s)).
Proof.
  unfold onScreen. cbn [currentQuestion questions questionIndex].
  intros [Hc|(Hi0 & k & Hk & Hc)] Hi.
  - destruct Hi as [Hi|Hi].
    + left. now rewrite <- Hi.
    + right. split; [reflexivity|]. now exists (questionIndex s).
  - right. split; [reflexivity|]. now exists k.
Qed.

Ltac shown_fields :=
  cbn [ui players questions currentQuestion questionIndex gameStatus
       starting].

(** Every event keeps [Shown]; once the load has settled it also keeps
    the [players] and [questions] cells as they are; and every event but
    a click on Start whose call is left awaited keeps [InStep]. *)
Lemma step_Shown (ev : Event) (w w' : World) :
  Inv w -> Shown w -> step user room ev w = Some w' ->
  Shown w'
  /\ (loadInFlight w = false ->
      players (ui w') = players (ui w)
      /\ questions (ui w') = questions (ui w))
  /\ (InStep w -> ev <> PressStart -> InStep w').
Proof.
  intros HI HS Hstep. pose proof HI as (H1 & H2 & H3 & H4 & H5).
  pose proof HS as (Hd & Hc & Hi & Hw0).
  destruct ev as [okP okQ|ok|k aid okA okS|e ok| |n|d| |ok'];
    cbn [step] in Hstep.
  - (* Loaded *)
    destruct (loadInFlight w) eqn:El; [|discriminate].
    injection Hstep as <-.
    destruct (H1 eq_refl) as [Hs Hp].
    assert (Hsg : starting w = 0) by (apply H5; rewrite Hs; reflexivity).
    destruct w as [e s p l sg]. cbn in Hs, Hp, El, Hsg. subst s p l sg.
    change (exec (loadSettled ;; commit true (loadGameData room okP okQ))
                 (mk e initState [] true 0))
      with (exec (commit true (loadGameData room okP okQ))
                 (mk e initState [] false 0)).
    destruct (loadGameData_ui room okP okQ e)
      as (w1 & Hrun & Hpl & Hq & Hcq & Hqi & _ & _ & Hsg1 & _).
    split; [|split; [discriminate|]].
    + apply (commit_Shown true _ _ w1 Hrun).
      unfold Shown, onScreen. cbv zeta. rewrite Hpl, Hq, Hcq, Hqi.
      split; [|auto]. unfold loadedPlayers.
      destruct okP; [apply db_players_list_descending|constructor].
    + intros _ _. apply (commit_InStep true _ _ w1 Hrun).
      split; [exact Hsg1|]. now rewrite Hq, Hcq, Hqi.
  - (* ClickStart *)
    destruct (offers user room (ui w) StartGame) eqn:Eo; [|discriminate].
    injection Hstep as <-.
    apply offers_StartGame in Eo as (_ & Hw & _).
    pose proof (Hw0 Hw) as Hi0.
    destruct ok.
    + destruct (commit_Shown false _ w _ (startGame_ok room w)) as (A & B & C).
      * unfold Shown. shown_fields.
        split; [exact Hd|]. split; [now apply onScreen_restart|].
        split; [now left|reflexivity].
      * split; [exact A|]. split; [intros _; split; [exact B|exact C]|].
        intros (Hsg & Hx) _.
        apply (commit_InStep false _ w _ (startGame_ok room w)).
        split; [exact Hsg|]. shown_fields. now rewrite <- Hi0.
    + destruct (commit_Shown false _ w _ (startGame_fail room w)) as (A & B & C).
      * exact HS.
      * split; [exact A|]. split; [intros _; split; [exact B|exact C]|].
        intros HX _.
        now apply (commit_InStep false _ w _ (startGame_fail room w)).
  - (* ClickAnswer *)
    destruct (offers user room (ui w) (SubmitAnswer k)) eqn:Eo;
      [|discriminate].
    injection Hstep as <-.
    apply offers_SubmitAnswer in Eo as (Hl & Hpl & Hh & q & Hq).
    destruct (submitAnswer_accepted user room k aid okA okS w q Hh Hq)
      as (w1 & Hrun & Hui & _).
    pose proof (submitAnswer_starting user room k aid okA okS w w1 Hrun)
      as Hsg1.
    destruct (commit_Shown false _ w w1 Hrun) as (A & B & C).
    + unfold Shown, onScreen. rewrite Hui. shown_fields. auto.
    + rewrite Hui in B, C. split; [exact A|].
      split; [intros _; split; [exact B|exact C]|].
      intros (Hsg & Hx) _. apply (commit_InStep false _ w w1 Hrun).
      split; [congruence|]. rewrite Hui. shown_fields. exact Hx.
  - (* ClickReaction *)
    destruct (offers user room (ui w) (SendReaction e)) eqn:Eo;
      [|discriminate].
    injection Hstep as <-.
    destruct (sendReaction_run user room e ok w) as (e1 & Hrun & _).
    destruct (commit_Shown false _ w _ Hrun) as (A & B & C).
    + exact HS.
    + split; [exact A|]. split; [intros _; split; [exact B|exact C]|].
      intros HX _. now apply (commit_InStep false _ w _ Hrun).
  - (* Tick *)
    destruct (ticking (ui w)) eqn:Et; [|discriminate].
    injection Hstep as <-.
    destruct (commit_Shown false _ w _ (tick_run w)) as (A & B & C).
    + exact HS.
    + split; [exact A|]. split; [intros _; split; [exact B|exact C]|].
      intros HX _. now apply (commit_InStep false _ w _ (tick_run w)).
  - (* Timeout *)
    destruct (nth_error (pending w) n) as [t|] eqn:En; [|discriminate].
    injection Hstep as <-.
    destruct (Inv_not_waiting w n t HI En) as [Hnw _].
    assert (Hqs : taskQuestions t = questions (ui w)).
    { rewrite Forall_forall in H4. apply H4. eapply nth_error_In; eauto. }
    change (exec (takeTask n ;; commit false (runTask t)) w)
      with (exec (commit false (runTask t))
                 (mk (env w) (ui w) (dropNth n (pending w)) (loadInFlight w)
                     (starting w))).
    set (w0 := mk (env w) (ui w) (dropNth n (pending w)) (loadInFlight w)
                  (starting w)).
    destruct t as [qi qs|qi qs]; cbn in Hqs; subst qs.
    + assert (Hrun : runTask (ShowThenNext qi (questions (ui w))) w0
                     = (mk (env w)
                           (mkState (players (ui w)) (questions (ui w))
                              (currentQuestion (ui w)) (gameStatus (ui w))
                              (timeLeft (ui w)) (selectedAnswer (ui w))
                              (hasAnswered (ui w)) true
                              (questionIndex (ui w)) (loading (ui w)))
                           (dropNth n (pending w)
                            ++ [Next qi (questions (ui w))])
                           (loadInFlight w) (starting w), Some tt))
        by reflexivity.
      destruct (commit_Shown false _ w0 _ Hrun) as (A & B & C).
      * exact HS.
      * split; [exact A|]. split; [intros _; split; [exact B|exact C]|].
        intros HX _. now apply (commit_InStep false _ w0 _ Hrun).
    + cbn [runTask].
      destruct (Nat.le_gt_cases (List.length (questions (ui w))) (qi + 1))
        as [Hfin|Hadv].
      * pose proof (nextQuestion_finish qi (questions (ui w)) w0 Hfin) as Hrun.
        destruct (commit_Shown false _ w0 _ Hrun) as (A & B & C).
        -- unfold Shown. shown_fields.
           repeat split; try assumption. discriminate.
        -- split; [exact A|]. split; [intros _; split; [exact B|exact C]|].
           intros HX _. now apply (commit_InStep false _ w0 _ Hrun).
      * pose proof (nextQuestion_advance qi (questions (ui w)) w0 Hadv) as Hrun.
        destruct (commit_Shown false _ w0 _ Hrun) as (A & B & C).
        -- unfold Shown. shown_fields.
           split; [exact Hd|]. split; [now left|].
           split; [now right|]. intros Hw. contradiction.
        -- split; [exact A|]. split; [intros _; split; [exact B|exact C]|].
           intros (Hsg & _) _. apply (commit_InStep false _ w0 _ Hrun).
           split; [exact Hsg|reflexivity].
  - (* External *)
    injection Hstep as <-.
    destruct w as [[d0 c t] s p l sg].
    split; [exact HS|]. split; [intros _; split; reflexivity|].
    intros HX _. exact HX.
  - (* PressStart *)
    destruct (offers user room (ui w) StartGame) eqn:Eo; [|discriminate].
    injection Hstep as <-.
    unfold exec. rewrite startGameCall_run. cbn [fst].
    split; [exact HS|]. split; [intros _; split; reflexivity|].
    intros _ Hne. now contradiction Hne.
  - (* StartSettled *)
    destruct (0 <? starting w) eqn:Esg; [|discriminate].
    injection Hstep as <-. apply Nat.ltb_lt in Esg.
    destruct ok'.
    + destruct (commit_Shown false _ w _ (startGameResume_ok room w))
        as (A & B & C).
      * unfold Shown. shown_fields.
        split; [exact Hd|]. split; [now apply onScreen_restart|].
        split; [now left|reflexivity].
      * split; [exact A|]. split; [intros _; split; [exact B|exact C]|].
        intros (Hsg & _) _. lia.
    + destruct (commit_Shown false _ w _ (startGameResume_fail room w))
        as (A & B & C).
      * exact HS.
      * split; [exact A|]. split; [intros _; split; [exact B|exact C]|].
        intros (Hsg & _) _. lia.
Qed.

Lemma Shown_init (e : Env) : Shown (init e).
Proof.
  unfold Shown, onScreen. cbn.
  split; [constructor|]. split; [now left|]. split; [now left|reflexivity].
Qed.

Lemma InStep_init (e : Env) : InStep (init e).
Proof. split; reflexivity. Qed.

Lemma run_Shown (evs : list Event) (w w' : World) :
  Inv w -> Shown w -> run user room evs w = Some w' -> Inv w' /\ Shown w'.
Proof.
  revert w. induction evs as [|ev evs IH]; intros w HI HS Hrun; simpl in Hrun.
  - injection Hrun as <-. now split.
  - destruct (step user room ev w) as [w1|] eqn:Es; [|discriminate].
    apply (IH w1); [| |exact Hrun].
    + now apply (step_Inv user room ev w).
    + now apply (step_Shown ev w).
Qed.

Lemma reachable_Shown (w : World) : reachable user room w -> Shown w.
Proof.
  intros (e & evs & Hrun).
  now destruct (run_Shown evs (init e) w (Inv_init e) (Shown_init e) Hrun).
Qed.


End ShownSteps.

Section LoadedFacts.
Import TriviaRoom.
Variable user : User.t.
Variable room : Room.t.


(** The state right after the load has settled. *)
Lemma step_Loaded (okP okQ : bool) (e : Env) :
  exists w1,
    step user room (Loaded okP okQ) (init e) = Some w1
    /\ Inv w1 /\ Shown w1 /\ loadInFlight w1 = false
    /\ players (ui w1) = loadedPlayers room okP (db e)
    /\ questions (ui w1) = loadedQuestions okP okQ (db e)
    /\ loading (ui w1) = negb (okP && okQ)
    /\ gameStatus (ui w1) = waiting
    /\ pending w1 = []
    /\ db (env w1) = db e
    /\ toasts (env w1)
       = toasts e ++ (if okP && okQ then []
                      else [errorToast "Failed to load game data"]).
Proof.
  set (w' := exec (commit true (loadGameData room okP okQ))
                  (mk e initState [] false 0)).
  assert (Hs : step user room (Loaded okP okQ) (init e) = Some w')
    by reflexivity.
  exists w'. split; [exact Hs|].
  destruct (step_Inv user room _ _ _ (Inv_init e) Hs) as [HI _].
  destruct (step_Shown user room _ _ _ (Inv_init e) (Shown_init e) Hs)
    as [HS _].
  destruct (loadGameData_ui room okP okQ e)
    as (w1 & Hrun & Hpl & Hq & _ & _ & Hld & _ & _ & Ht).
  destruct (loadGameData_run room okP okQ e)
    as (w2 & Hrun2 & Hp2 & Hl2 & Hs2 & Ht2 & Hdb2 & _).
  rewrite Hrun in Hrun2. injection Hrun2 as <-.
  destruct (commit_run true _ _ w1 Hrun) as (He & Hl & Hg & Hp).
  fold w' in He, Hl, Hg, Hp.
  destruct Hg as (Hgq & _ & Hgs & Hgt & _ & _ & _ & Hgl).
  assert (Hpl' : players (ui w') = players (ui w1)).
  { apply (commit_players true _ _ w1 Hrun). rewrite Hpl.
    unfold loadedPlayers.
    destruct okP; [apply db_players_list_descending|constructor]. }
  split; [exact HI|]. split; [exact HS|]. split; [congruence|].
  split; [congruence|]. split; [congruence|]. split; [congruence|].
  split; [congruence|]. split; [|split; congruence].
  rewrite Hp, Hp2.
  destruct (expiryTasks_cases
              (true || depsChanged (ui (mk e initState [] false 0)) (ui w1))
              (ui w1)) as [->|(_ & Hz & _)]; [reflexivity|].
  rewrite Ht2 in Hz. discriminate.
Qed.


Lemma loadedPlayers_descending (okP : bool) (d : Db) :
  descending (loadedPlayers room okP d).
Proof.
  unfold loadedPlayers.
  destruct okP; [apply db_players_list_descending|constructor].
Qed.

End LoadedFacts.



Section OnScreenFacts.
Import TriviaRoom.
Variable user : User.t.
Variable room : Room.t.


End OnScreenFacts.



(** Players with equal scores keep, on every leaderboard, the order they
    had before sorting: for each score, the rows with that score appear
    in the sorted list in their original order. *)
Theorem sortPlayers_stable (l : list Player.t) (v : Z) :
  filter (fun p => (Player.score p =? v)%Z) (sortPlayers l)
  = filter (fun p => (Player.score p =? v)%Z) l.
Proof.
  unfold sortPlayers, sortBy.
  induction l as [|x l IH]; simpl; [reflexivity|].
  rewrite <- IH. generalize (fold_right (insertBy byScoreDesc) [] l).
  intros s. induction s as [|y s IHs]; simpl; [reflexivity|].
  unfold byScoreDesc at 1.
  destruct (Z.leb_spec (Player.score y - Player.score x) 0) as [Hle|Hgt].
  - reflexivity.
  - simpl. rewrite IHs.
    destruct (Z.eqb_spec (Player.score x) v) as [Hx|Hx];
      destruct (Z.eqb_spec (Player.score y) v) as [Hy|Hy];
      try reflexivity.
    lia.
Qed.

(* ------------------------------------------------------------------ *)
(** ** The room view: a load that fails *)

Section FailedLoad.
Import TriviaRoom.
Variable user : User.t.
Variable room : Room.t.




End FailedLoad.



(* ------------------------------------------------------------------ *)
(** ** The room view: what a click writes *)

Section ClickFacts.
Import TriviaRoom.
Variable user : User.t.
Variable room : Room.t.

(** The whole effect on the environment and on the pending timeouts of
    an accepted [submitAnswer], for the handler of any render [cl] run on
    any state [w]. *)
Lemma submitAnswerOf_effect (cl : State) (answer answerId : str)
      (okAnswer okScore : bool) (w : World) (q : Question.t) :
  hasAnswered cl = false -> currentQuestion cl = Some q ->
  let correct := Js.eqb answer (Question.correctAnswer q) in
  let cp := currentPlayerOf user cl in
  let a := newAnswer user room answerId q answer in
  let failed := submitFails okAnswer okScore correct cp in
  exists w1,
    submitAnswerOf user room cl answer answerId okAnswer okScore w
    = (w1, Some tt)
    /\ db (env w1)
       = scoreUpdate okAnswer okScore correct cp
           (if okAnswer then db_gameAnswers_create a (db (env w))
            else db (env w))
    /\ calls (env w1)
       = calls (env w)
         ++ GameAnswersCreate a
            :: (if okAnswer && correct
                then match cp with
                     | Some c => [PlayersUpdate (Player.id c)
                                                (Player.score c + 100)]
                     | None => []
                     end
                else [])
    /\ toasts (env w1)
       = toasts (env w)
         ++ (if failed then [errorToast "Failed to submit answer"] else [])
    /\ pending w1
       = pending w
         ++ (if failed then []
             else [ShowThenNext (questionIndex cl) (questions cl)]).
Proof.
  destruct w as [[d c t] s p l sg]. intros Hh Hq.
  unfold currentPlayerOf, submitFails, scoreUpdate. cbv zeta.
  room_run. rewrite Hq, Hh. unfold newAnswer.
  destruct okAnswer; room_proj;
    [destruct (Js.eqb answer (Question.correctAnswer q)); room_proj;
     [destruct (find _ (players cl)) as [c0|]; room_proj;
      [destruct okScore; room_proj|]|]|];
    (eexists; split; [reflexivity|]; room_proj; cbn [andb orb negb];
     rewrite <- ?app_assoc, ?app_nil_r; repeat split;
     try reflexivity).
  all: destruct (find _ (players cl)); reflexivity.
Qed.

(** The same for the handler of the current render. *)
Lemma submitAnswer_effect (answer answerId : str) (okAnswer okScore : bool)
      (w : World) (q : Question.t) :
  hasAnswered (ui w) = false -> currentQuestion (ui w) = Some q ->
  let correct := Js.eqb answer (Question.correctAnswer q) in
  let cp := currentPlayerOf user (ui w) in
  let a := newAnswer user room answerId q answer in
  let failed := submitFails okAnswer okScore correct cp in
  exists w1,
    submitAnswer user room answer answerId okAnswer okScore w = (w1, Some tt)
    /\ db (env w1)
       = scoreUpdate okAnswer okScore correct cp
           (if okAnswer then db_gameAnswers_create a (db (env w))
            else db (env w))
    /\ calls (env w1)
       = calls (env w)
         ++ GameAnswersCreate a
            :: (if okAnswer && correct
                then match cp with
                     | Some c => [PlayersUpdate (Player.id c)
                                                (Player.score c + 100)]
                     | None => []
                     end
                else [])
    /\ toasts (env w1)
       = toasts (env w)
         ++ (if failed then [errorToast "Failed to submit answer"] else [])
    /\ pending w1
       = pending w
         ++ (if failed then []
             else [ShowThenNext (questionIndex (ui w)) (questions (ui w))]).
Proof.
  intros Hh Hq.
  exact (submitAnswerOf_effect (ui w) answer answerId okAnswer okScore w q
           Hh Hq).
Qed.

Lemma optionButtons_keys (s : State) (k : str) :
  In k (map key (optionButtons s)) ->
  In k [lit "A"; lit "B"; lit "C"; lit "D"].
Proof.
  unfold optionButtons. destruct (currentQuestion s); [|contradiction].
  exact (fun H => H).
Qed.

Lemma offers_SubmitAnswer_key (s : State) (k : str) :
  offers user room s (SubmitAnswer k) = true ->
  In k [lit "A"; lit "B"; lit "C"; lit "D"].
Proof.
  intros H. apply offers_In in H. revert H. unfold render.
  destruct (loading s); [simpl; tauto|].
  destruct (gameStatus s); cbn [GameStatus_eqb offered].
  - destruct (isHost user room); simpl; intuition discriminate.
  - intros [H|H]; [discriminate|].
    apply in_app_iff in H as [H|H]; [|simpl in H; intuition discriminate].
    apply in_map_iff in H as [x [Hx Hin]].
    apply filter_In in Hin as [Hin _]. injection Hx as <-.
    apply (optionButtons_keys s). now apply in_map.
  - simpl. intuition discriminate.
Qed.

(** An answer button that a screen offers: its key is one of the four,
    and the render it was made in had a current question and nothing
    answered. *)
Lemma offered_SubmitAnswer (s : State) (k : str) :
  In (SubmitAnswer k) (offered (render user room s)) ->
  In k [lit "A"; lit "B"; lit "C"; lit "D"]
  /\ hasAnswered s = false
  /\ exists q, currentQuestion s = Some q.
Proof.
  intros H.
  assert (Ho : offers user room s (SubmitAnswer k) = true).
  { unfold offers. apply existsb_exists. exists (SubmitAnswer k).
    split; [exact H|]. cbn. apply Js_eqb_refl. }
  split; [exact (offers_SubmitAnswer_key s k Ho)|].
  now apply offers_SubmitAnswer in Ho as (_ & _ & Hh & Hq).
Qed.

End ClickFacts.

Section StoreFacts.
Import TriviaRoom.
Variable user : User.t.
Variable room : Room.t.

(** A handler that changes no cell is followed by no effect, and the
    render leaves an ordered player list alone. *)
Lemma commit_quiet (h : Eff World unit) (w w1 : World) :
  h w = (w1, Some tt) -> ui w1 = ui w -> descending (players (ui w)) ->
  ui (exec (commit false h) w) = ui w
  /\ pending (exec (commit false h) w) = pending w1
  /\ env (exec (commit false h) w) = env w1.
Proof.
  intros Hh Hui Hd.
  destruct (commit_run false h w w1 Hh) as (He & _ & _ & Hp).
  rewrite Hui in Hp.
  rewrite (depsChanged_same _ _ (sameGame_refl _)) in Hp.
  cbn [orb] in Hp. rewrite expiryTasks_none, app_nil_r in Hp.
  split; [|split; assumption].
  room_unfold. rewrite Hh. destruct w1 as [e1 s1 p1 l1 sg1]. cbn [ui] in Hui.
  subst s1. room_proj.
  rewrite (depsChanged_same _ _ (sameGame_refl _)). cbn [orb].
  room_cases; [reflexivity|].
  rewrite (sortPlayers_fixed _ Hd). now destruct (ui w).
Qed.

(** Ticks and timeouts make no call and show no toast. *)
Lemma timer_step_env (ev : Event) (w w' : World) :
  ev = Tick \/ (exists n, ev = Timeout n) ->
  step user room ev w = Some w' -> env w' = env w.
Proof.
  intros [->|[n ->]] Hstep; cbn [step] in Hstep.
  - destruct (ticking (ui w)); [|discriminate]. injection Hstep as <-.
    now destruct (commit_run false _ w _ (tick_run w)) as (-> & _).
  - destruct (nth_error (pending w) n) as [t|]; [|discriminate].
    injection Hstep as <-.
    change (exec (takeTask n ;; commit false (runTask t)) w)
      with (exec (commit false (runTask t))
                 (mk (env w) (ui w) (dropNth n (pending w)) (loadInFlight w) (starting w))).
    set (w0 := mk (env w) (ui w) (dropNth n (pending w)) (loadInFlight w) (starting w)).
    destruct t as [qi qs|qi qs].
    + assert (Hrun : runTask (ShowThenNext qi qs) w0
                     = (mk (env w)
                           (mkState (players (ui w)) (questions (ui w))
                              (currentQuestion (ui w)) (gameStatus (ui w))
                              (timeLeft (ui w)) (selectedAnswer (ui w))
                              (hasAnswered (ui w)) true
                              (questionIndex (ui w)) (loading (ui w)))
                           (dropNth n (pending w) ++ [Next qi qs])
                           (loadInFlight w) (starting w), Some tt)) by reflexivity.
      now destruct (commit_run false _ w0 _ Hrun) as (-> & _).
    + cbn [runTask].
      destruct (Nat.le_gt_cases (List.length qs) (qi + 1)) as [Hfin|Hadv].
      * now destruct (commit_run false _ w0 _
                        (nextQuestion_finish qi qs w0 Hfin)) as (-> & _).
      * now destruct (commit_run false _ w0 _
                        (nextQuestion_advance qi qs w0 Hadv)) as (-> & _).
Qed.

Lemma sendReaction_env (emoji : str) (ok : bool) (w : World) :
  sendReaction user room emoji ok w
  = (mk (mkEnv (db (env w))
               (calls (env w)
                ++ [Publish (lit "trivia-" ++ Room.id room) emoji (User.id user)
                      (match currentPlayerOf user (ui w) with
                       | Some p => Js.or (Player.displayName p) (lit "Player")
                       | None => lit "Player"
                       end)])
               (toasts (env w)))
        (ui w) (pending w) (loadInFlight w) (starting w), Some tt).
Proof. destruct w as [[d c t] s p l sg]. destruct ok; reflexivity. Qed.

Lemma In_reactions (s : State) (e : str) :
  offers user room s (SendReaction e) = true -> In e reactions.
Proof.
  intros H. apply offers_In in H. revert H. unfold render.
  destruct (loading s); [simpl; tauto|].
  destruct (gameStatus s); cbn [GameStatus_eqb offered].
  - destruct (isHost user room); simpl; intuition discriminate.
  - intros [H|H]; [discriminate|].
    apply in_app_iff in H as [H|H].
    + apply in_map_iff in H as [x [Hx _]]. discriminate.
    + apply in_map_iff in H as [x [Hx Hin]]. now injection Hx as <-.
  - simpl. intuition discriminate.
Qed.

End StoreFacts.

(** A reaction changes nothing in the view or in the store, whether the
    publish call goes through or not, and its failure is not shown: the
    only trace is the one publish call on the room's channel, carrying the
    user's id and the name of the user's loaded row (or [Player]). *)
Theorem reaction_changes_nothing
  (user : User.t) (room : Room.t) (emoji : str) (ok : bool)
  (w w' : TriviaRoom.World) :
  TriviaRoom.reachable user room w ->
  TriviaRoom.step user room (TriviaRoom.ClickReaction emoji ok) w = Some w' ->
  In emoji TriviaRoom.reactions
  /\ TriviaRoom.ui w' = TriviaRoom.ui w
  /\ TriviaRoom.pending w' = TriviaRoom.pending w
  /\ db (TriviaRoom.env w') = db (TriviaRoom.env w)
  /\ toasts (TriviaRoom.env w') = toasts (TriviaRoom.env w)
  /\ calls (TriviaRoom.env w')
     = calls (TriviaRoom.env w)
       ++ [Publish (lit "trivia-" ++ Room.id room) emoji (User.id user)
             (match currentPlayerOf user (TriviaRoom.ui w) with
              | Some p => Js.or (Player.displayName p) (lit "Player")
              | None => lit "Player"
              end)].
Proof.
  intros Hr Hstep. cbn [TriviaRoom.step] in Hstep.
  destruct (TriviaRoom.offers user room (TriviaRoom.ui w)
              (TriviaRoom.SendReaction emoji)) eqn:Eo; [|discriminate].
  injection Hstep as <-.
  destruct (reachable_Shown user room w Hr) as (Hd & _).
  destruct (commit_quiet _ w _ (sendReaction_env user room emoji ok w)
              eq_refl Hd) as (Hui & Hp & He).
  split; [now apply (In_reactions user room (TriviaRoom.ui w))|].
  rewrite Hui, Hp, He. repeat split.
Qed.

Lemma reaction_changes_nothing_witness :
  db (TriviaRoom.env
        (exec (TriviaRoom.commit false
                 (TriviaRoom.sendReaction Demo.alice Demo.quiz [0x201A; 0xF6; 0xB0]%N false))
              Demo.started)) = db (TriviaRoom.env Demo.started).
Proof.
  apply (reaction_changes_nothing Demo.alice Demo.quiz [0x201A; 0xF6; 0xB0]%N false
           Demo.started).
  - exists Demo.env0, Demo.opening. vm_compute. reflexivity.
  - vm_compute. reflexivity.
Defined.

Lemma Forall2_refl_or {A} (R : A -> A -> Prop) (l : list A) :
  Forall2 (fun p p' => p' = p \/ R p p') l l.
Proof. induction l; constructor; auto. Qed.

Lemma Forall2_updScore (id : str) (sc : Z) (l : list Player.t) :
  Forall2 (fun p p' =>
             p' = p
             \/ (Player.id p = id
                 /\ p' = Player.mk (Player.id p) (Player.roomId p)
                           (Player.userId p) (Player.displayName p) sc))
          l (map (updScore id sc) l).
Proof.
  induction l as [|p l IH]; simpl; constructor; [|exact IH].
  unfold updScore. destruct (Js.eqb (Player.id p) id) eqn:E; [|now left].
  right. apply Js_eqb_eq in E. auto.
Qed.

(** What a click on an answer button writes to the store, for a button
    of any render [cl] of the view (the handler reads the question and
    the player rows of the render its card was made in) and any state [w]
    in which the click arrives.  The key is one of A to D; the rooms and
    questions tables are untouched; the answers table gets the one new
    row, for the question of that render, when its call goes through; in
    the players table only rows with the id of the user's row in that
    render can change, and only their score, to that row's score plus
    100, which takes a correct answer and both calls going through.  A
    question whose [correctAnswer] is not one of A to D can never be
    answered correctly. *)
Theorem answer_click_store_effect
  (user : User.t) (room : Room.t) (cl : TriviaRoom.State)
  (k answerId : str) (okAnswer okScore : bool) (w : TriviaRoom.World) :
  In (TriviaRoom.SubmitAnswer k)
     (TriviaRoom.offered (TriviaRoom.render user room cl)) ->
  let w' :=
    exec (TriviaRoom.submitAnswerOf user room cl k answerId okAnswer okScore)
         w in
  exists q,
    TriviaRoom.currentQuestion cl = Some q
    /\ In k [lit "A"; lit "B"; lit "C"; lit "D"]
    /\ tbl_rooms (db (TriviaRoom.env w')) = tbl_rooms (db (TriviaRoom.env w))
    /\ tbl_questions (db (TriviaRoom.env w'))
       = tbl_questions (db (TriviaRoom.env w))
    /\ tbl_gameAnswers (db (TriviaRoom.env w'))
       = tbl_gameAnswers (db (TriviaRoom.env w))
         ++ (if okAnswer
             then [TriviaRoom.newAnswer user room answerId q k] else [])
    /\ Forall2
         (fun p p' =>
            p' = p
            \/ exists c,
                 currentPlayerOf user cl = Some c
                 /\ okAnswer = true /\ okScore = true
                 /\ k = Question.correctAnswer q
                 /\ Player.id p = Player.id c
                 /\ p' = Player.mk (Player.id p) (Player.roomId p)
                           (Player.userId p) (Player.displayName p)
                           (Player.score c + 100))
         (tbl_players (db (TriviaRoom.env w)))
         (tbl_players (db (TriviaRoom.env w')))
    /\ (~ In (Question.correctAnswer q) [lit "A"; lit "B"; lit "C"; lit "D"] ->
        GameAnswer.isCorrect (TriviaRoom.newAnswer user room answerId q k)
        = false
        /\ tbl_players (db (TriviaRoom.env w'))
           = tbl_players (db (TriviaRoom.env w))).
Proof.
  intros Hoff w'.
  apply offered_SubmitAnswer in Hoff as (Hk & Hh & q & Hq).
  destruct (submitAnswerOf_effect user room cl k answerId okAnswer okScore
              w q Hh Hq) as (w1 & Hrun & Hdb & _).
  unfold w', exec. rewrite Hrun. cbn [fst]. rewrite Hdb. clear Hdb Hrun w'.
  exists q. split; [exact Hq|]. split; [exact Hk|].
  set (d := db (TriviaRoom.env w)).
  unfold scoreUpdate, TriviaRoom.newAnswer. cbn [GameAnswer.isCorrect].
  assert (Hwrong : ~ In (Question.correctAnswer q)
                        [lit "A"; lit "B"; lit "C"; lit "D"] ->
                   Js.eqb k (Question.correctAnswer q) = false).
  { intros Hn. destruct (Js.eqb k (Question.correctAnswer q)) eqn:E;
      [|reflexivity].
    apply Js_eqb_eq in E. subst k. contradiction. }
  destruct (Js.eqb k (Question.correctAnswer q)) eqn:E.
  - apply Js_eqb_eq in E.
    destruct (currentPlayerOf user cl) as [c|] eqn:Ec,
      okAnswer, okScore; cbn;
      repeat match goal with |- _ /\ _ => split end;
      rewrite ?app_nil_r; try reflexivity;
      try (intros Hn; apply Hwrong in Hn; discriminate);
      try apply Forall2_refl_or.
    eapply Forall2_impl; [|apply Forall2_updScore].
    intros p p' [->|[Hid ->]]; [now left|].
    right. exists c. repeat split; auto.
  - destruct (currentPlayerOf user cl) as [c|] eqn:Ec,
      okAnswer, okScore; cbn;
      repeat match goal with |- _ /\ _ => split end;
      rewrite ?app_nil_r; try reflexivity;
      try (intros _; split; reflexivity);
      apply Forall2_refl_or.
Qed.

Lemma answer_click_store_effect_witness :
  exists q,
    TriviaRoom.currentQuestion (TriviaRoom.ui Demo.started) = Some q
    /\ tbl_gameAnswers
         (db (TriviaRoom.env
                (exec (TriviaRoom.submitAnswerOf Demo.alice Demo.quiz
                         (TriviaRoom.ui Demo.started)
                         (lit "B") (lit "a9") true true)
                      (Demo.after Demo.twoCorrect))))
       = tbl_gameAnswers (db (TriviaRoom.env (Demo.after Demo.twoCorrect)))
         ++ [TriviaRoom.newAnswer Demo.alice Demo.quiz (lit "a9") q (lit "B")].
Proof.
  destruct (answer_click_store_effect Demo.alice Demo.quiz
              (TriviaRoom.ui Demo.started) (lit "B") (lit "a9") true true
              (Demo.after Demo.twoCorrect))
    as (q & Hq & _ & _ & _ & Ha & _).
  - vm_compute. auto 10.
  - exists q. split; [exact Hq|exact Ha].
Defined.

(* ------------------------------------------------------------------ *)
(** ** The room view: an answer the store rejects *)

Section BlockedFacts.
Import TriviaRoom.
Variable user : User.t.
Variable room : Room.t.

Lemma expiryTasks_answered (ran : bool) (s : State) :
  hasAnswered s = true -> expiryTasks ran s = [].
Proof.
  intros Hh. unfold expiryTasks. rewrite Hh. cbn. now rewrite !andb_false_r.
Qed.




End BlockedFacts.



(* ------------------------------------------------------------------ *)
(** ** The room view: whole games *)

Section RoundFacts.
Import TriviaRoom.
Variable user : User.t.
Variable room : Room.t.

Lemma run_app (evs1 evs2 : list Event) (w : World) :
  run user room (evs1 ++ evs2) w
  = match run user room evs1 w with
    | Some w1 => run user room evs2 w1
    | None => None
    end.
Proof.
  revert w. induction evs1 as [|ev evs1 IH]; intros w; simpl; [reflexivity|].
  destruct (step user room ev w); [apply IH|reflexivity].
Qed.

Lemma depsChanged_time (a b : State) :
  timeLeft a <> timeLeft b -> depsChanged a b = true.
Proof.
  intros H. unfold depsChanged. apply Z.eqb_neq in H. rewrite H.
  now rewrite andb_false_r.
Qed.

Lemma depsChanged_status (a b : State) :
  gameStatus a <> gameStatus b -> depsChanged a b = true.
Proof.
  intros H. unfold depsChanged.
  destruct (gameStatus a), (gameStatus b); try reflexivity; contradiction.
Qed.

(** The state a commit produces, cell by cell. *)
Lemma commit_fields (reloaded : bool) (h : Eff World unit) (w w1 : World) :
  h w = (w1, Some tt) -> descending (players (ui w1)) ->
  let w' := exec (commit reloaded h) w in
  loading (ui w') = loading (ui w1)
  /\ loadInFlight w' = loadInFlight w1
  /\ gameStatus (ui w') = gameStatus (ui w1)
  /\ timeLeft (ui w') = timeLeft (ui w1)
  /\ hasAnswered (ui w') = hasAnswered (ui w1)
  /\ questionIndex (ui w') = questionIndex (ui w1)
  /\ questions (ui w') = questions (ui w1)
  /\ currentQuestion (ui w') = currentQuestion (ui w1)
  /\ players (ui w') = players (ui w1)
  /\ env w' = env w1
  /\ pending w'
     = pending w1
       ++ expiryTasks (reloaded || depsChanged (ui w) (ui w1)) (ui w1).
Proof.
  intros Hh Hd w'.
  destruct (commit_run reloaded h w w1 Hh) as (He & Hl & Hg & Hp).
  pose proof (commit_players reloaded h w w1 Hh Hd) as Hpl.
  destruct Hg as (Hq & Hc & Hs & Ht & _ & Hha & Hi & Hld).
  unfold w'. repeat split; auto.
Qed.

(** One tick of the countdown; reaching 0 queues the expiry timeout. *)
Lemma tick_counting (t : Z) (i : nat) (qs : list Question.t)
      (ps : list Player.t) (e : Env) (w : World) :
  Counting t i qs ps e [] w -> (0 < t)%Z ->
  exists w',
    step user room Tick w = Some w'
    /\ Counting (t - 1) i qs ps e
         (if (t - 1 =? 0)%Z then [Next i qs] else []) w'.
Proof.
  intros (Hld & Hl & Hs & Ht & Hh & Hi & Hq & Hc & Hps & Hd & He & Hp) Hpos.
  rewrite <- Hps in Hd.
  assert (Htk : ticking (ui w) = true).
  { unfold ticking. rewrite Hs, Ht, Hh. apply Z.ltb_lt in Hpos.
    now rewrite Hpos. }
  exists (exec (commit false tick) w). split.
  { cbn [step]. now rewrite Htk. }
  destruct (commit_fields false _ w _ (tick_run w) Hd)
    as (A1 & A2 & A3 & A4 & A5 & A6 & A7 & A8 & A9 & A10 & A11).
  cbn [ui pending loadInFlight env loading gameStatus timeLeft hasAnswered
       questionIndex questions currentQuestion players] in *.
  unfold Counting. cbv zeta.
  rewrite A1, A2, A3, A4, A5, A6, A7, A8, A9, A10, A11.
  repeat split; try congruence.
  rewrite Hp. cbn [app].
  rewrite depsChanged_time by (cbn; lia).
  unfold expiryTasks, ticking. cbn [orb andb timeLeft gameStatus hasAnswered
                                    questionIndex questions].
  rewrite Hs, Hh, Ht, Hi, Hq. cbn [GameStatus_eqb andb negb].
  destruct (Z.eqb_spec (t - 1) 0) as [Hz|Hz].
  - rewrite Hz. reflexivity.
  - assert (Hlt : (0 <? t - 1)%Z = true) by (apply Z.ltb_lt; lia).
    rewrite Hlt. reflexivity.
Qed.

Lemma ticks_counting (k i : nat) (qs : list Question.t) (ps : list Player.t)
      (e : Env) (w : World) :
  Counting (Z.of_nat (S k)) i qs ps e [] w ->
  exists w',
    run user room (repeat Tick (S k)) w = Some w'
    /\ Counting 0 i qs ps e [Next i qs] w'.
Proof.
  revert w. induction k as [|k IH]; intros w Hc.
  - destruct (tick_counting _ i qs ps e w Hc) as (w' & Hs & Hc'); [lia|].
    exists w'. cbn [repeat run]. rewrite Hs. split; [reflexivity|exact Hc'].
  - destruct (tick_counting _ i qs ps e w Hc) as (w1 & Hs & Hc1); [lia|].
    replace (Z.of_nat (S (S k)) - 1)%Z with (Z.of_nat (S k)) in Hc1 by lia.
    destruct (Z.eqb_spec (Z.of_nat (S k)) 0) as [Hz|_]; [lia|].
    destruct (IH w1 Hc1) as (w' & Hr & Hc').
    exists w'. split; [|exact Hc'].
    change (repeat Tick (S (S k))) with (Tick :: repeat Tick (S k)).
    cbn [run]. rewrite Hs. exact Hr.
Qed.

End RoundFacts.

Section GameFacts.
Import TriviaRoom.
Variable user : User.t.
Variable room : Room.t.

Lemma expiryTasks_time (ran : bool) (s : State) :
  timeLeft s <> 0%Z -> expiryTasks ran s = [].
Proof.
  intros H. unfold expiryTasks. apply Z.eqb_neq in H. rewrite H.
  now rewrite andb_false_r.
Qed.

Lemma Counting_Closing (i : nat) (qs : list Question.t) (ps : list Player.t)
      (e : Env) (w : World) :
  Counting 0 i qs ps e [Next i qs] w -> Closing i qs ps e w.
Proof.
  intros (Hld & Hl & Hs & _ & _ & _ & Hq & _ & Hps & Hd & He & Hp).
  repeat split; assumption.
Qed.

(** The pending [nextQuestion] fires: the next question starts, or the
    game is over when there is none. *)
Lemma closing_fires (i : nat) (qs : list Question.t) (ps : list Player.t)
      (e : Env) (w : World) :
  Closing i qs ps e w ->
  exists w',
    step user room (Timeout 0) w = Some w'
    /\ (i + 1 < List.length qs -> AtQuestion (i + 1) qs ps e w')
    /\ (List.length qs <= i + 1 -> Over ps e w').
Proof.
  intros (Hld & Hl & Hs & Hq & Hps & Hd & He & Hp).
  rewrite <- Hps in Hd.
  set (w0 := mk (env w) (ui w) (dropNth 0 (pending w)) (loadInFlight w) (starting w)).
  assert (Hp0 : pending w0 = []) by (cbn [pending w0]; now rewrite Hp).
  exists (exec (commit false (nextQuestion i qs)) w0). split.
  { cbn [step]. rewrite Hp. reflexivity. }
  split; intros Hlen.
  - pose proof (nextQuestion_advance i qs w0 Hlen) as Hrun.
    destruct (commit_fields false _ w0 _ Hrun Hd)
      as (A1 & A2 & A3 & A4 & A5 & A6 & A7 & A8 & A9 & A10 & A11).
    cbn [ui pending loadInFlight env loading gameStatus timeLeft hasAnswered
         questionIndex questions currentQuestion players w0] in *.
    unfold AtQuestion, Counting. cbv zeta.
    rewrite A1, A2, A3, A4, A5, A6, A7, A8, A9, A10, A11.
    repeat split; try congruence.
    fold w0. rewrite Hp0. cbn [app].
    unfold expiryTasks, ticking.
    cbn [timeLeft gameStatus hasAnswered]. rewrite Hs.
    cbn. now rewrite andb_false_r.
  - pose proof (nextQuestion_finish i qs w0 Hlen) as Hrun.
    destruct (commit_fields false _ w0 _ Hrun Hd)
      as (A1 & A2 & A3 & A4 & A5 & A6 & A7 & A8 & A9 & A10 & A11).
    cbn [ui pending loadInFlight env loading gameStatus timeLeft hasAnswered
         questionIndex questions currentQuestion players w0] in *.
    unfold Over. rewrite A1, A3, A9, A10. repeat split; congruence.
Qed.

(** A question left unanswered. *)
Lemma idle_round (i : nat) (qs : list Question.t) (ps : list Player.t)
      (e : Env) (w : World) :
  AtQuestion i qs ps e w ->
  exists w',
    run user room idleRound w = Some w'
    /\ (i + 1 < List.length qs -> AtQuestion (i + 1) qs ps e w')
    /\ (List.length qs <= i + 1 -> Over ps e w').
Proof.
  intros Hc. unfold idleRound.
  destruct (ticks_counting user room 14 i qs ps e w Hc) as (w1 & Hr & Hc1).
  destruct (closing_fires i qs ps e w1 (Counting_Closing _ _ _ _ _ Hc1))
    as (w' & Hs & Ha & Ho).
  exists w'. split; [|split; assumption].
  rewrite run_app, Hr. cbn [run]. now rewrite Hs.
Qed.

(** Idle rounds from question [i] to the end. *)
Lemma idle_rounds (n i : nat) (qs : list Question.t) (ps : list Player.t)
      (e : Env) (w : World) :
  AtQuestion i qs ps e w -> i + S n = Nat.max 1 (List.length qs) ->
  exists w',
    run user room (List.concat (repeat idleRound (S n))) w = Some w'
    /\ Over ps e w'.
Proof.
  revert i w. induction n as [|n IH]; intros i w Hc Hn.
  - destruct (idle_round i qs ps e w Hc) as (w' & Hr & _ & Ho).
    exists w'. cbn [repeat List.concat]. rewrite app_nil_r.
    split; [exact Hr|]. apply Ho. lia.
  - destruct (idle_round i qs ps e w Hc) as (w1 & Hr & Ha & _).
    destruct (IH (i + 1) w1) as (w' & Hr' & Ho); [apply Ha; lia|lia|].
    exists w'. split; [|exact Ho].
    change (List.concat (repeat idleRound (S (S n))))
      with (idleRound ++ List.concat (repeat idleRound (S n))).
    now rewrite run_app, Hr.
Qed.

Lemma offers_StartGame_true (s : State) :
  loading s = false -> gameStatus s = waiting -> isHost user room = true ->
  offers user room s StartGame = true.
Proof.
  intros Hl Hs Hh. unfold offers, render. rewrite Hl, Hs, Hh. reflexivity.
Qed.

Lemma loadGameData_env (e : Env) :
  exists w1,
    loadGameData room true true (mk e initState [] false 0) = (w1, Some tt)
    /\ env w1 = mkEnv (db e)
                      (calls e ++ [PlayersList (Room.id room); QuestionsList])
                      (toasts e).
Proof.
  destruct e as [d c t]. room_run.
  destruct (0 <? List.length (db_questions_list d)); room_proj;
    eexists; (split; [reflexivity|]); cbn; now rewrite <- app_assoc.
Qed.

(** The host loads and starts: the first question is up. *)
Lemma startUp_run (e : Env) :
  isHost user room = true ->
  exists w,
    run user room startUp (init e) = Some w
    /\ AtQuestion 0 (loadedQuestions true true (db e))
         (loadedPlayers room true (db e)) (startedEnv room e) w.
Proof.
  intros Hh.
  destruct (step_Loaded user room true true e)
    as (w1 & Hs1 & HI & HS & Hl & Hp & Hq & Hld & Hst & Hpe & Hdb & Ht).
  cbn [andb negb] in Hld.
  assert (He1 : env w1 = mkEnv (db e)
                  (calls e ++ [PlayersList (Room.id room); QuestionsList])
                  (toasts e)).
  { destruct (loadGameData_env e) as (w2 & Hrun & He).
    cbn [step init loadInFlight] in Hs1. injection Hs1 as <-.
    change (exec (loadSettled ;; commit true (loadGameData room true true))
                 (init e))
      with (exec (commit true (loadGameData room true true))
                 (mk e initState [] false 0)).
    destruct (commit_run true _ _ w2 Hrun) as (-> & _). exact He. }
  exists (exec (commit false (startGame room true)) w1). split.
  { unfold startUp. cbn [run]. rewrite Hs1. cbn [step].
    now rewrite (offers_StartGame_true _ Hld Hst Hh). }
  destruct (step_Shown user room _ _ _ (Inv_init e) (Shown_init e) Hs1)
    as (_ & _ & HX).
  destruct (HX (InStep_init e)) as (_ & Hc); [discriminate|].
  destruct HS as (Hd & _ & Hi & Hw0).
  destruct (commit_fields false _ w1 _ (startGame_ok room w1) Hd)
    as (A1 & A2 & A3 & A4 & A5 & A6 & A7 & A8 & A9 & A10 & A11).
  cbn [ui pending loadInFlight env loading gameStatus timeLeft hasAnswered
       questionIndex questions currentQuestion players] in *.
  unfold AtQuestion, Counting. cbv zeta.
  rewrite A1, A2, A3, A4, A5, A6, A7, A8, A9, A10, A11.
  pose proof (loadedPlayers_descending room true (db e)) as Hd'.
  destruct (loadGameData_ui room true true e)
    as (w2 & Hrun2 & _ & _ & _ & _ & _ & Hha & _).
  assert (Hha1 : hasAnswered (ui w1) = false).
  { cbn [step init loadInFlight] in Hs1. injection Hs1 as <-.
    change (exec (loadSettled ;; commit true (loadGameData room true true))
                 (init e))
      with (exec (commit true (loadGameData room true true))
                 (mk e initState [] false 0)).
    destruct (commit_sameGame true _ _ w2 Hrun2)
      as (_ & _ & _ & _ & _ & <- & _). exact Hha. }
  rewrite (Hw0 Hst) in Hc.
  repeat split; try congruence.
  - rewrite He1. unfold startedEnv. cbn. now rewrite <- app_assoc.
  - rewrite Hpe. cbn [app]. apply expiryTasks_time. cbn. discriminate.
Qed.

End GameFacts.

(** A host who starts the game and never answers is taken through the
    loaded questions, one expiry of the countdown after the other, to the
    finished screen (one round when no question was loaded).  The run
    makes no store call beyond the two lists and the room update, so no
    answer row is written and no score changes, and the final leaderboard
    is the list loaded at mount. *)
Theorem idle_game_finishes (user : User.t) (room : Room.t) (e : Env) :
  User.id user = Room.hostUserId room ->
  let rounds := Nat.max 1 (List.length (db_questions_list (db e))) in
  exists w,
    TriviaRoom.run user room
      (startUp ++ List.concat (repeat idleRound rounds)) (TriviaRoom.init e)
    = Some w
    /\ TriviaRoom.gameStatus (TriviaRoom.ui w) = finished
    /\ TriviaRoom.players (TriviaRoom.ui w)
       = db_players_list (Room.id room) (db e)
    /\ calls (TriviaRoom.env w)
       = calls e ++ [PlayersList (Room.id room); QuestionsList;
                     RoomsUpdate (Room.id room) playing 0]
    /\ tbl_gameAnswers (db (TriviaRoom.env w)) = tbl_gameAnswers (db e)
    /\ tbl_players (db (TriviaRoom.env w)) = tbl_players (db e).
Proof.
  intros Hh rounds. apply isHost_iff in Hh.
  destruct (startUp_run user room e Hh) as (w0 & Hr0 & Ha).
  cbn [andb loadedQuestions loadedPlayers] in Ha.
  assert (Hn : exists n, rounds = S n).
  { unfold rounds.
    destruct (Nat.max 1 (List.length (db_questions_list (db e)))) eqn:E;
      [lia|eauto]. }
  destruct Hn as [n Hn]. rewrite Hn.
  destruct (idle_rounds user room n 0 _ _ _ w0 Ha) as (w & Hr & Ho).
  { unfold rounds in Hn. lia. }
  exists w. rewrite run_app, Hr0. split; [exact Hr|].
  destruct Ho as (_ & Hs & Hp & He). rewrite He.
  repeat split; assumption.
Qed.

Lemma idle_game_finishes_witness :
  exists w,
    TriviaRoom.run Demo.alice Demo.quiz
      (startUp ++ List.concat (repeat idleRound 3)) (TriviaRoom.init Demo.env0)
    = Some w
    /\ TriviaRoom.gameStatus (TriviaRoom.ui w) = finished.
Proof.
  destruct (idle_game_finishes Demo.alice Demo.quiz Demo.env0)
    as (w & Hr & Hs & _).
  - reflexivity.
  - exists w. split; [exact Hr|exact Hs].
Defined.

Section PromptFacts.
Import TriviaRoom.
Variable user : User.t.
Variable room : Room.t.

Lemma offers_SubmitAnswer_true (s : State) (q : Question.t) (k : str) :
  loading s = false -> gameStatus s = playing -> hasAnswered s = false ->
  currentQuestion s = Some q -> In k answerKeys ->
  offers user room s (SubmitAnswer k) = true.
Proof.
  intros Hl Hs Hh Hq Hk. unfold offers, render, optionButtons.
  rewrite Hl, Hs, Hq, Hh. cbn [GameStatus_eqb offered filter negb disabled map key].
  destruct Hk as [<-|[<-|[<-|[<-|[]]]]]; reflexivity.
Qed.

Lemma Env_eq (e : Env) (d : Db) (c : list Call) (t : list Toast) :
  db e = d -> calls e = c -> toasts e = t -> e = mkEnv d c t.
Proof. destruct e. cbn. congruence. Qed.

Lemma submitFails_ok (correct : bool) (cp : option Player.t) :
  submitFails true true correct cp = false.
Proof. unfold submitFails. cbn. now rewrite andb_false_r. Qed.

(** A question answered at once, up to the pending [nextQuestion]. *)
Lemma answer_closes (i : nat) (qs : list Question.t) (ps : list Player.t)
      (e : Env) (w : World) (q : Question.t) (k a : str) :
  AtQuestion i qs ps e w -> nth_error qs i = Some q -> In k answerKeys ->
  exists w',
    run user room [ClickAnswer k a true true; Timeout 0] w = Some w'
    /\ Closing i qs ps
         (answeredEnv user room
            (find (fun p => Js.eqb (Player.userId p) (User.id user)) ps)
            e q k a) w'.
Proof.
  intros (Hld & Hl & Hs & Ht & Hh & Hi & Hq & Hc & Hps & Hd & He & Hp) Hnth Hk.
  rewrite Hnth in Hc.
  destruct (submitAnswer_accepted user room k a true true w q Hh Hc)
    as (w1 & Hrun & Hui & Hl1 & _).
  destruct (submitAnswer_effect user room k a true true w q Hh Hc)
    as (w1' & Hrun' & Hdb & Hcalls & Htoasts & Hpend).
  rewrite Hrun in Hrun'. injection Hrun' as <-.
  rewrite submitFails_ok in Htoasts, Hpend. rewrite app_nil_r in Htoasts.
  unfold currentPlayerOf in Hdb, Hcalls. rewrite Hps in Hdb, Hcalls.
  rewrite He in Hdb, Hcalls, Htoasts. rewrite Hp, Hi, Hq in Hpend.
  cbn [app andb] in Hpend, Hcalls.
  assert (Hd1 : descending (players (ui w1))).
  { rewrite Hui. cbn [players]. now rewrite Hps. }
  destruct (commit_fields false _ w w1 Hrun Hd1)
    as (A1 & A2 & A3 & A4 & A5 & A6 & A7 & A8 & A9 & A10 & A11).
  rewrite Hui in A1, A3, A4, A5, A6, A7, A8, A9.
  cbn [loading gameStatus timeLeft hasAnswered questionIndex questions
       currentQuestion players] in A1, A3, A4, A5, A6, A7, A8, A9.
  rewrite expiryTasks_answered in A11 by (now rewrite Hui).
  rewrite app_nil_r, Hpend in A11.
  set (w2 := exec (commit false (submitAnswer user room k a true true)) w)
    in *.
  assert (Hs1 : step user room (ClickAnswer k a true true) w = Some w2).
  { cbn [step].
    now rewrite (offers_SubmitAnswer_true (ui w) q k Hld Hs Hh Hc Hk). }
  (* the first timeout of the answer *)
  set (w3 := mk (env w2) (ui w2) (dropNth 0 (pending w2)) (loadInFlight w2) (starting w2)).
  assert (Hrun3 : runTask (ShowThenNext i qs) w3
                  = (mk (env w2)
                        (mkState (players (ui w2)) (questions (ui w2))
                           (currentQuestion (ui w2)) (gameStatus (ui w2))
                           (timeLeft (ui w2)) (selectedAnswer (ui w2))
                           (hasAnswered (ui w2)) true
                           (questionIndex (ui w2)) (loading (ui w2)))
                        (dropNth 0 (pending w2) ++ [Next i qs])
                        (loadInFlight w2) (starting w2), Some tt)) by reflexivity.
  assert (Hd2 : descending (players (ui w2))) by (rewrite A9; congruence).
  destruct (commit_fields false _ w3 _ Hrun3 Hd2)
    as (B1 & B2 & B3 & B4 & B5 & B6 & B7 & B8 & B9 & B10 & B11).
  cbn [ui pending loadInFlight env loading gameStatus timeLeft hasAnswered
       questionIndex questions currentQuestion players w3]
    in B1, B2, B3, B4, B5, B6, B7, B8, B9, B10, B11.
  rewrite A11 in B11. cbn [dropNth firstn skipn app] in B11.
  rewrite expiryTasks_answered in B11 by (cbn [hasAnswered]; exact A5).
  exists (exec (commit false (runTask (ShowThenNext i qs))) w3). split.
  { cbn [run]. rewrite Hs1. cbn [step]. rewrite A11. reflexivity. }
  unfold Closing. cbv zeta.
  rewrite B1, B2, B3, B7, B9, B10, B11, A1, A2, A3, A7, A9, A10.
  repeat split; try congruence.
  unfold answeredEnv. cbv zeta. now apply Env_eq.
Qed.

(** A question answered at once: on to the next one, or the end. *)
Lemma answer_round (i : nat) (qs : list Question.t) (ps : list Player.t)
      (e : Env) (w : World) (q : Question.t) (k a : str) :
  AtQuestion i qs ps e w -> nth_error qs i = Some q -> In k answerKeys ->
  let e' := answeredEnv user room
              (find (fun p => Js.eqb (Player.userId p) (User.id user)) ps)
              e q k a in
  exists w',
    run user room (answerRound k a) w = Some w'
    /\ (i + 1 < List.length qs -> AtQuestion (i + 1) qs ps e' w')
    /\ (List.length qs <= i + 1 -> Over ps e' w').
Proof.
  intros Ha Hnth Hk e'.
  destruct (answer_closes i qs ps e w q k a Ha Hnth Hk) as (w1 & Hr & Hc).
  destruct (closing_fires user room i qs ps _ w1 Hc) as (w' & Hs & Hn & Ho).
  exists w'. split; [|split; assumption].
  change (answerRound k a)
    with ([ClickAnswer k a true true; Timeout 0] ++ [Timeout 0]).
  rewrite run_app, Hr. cbn [run]. now rewrite Hs.
Qed.

Lemma prompt_rounds (kas : list (str * str)) (i : nat)
      (qs : list Question.t) (ps : list Player.t) (e : Env) (w : World) :
  AtQuestion i qs ps e w -> kas <> [] ->
  i + List.length kas = List.length qs ->
  Forall (fun ka => In (fst ka) answerKeys) kas ->
  exists w',
    run user room (promptGame kas) w = Some w'
    /\ Over ps
         (playedEnv user room
            (find (fun p => Js.eqb (Player.userId p) (User.id user)) ps)
            e (skipn i qs) kas) w'.
Proof.
  revert i e w. induction kas as [|[k a] kas IH]; intros i e w Ha Hne Hlen Hk;
    [contradiction|].
  cbn [List.length] in Hlen.
  destruct (nth_error qs i) as [q|] eqn:Hq;
    [|apply nth_error_None in Hq; lia].
  inversion Hk as [|? ? Hk1 Hk2]; subst. cbn [fst] in Hk1.
  destruct (answer_round i qs ps e w q k a Ha Hq Hk1) as (w1 & Hr & Hn & Ho).
  assert (Hsk : skipn i qs = q :: skipn (i + 1) qs).
  { clear - Hq. revert i Hq. induction qs as [|x l IHl]; intros [|i] Hq;
      try discriminate.
    - injection Hq as ->. reflexivity.
    - cbn in Hq. cbn [skipn Nat.add]. now apply IHl. }
  unfold promptGame. cbn [map List.concat fst snd].
  rewrite run_app, Hr, Hsk. cbn [playedEnv].
  destruct kas as [|ka kas'].
  - exists w1. split; [reflexivity|].
    cbn [List.length] in Hlen.
    destruct (skipn (i + 1) qs); apply Ho; lia.
  - assert (Hlt : i + 1 < List.length qs)
      by (cbn [List.length] in Hlen; lia).
    destruct (IH (i + 1) _ w1 (Hn Hlt)) as (w' & Hr' & Ho');
      [discriminate|cbn [List.length] in *; lia|exact Hk2|].
    exists w'. split; [exact Hr'|exact Ho'].
Qed.

End PromptFacts.

Lemma updScore_idempotent (id : str) (sc : Z) (p : Player.t) :
  updScore id sc (updScore id sc p) = updScore id sc p.
Proof.
  unfold updScore. destruct (Js.eqb (Player.id p) id) eqn:E; cbn.
  - now rewrite E.
  - now rewrite E.
Qed.

Lemma scoredOnce_idempotent (cp : option Player.t) (l : list Player.t) :
  scoredOnce cp (scoredOnce cp l) = scoredOnce cp l.
Proof.
  destruct cp as [c|]; [|reflexivity]. cbn. rewrite map_map.
  apply map_ext. intros p. apply updScore_idempotent.
Qed.

Lemma answeredEnv_tables (user : User.t) (room : Room.t)
      (cp : option Player.t) (e : Env) (q : Question.t) (k a : str) :
  let e' := answeredEnv user room cp e q k a in
  tbl_gameAnswers (db e')
  = tbl_gameAnswers (db e) ++ [TriviaRoom.newAnswer user room a q k]
  /\ tbl_players (db e')
     = (if Js.eqb k (Question.correctAnswer q)
        then scoredOnce cp (tbl_players (db e)) else tbl_players (db e))
  /\ tbl_rooms (db e') = tbl_rooms (db e)
  /\ toasts e' = toasts e.
Proof.
  unfold answeredEnv, scoreUpdate, scoredOnce. cbv zeta. cbn [db toasts andb].
  destruct cp as [c|], (Js.eqb k (Question.correctAnswer q));
    cbn; repeat split.
Qed.

Lemma playedEnv_tables (user : User.t) (room : Room.t) (cp : option Player.t)
      (qs : list Question.t) (kas : list (str * str)) (e : Env) :
  let e' := playedEnv user room cp e qs kas in
  tbl_gameAnswers (db e')
  = tbl_gameAnswers (db e) ++ recordedAnswers user room qs kas
  /\ tbl_players (db e')
     = (if anyCorrect qs kas
        then scoredOnce cp (tbl_players (db e)) else tbl_players (db e))
  /\ tbl_rooms (db e') = tbl_rooms (db e)
  /\ toasts e' = toasts e.
Proof.
  revert kas e. induction qs as [|q qs IH]; intros kas e; cbn zeta.
  - cbn. rewrite app_nil_r. repeat split.
  - destruct kas as [|[k a] kas]; cbn [playedEnv].
    + cbn. rewrite app_nil_r. repeat split.
    + destruct (IH kas (answeredEnv user room cp e q k a))
        as (Ha & Hp & Hr & Ht).
      destruct (answeredEnv_tables user room cp e q k a)
        as (Ha1 & Hp1 & Hr1 & Ht1).
      rewrite Ha, Hp, Hr, Ht, Ha1, Hp1, Hr1, Ht1.
      unfold recordedAnswers, anyCorrect.
      cbn [combine map existsb fst snd].
      rewrite <- app_assoc. cbn [app].
      repeat split.
      destruct (Js.eqb k (Question.correctAnswer q)); cbn [orb];
        [|reflexivity].
      rewrite scoredOnce_idempotent.
      match goal with
      | |- context [if ?c then _ else _] => destruct c
      end; reflexivity.
Qed.

(** A host who starts the game and answers every question at once, all
    store calls going through, reaches the finished screen with one
    answer row per loaded question, in order, each marked correct exactly
    when its key is the question's [correctAnswer].  The stored score of
    the player's row is the loaded score plus 100 when at least one
    answer was correct, however many were, and unchanged otherwise; the
    view's own player list still holds the loaded scores. *)
Theorem prompt_game_records_answers
  (user : User.t) (room : Room.t) (e : Env) (kas : list (str * str)) :
  User.id user = Room.hostUserId room ->
  kas <> [] ->
  List.length kas = List.length (db_questions_list (db e)) ->
  Forall (fun ka => In (fst ka) answerKeys) kas ->
  let qs := db_questions_list (db e) in
  let ps := db_players_list (Room.id room) (db e) in
  exists w,
    TriviaRoom.run user room (startUp ++ promptGame kas) (TriviaRoom.init e)
    = Some w
    /\ TriviaRoom.gameStatus (TriviaRoom.ui w) = finished
    /\ TriviaRoom.players (TriviaRoom.ui w) = ps
    /\ tbl_gameAnswers (db (TriviaRoom.env w))
       = tbl_gameAnswers (db e) ++ recordedAnswers user room qs kas
    /\ tbl_players (db (TriviaRoom.env w))
       = (if anyCorrect qs kas
          then scoredOnce
                 (find (fun p => Js.eqb (Player.userId p) (User.id user)) ps)
                 (tbl_players (db e))
          else tbl_players (db e)).
Proof.
  intros Hh Hne Hlen Hk qs ps. apply isHost_iff in Hh.
  destruct (startUp_run user room e Hh) as (w0 & Hr0 & Ha).
  cbn [andb loadedQuestions loadedPlayers] in Ha. fold qs ps in Ha.
  destruct (prompt_rounds user room kas 0 qs ps _ w0 Ha Hne)
    as (w & Hr & Ho); [exact Hlen|exact Hk|].
  exists w. rewrite run_app, Hr0. split; [exact Hr|].
  destruct Ho as (_ & Hs & Hp & He). rewrite He. cbn [skipn].
  destruct (playedEnv_tables user room
              (find (fun p => Js.eqb (Player.userId p) (User.id user)) ps)
              qs kas (startedEnv room e)) as (Hans & Hpl & _).
  rewrite Hans, Hpl. repeat split; assumption.
Qed.

Lemma prompt_game_records_answers_witness :
  exists w,
    TriviaRoom.run Demo.alice Demo.quiz
      (startUp ++ promptGame [(lit "A", lit "a1"); (lit "B", lit "a2");
                              (lit "D", lit "a3")])
      (TriviaRoom.init Demo.env0) = Some w
    /\ tbl_players (db (TriviaRoom.env w))
       = [Player.mk (lit "p1") (lit "r1") (lit "u1") (lit "alice") 100;
          Demo.row2].
Proof.
  destruct (prompt_game_records_answers Demo.alice Demo.quiz Demo.env0
              [(lit "A", lit "a1"); (lit "B", lit "a2"); (lit "D", lit "a3")])
    as (w & Hr & _ & _ & _ & Hp).
  - reflexivity.
  - discriminate.
  - reflexivity.
  - repeat constructor; cbn; tauto.
  - exists w. split; [exact Hr|]. rewrite Hp. vm_compute. reflexivity.
Defined.

(* ------------------------------------------------------------------ *)
(** ** The room view: what reaches the room row, and the end *)

Section RoomRowFacts.
Import TriviaRoom.
Variable user : User.t.
Variable room : Room.t.

Lemma loadGameData_db (okP okQ : bool) (w : World) :
  exists w1, loadGameData room okP okQ w = (w1, Some tt)
             /\ db (env w1) = db (env w).
Proof.
  destruct w as [[d c t] s p l sg].
  destruct okP, okQ; room_run; try (eexists; split; reflexivity).
  destruct (0 <? List.length (db_questions_list d)); room_proj;
    eexists; split; reflexivity.
Qed.

Lemma scoreUpdate_rooms (okA okS correct : bool) (cp : option Player.t)
      (d : Db) :
  tbl_rooms (scoreUpdate okA okS correct cp d) = tbl_rooms d.
Proof.
  unfold scoreUpdate. destruct cp; [|reflexivity].
  now destruct (okA && correct && okS).
Qed.

Lemma Forall2_updRoom (id : str) (l : list Room.t) :
  Forall2 (fun r r' =>
             r' = r
             \/ (Room.id r = id
                 /\ r' = Room.mk (Room.id r) (Room.name r) (Room.hostUserId r)
                           playing 0))
          l (map (updRoom id playing 0) l).
Proof.
  induction l as [|r l IH]; simpl; constructor; [|exact IH].
  unfold updRoom. destruct (Js.eqb (Room.id r) id) eqn:E; [|now left].
  right. apply Js_eqb_eq in E. auto.
Qed.

(** The rooms table after an event of this view. *)
Lemma step_rooms (ev : Event) (w w' : World) :
  step user room ev w = Some w' -> (forall d, ev <> External d) ->
  tbl_rooms (db (env w'))
  = (match ev with
     | ClickStart true | StartSettled true =>
         map (updRoom (Room.id room) playing 0)
     | _ => fun l => l
     end) (tbl_rooms (db (env w))).
Proof.
  intros Hstep Hext.
  destruct ev as [okP okQ|ok|k aid okA okS|e ok| |n|d| |ok'];
    cbn [step] in Hstep.
  - destruct (loadInFlight w); [|discriminate]. injection Hstep as <-.
    change (exec (loadSettled ;; commit true (loadGameData room okP okQ)) w)
      with (exec (commit true (loadGameData room okP okQ))
                 (mk (env w) (ui w) (pending w) false (starting w))).
    destruct (loadGameData_db okP okQ
                (mk (env w) (ui w) (pending w) false (starting w)))
      as (w1 & Hrun & Hdb).
    destruct (commit_run true _ _ w1 Hrun) as (-> & _). now rewrite Hdb.
  - destruct (offers user room (ui w) StartGame); [|discriminate].
    injection Hstep as <-. destruct ok.
    + now destruct (commit_run false _ w _ (startGame_ok room w)) as (-> & _).
    + now destruct (commit_run false _ w _ (startGame_fail room w)) as (-> & _).
  - destruct (offers user room (ui w) (SubmitAnswer k)) eqn:Eo;
      [|discriminate].
    injection Hstep as <-.
    apply offers_SubmitAnswer in Eo as (_ & _ & Hh & q & Hq).
    destruct (submitAnswer_effect user room k aid okA okS w q Hh Hq)
      as (w1 & Hrun & Hdb & _).
    destruct (commit_run false _ w w1 Hrun) as (-> & _).
    rewrite Hdb, scoreUpdate_rooms. now destruct okA.
  - destruct (offers user room (ui w) (SendReaction e)); [|discriminate].
    injection Hstep as <-.
    now destruct (commit_run false _ w _ (sendReaction_env user room e ok w))
      as (-> & _).
  - now rewrite (timer_step_env user room Tick w w' (or_introl eq_refl) Hstep).
  - now rewrite (timer_step_env user room (Timeout n) w w'
                   (or_intror (ex_intro _ n eq_refl)) Hstep).
  - now destruct (Hext d).
  - destruct (offers user room (ui w) StartGame); [|discriminate].
    injection Hstep as <-. unfold exec. now rewrite startGameCall_run.
  - destruct (0 <? starting w); [|discriminate].
    injection Hstep as <-. destruct ok'.
    + now destruct (commit_run false _ w _ (startGameResume_ok room w))
        as (-> & _).
    + now destruct (commit_run false _ w _ (startGameResume_fail room w))
        as (-> & _).
Qed.




End RoomRowFacts.

(** The only thing this view ever writes to a room row is status
    [playing] with question index 0, by a [startGame] that goes through,
    and only to rows with the room's id.  Moving to a further question or
    finishing the game is never written to the store: no event of the
    view gives a stored room the status [finished] or moves its stored
    index. *)
Theorem room_row_only_started
  (user : User.t) (room : Room.t) (ev : TriviaRoom.Event)
  (w w' : TriviaRoom.World) :
  TriviaRoom.step user room ev w = Some w' ->
  (forall d, ev <> TriviaRoom.External d) ->
  Forall2
    (fun r r' =>
       r' = r
       \/ ((ev = TriviaRoom.ClickStart true
            \/ ev = TriviaRoom.StartSettled true)
           /\ Room.id r = Room.id room
           /\ r' = Room.mk (Room.id r) (Room.name r) (Room.hostUserId r)
                     playing 0))
    (tbl_rooms (db (TriviaRoom.env w))) (tbl_rooms (db (TriviaRoom.env w')))
  /\ forall r', In r' (tbl_rooms (db (TriviaRoom.env w'))) ->
       Room.status r' <> playing ->
       In r' (tbl_rooms (db (TriviaRoom.env w))).
Proof.
  intros Hstep Hext.
  assert (HF : Forall2
    (fun r r' =>
       r' = r
       \/ ((ev = TriviaRoom.ClickStart true
            \/ ev = TriviaRoom.StartSettled true)
           /\ Room.id r = Room.id room
           /\ r' = Room.mk (Room.id r) (Room.name r) (Room.hostUserId r)
                     playing 0))
    (tbl_rooms (db (TriviaRoom.env w))) (tbl_rooms (db (TriviaRoom.env w')))).
  { rewrite (step_rooms user room ev w w' Hstep Hext).
    destruct ev as [? ?|[|]|? ? ? ?|? ?| |?|?| |[|]];
      try apply Forall2_refl_or;
      (eapply Forall2_impl; [|apply Forall2_updRoom]);
      intros r r' [->|[Hid ->]]; auto. }
  split; [exact HF|].
  intros r' Hin Hst.
  induction HF as [|r x l l' Hr HF IH]; [contradiction|].
  destruct Hin as [<-|Hin].
  - destruct Hr as [->|(_ & _ & ->)]; [now left|].
    cbn in Hst. contradiction.
  - right. now apply IH.
Qed.

Lemma room_row_only_started_witness :
  Forall2
    (fun r r' =>
       r' = r
       \/ ((TriviaRoom.Tick = TriviaRoom.ClickStart true
            \/ TriviaRoom.Tick = TriviaRoom.StartSettled true)
           /\ Room.id r = Room.id Demo.quiz
           /\ r' = Room.mk (Room.id r) (Room.name r) (Room.hostUserId r)
                     playing 0))
    (tbl_rooms (db (TriviaRoom.env Demo.started)))
    (tbl_rooms (db (TriviaRoom.env
                      (exec (TriviaRoom.commit false TriviaRoom.tick)
                            Demo.started)))).
Proof.
  destruct (room_row_only_started Demo.alice Demo.quiz TriviaRoom.Tick
              Demo.started
              (exec (TriviaRoom.commit false TriviaRoom.tick) Demo.started))
    as [HF _].
  - vm_compute. reflexivity.
  - discriminate.
  - exact HF.
Defined.



(** The tick that brings the countdown to 0 queues exactly one call of
    [nextQuestion], captured at the question on screen; every other tick
    queues nothing, and no tick makes a store call. *)
Theorem tick_queues_expiry_once
  (user : User.t) (room : Room.t) (w w' : TriviaRoom.World) :
  TriviaRoom.step user room TriviaRoom.Tick w = Some w' ->
  TriviaRoom.pending w'
  = TriviaRoom.pending w
    ++ (if (TriviaRoom.timeLeft (TriviaRoom.ui w) =? 1)%Z
        then [TriviaRoom.Next (TriviaRoom.questionIndex (TriviaRoom.ui w))
                              (TriviaRoom.questions (TriviaRoom.ui w))]
        else [])
  /\ TriviaRoom.env w' = TriviaRoom.env w.
Proof.
  intros Hstep.
  split; [|apply (timer_step_env user room TriviaRoom.Tick w w');
           [now left|exact Hstep]].
  cbn [TriviaRoom.step] in Hstep.
  destruct (TriviaRoom.ticking (TriviaRoom.ui w)) eqn:Et; [|discriminate].
  injection Hstep as <-.
  unfold TriviaRoom.ticking in Et.
  apply andb_true_iff in Et as [Et Hh].
  apply andb_true_iff in Et as [Hs Ht].
  apply Z.ltb_lt in Ht. apply negb_true_iff in Hh.
  destruct (commit_run false _ w _ (tick_run w)) as (_ & _ & _ & Hp).
  rewrite Hp. cbn [TriviaRoom.pending TriviaRoom.ui]. f_equal.
  rewrite depsChanged_time by (cbn; lia).
  unfold expiryTasks, TriviaRoom.ticking.
  cbn [orb andb TriviaRoom.timeLeft TriviaRoom.gameStatus
       TriviaRoom.hasAnswered TriviaRoom.questionIndex TriviaRoom.questions].
  rewrite Hs, Hh. cbn [andb negb].
  destruct (Z.eqb_spec (TriviaRoom.timeLeft (TriviaRoom.ui w)) 1) as [Hz|Hz].
  - rewrite Hz. reflexivity.
  - assert (Hlt : (0 <? TriviaRoom.timeLeft (TriviaRoom.ui w) - 1)%Z = true)
      by (apply Z.ltb_lt; lia).
    rewrite Hlt. reflexivity.
Qed.

Lemma tick_queues_expiry_once_witness :
  TriviaRoom.pending (exec (TriviaRoom.commit false TriviaRoom.tick)
                           Demo.started) = [].
Proof.
  destruct (tick_queues_expiry_once Demo.alice Demo.quiz Demo.started
              (exec (TriviaRoom.commit false TriviaRoom.tick) Demo.started))
    as [Hp _].
  - vm_compute. reflexivity.
  - rewrite Hp. vm_compute. reflexivity.
Defined.
